(** * zapis_bot: booking store, reminder bridge and handlers

    A shallow embedding of [database.py], of the reminder code of
    [handlers.py] and [bot.py], of the handlers that drive them, of the
    booking keyboards of [keyboards.py] and of [_required_env] of
    [config.py].

    Conventions.
    - Python integers are [Z]; text is [string], the bytes of its UTF-8
      form.  The functions that look at characters ([strip], [\d] and
      [\s] of [strptime]) read the code points off these bytes.
    - A naive [datetime] is the number of microseconds since
      [datetime.min] = 0001-01-01T00:00:00, so that comparison and
      [timedelta] arithmetic are the ones of [Z].  The columns
      [created_at] and [run_at] hold [isoformat()] text that is read back
      with [fromisoformat]; the model keeps the datetime value itself.
    - Every call of [datetime.now()] is an explicit argument.
    - An SQL table is the list of its rows in rowid order together with
      the AUTOINCREMENT counter kept in [sqlite_sequence]. *)

From Stdlib Require Import ZArith List String Ascii Bool Lia.
From Stdlib Require Import DecimalString DecimalZ.
From Stdlib Require Import Sorted Permutation.
Import ListNotations.
Open Scope string_scope.
Open Scope list_scope.
Open Scope Z_scope.

(** ** Python exceptions and results *)

Inductive exn : Type :=
| ValueError
| OverflowError.

Inductive result (A : Type) : Type :=
| Ok (a : A)
| Raise (e : exn).
Arguments Ok {A} a.
Arguments Raise {A} e.

(** ** Dates, times and their text forms *)

Module PyTime.

(** [datetime.date] and the [datetime.time] values produced by
    [strptime(p, "%H:%M").time()] (seconds and microseconds are 0). *)
Record date : Type := mkDate { year : Z; month : Z; day : Z }.
Record time : Type := mkTime { hour : Z; minute : Z }.

Definition is_leap (y : Z) : bool :=
  (y mod 4 =? 0) && (negb (y mod 100 =? 0) || (y mod 400 =? 0)).

Definition days_in_month (y m : Z) : Z :=
  if m =? 2 then (if is_leap y then 29 else 28)
  else if (m =? 4) || (m =? 6) || (m =? 9) || (m =? 11) then 30
  else 31.

Definition days_before_year (y : Z) : Z :=
  let p := y - 1 in p * 365 + p / 4 - p / 100 + p / 400.

Fixpoint days_before_month_nat (y : Z) (m : nat) : Z :=
  match m with
  | O => 0
  | S k => days_before_month_nat y k + days_in_month y (Z.of_nat (S k))
  end.

Definition days_before_month (y m : Z) : Z :=
  days_before_month_nat y (Z.to_nat (m - 1)).

(** [date.toordinal]: 0001-01-01 is day 1. *)
Definition ymd2ord (y m d : Z) : Z :=
  days_before_year y + days_before_month y m + d.

Definition valid_date (y m d : Z) : bool :=
  (1 <=? y) && (y <=? 9999) && (1 <=? m) && (m <=? 12)
  && (1 <=? d) && (d <=? days_in_month y m).

Definition us_per_second : Z := 1000000.
Definition us_per_day : Z := 86400 * us_per_second.

(** [timedelta(hours=24)] *)
Definition hours24 : Z := 24 * 3600 * us_per_second.

(** [datetime(y, m, d, hh, mm)] on the microsecond line. *)
Definition datetime_of (y m d hh mm : Z) : Z :=
  (ymd2ord y m d - 1) * us_per_day + (hh * 3600 + mm * 60) * us_per_second.

(** [dt - timedelta]: OverflowError when the result is before
    [datetime.min]. *)
Definition datetime_sub (dt delta : Z) : result Z :=
  if dt - delta <? 0 then Raise OverflowError else Ok (dt - delta).

(** *** Formatting *)

Definition digit (n : Z) : ascii := ascii_of_nat (48 + Z.to_nat (n mod 10)).

Definition pad2 (n : Z) : string :=
  String (digit (n / 10)) (String (digit n) EmptyString).

Definition pad4 (n : Z) : string :=
  String (digit (n / 1000)) (String (digit (n / 100)) (pad2 n)).

(** [d.isoformat()], i.e. "%04d-%02d-%02d" *)
Definition isoformat (d : date) : string :=
  (pad4 (year d) ++ "-" ++ pad2 (month d) ++ "-" ++ pad2 (day d))%string.

(** [t.strftime("%H:%M")] *)
Definition strftime_HM (t : time) : string :=
  (pad2 (hour t) ++ ":" ++ pad2 (minute t))%string.

(** [str(n)] for a Python int *)
Definition str (n : Z) : string := NilEmpty.string_of_int (Z.to_int n).

(** *** Parsing: [datetime.strptime]

    [_strptime] turns the format into a regular expression, matches it
    at the start of the text with the backtracking matcher of [re], and
    raises ValueError when nothing matches, when text is left over, or
    when the fields are no date.  A matcher is the list of its
    successes in the order in which [re] tries them. *)

Definition matcher (A : Type) : Type := string -> list (A * string).

Definition ret {A} (a : A) : matcher A := fun s => [(a, s)].

Definition bind {A B} (m : matcher A) (k : A -> matcher B) : matcher B :=
  fun s => flat_map (fun '(a, rest) => k a rest) (m s).

Definition alt {A} (m1 m2 : matcher A) : matcher A :=
  fun s => m1 s ++ m2 s.

Definition code (c : ascii) : Z := Z.of_nat (nat_of_ascii c).

(** A Python [str] is a sequence of code points.  [head_char] reads the
    first one off the UTF-8 bytes, with the bytes that spell it and the
    text after it.  A byte that begins no well-formed sequence is a
    character of its own: the lone surrogate U+DC00 + byte, which is how
    [surrogateescape] keeps such a byte in a [str]. *)
Definition continuation (s : string) : option (Z * ascii * string) :=
  match s with
  | String c rest =>
      if (128 <=? code c) && (code c <=? 191)
      then Some (code c - 128, c, rest) else None
  | EmptyString => None
  end.

Definition head_char (s : string) : option (Z * string * string) :=
  match s with
  | EmptyString => None
  | String c0 r0 =>
      let b0 := code c0 in
      let lone := Some (56320 + b0, String c0 EmptyString, r0) in
      if b0 <? 128 then Some (b0, String c0 EmptyString, r0)
      else
        match continuation r0 with
        | None => lone
        | Some (x1, c1, r1) =>
            if b0 <? 224 then
              let cp := (b0 - 192) * 64 + x1 in
              if 128 <=? cp
              then Some (cp, String c0 (String c1 EmptyString), r1)
              else lone
            else
              match continuation r1 with
              | None => lone
              | Some (x2, c2, r2) =>
                  if b0 <? 240 then
                    let cp := (b0 - 224) * 4096 + x1 * 64 + x2 in
                    if (2048 <=? cp)
                       && negb ((55296 <=? cp) && (cp <=? 57343))
                    then Some (cp, String c0 (String c1 (String c2 EmptyString)),
                               r2)
                    else lone
                  else
                    match continuation r2 with
                    | None => lone
                    | Some (x3, c3, r3) =>
                        let cp := (b0 - 240) * 262144 + x1 * 4096
                                  + x2 * 64 + x3 in
                        if (65536 <=? cp) && (cp <=? 1114111)
                        then Some (cp,
                                   String c0 (String c1 (String c2
                                     (String c3 EmptyString))), r3)
                        else lone
                    end
              end
        end
  end.

(** White space: the code points that [str.isspace], [str.strip] and
    [\s] of [re] take as such. *)
Definition is_space (c : Z) : bool :=
  ((9 <=? c) && (c <=? 13)) || ((28 <=? c) && (c <=? 32))
  || (c =? 133) || (c =? 160) || (c =? 5760)
  || ((8192 <=? c) && (c <=? 8202))
  || (c =? 8232) || (c =? 8233) || (c =? 8239) || (c =? 8287)
  || (c =? 12288).

(** The decimal digits (category Nd) come in runs of ten, 0 to 9; these
    are the code points of the zeros in the Unicode database 14.0 of
    CPython 3.11.  Later databases add runs, none is ever taken away. *)
Definition decimal_zeros : list Z :=
  [48; 1632; 1776; 1984; 2406; 2534; 2662; 2790; 2918; 3046; 3174; 3302;
   3430; 3558; 3664; 3792; 3872; 4160; 4240; 6112; 6160; 6470; 6608; 6784;
   6800; 6992; 7088; 7232; 7248; 42528; 43216; 43264; 43472; 43504; 43600;
   44016; 65296; 66720; 68912; 69734; 69872; 69942; 70096; 70384; 70736;
   70864; 71248; 71360; 71472; 71904; 72016; 72784; 73040; 73120; 92768;
   92864; 93008; 120782; 120792; 120802; 120812; 120822; 123200; 123632;
   125264; 130032].

(** The value that [int] gives a decimal digit. *)
Definition decimal (c : Z) : option Z :=
  match find (fun z => (z <=? c) && (c <=? z + 9)) decimal_zeros with
  | Some z => Some (c - z)
  | None => None
  end.

(** The digits 0 to 9 of ASCII, which the classes such as [0-3] and
    [date.fromisoformat] read. *)
Definition is_digit (c : ascii) : bool := (48 <=? code c) && (code c <=? 57).

Definition digit_val (c : ascii) : Z := code c - 48.

(** one character of the class [lo-hi] of digits *)
Definition digit_in (lo hi : Z) : matcher Z :=
  fun s =>
    match s with
    | String c rest =>
        if is_digit c && (lo <=? digit_val c) && (digit_val c <=? hi)
        then [(digit_val c, rest)] else []
    | EmptyString => []
    end.

Definition lit (c : ascii) : matcher unit :=
  fun s =>
    match s with
    | String c' rest => if Ascii.eqb c c' then [(tt, rest)] else []
    | EmptyString => []
    end.

(** [\d]: one decimal digit *)
Definition any_digit : matcher Z :=
  fun s =>
    match head_char s with
    | Some (c, _, rest) =>
        match decimal c with
        | Some v => [(v, rest)]
        | None => []
        end
    | None => []
    end.

(** two classes of ASCII digits, as in 3[0-1] *)
Definition two (lo1 hi1 lo2 hi2 : Z) : matcher Z :=
  bind (digit_in lo1 hi1) (fun a =>
  bind (digit_in lo2 hi2) (fun b => ret (10 * a + b))).

(** a class of ASCII digits and [\d], as in [1-2]\d *)
Definition class_digit (lo hi : Z) : matcher Z :=
  bind (digit_in lo hi) (fun a =>
  bind any_digit (fun b => ret (10 * a + b))).

(** [\d\d] *)
Definition digit_digit : matcher Z :=
  bind any_digit (fun a => bind any_digit (fun b => ret (10 * a + b))).

(** [%Y]: (\d\d\d\d) *)
Definition dir_Y : matcher Z :=
  bind digit_digit (fun hi => bind digit_digit (fun lo => ret (100 * hi + lo))).

(** [%m]: (1[0-2]|0[1-9]|[1-9]) *)
Definition dir_m : matcher Z :=
  alt (two 1 1 0 2) (alt (two 0 0 1 9) (digit_in 1 9)).

(** [%d]: (3[0-1]|[1-2]\d|0[1-9]|[1-9]| [1-9]) *)
Definition dir_d : matcher Z :=
  alt (two 3 3 0 1) (alt (class_digit 1 2) (alt (two 0 0 1 9)
    (alt (digit_in 1 9) (bind (lit " ") (fun _ => digit_in 1 9))))).

(** [%H]: (2[0-3]|[0-1]\d|\d) *)
Definition dir_H : matcher Z :=
  alt (two 2 2 0 3) (alt (class_digit 0 1) any_digit).

(** [%M]: ([0-5]\d|\d) *)
Definition dir_M : matcher Z :=
  alt (class_digit 0 5) any_digit.

(** the suffixes left by [\s*], longest run first (greedy); a run of
    white space in [s] has at most [String.length s] characters, which
    bounds the recursion *)
Fixpoint spaces_star_upto (n : nat) (s : string) : list string :=
  match n with
  | O => [s]
  | S k =>
      match head_char s with
      | Some (c, _, rest) =>
          if is_space c then spaces_star_upto k rest ++ [s] else [s]
      | None => [s]
      end
  end.

Definition spaces_star (s : string) : list string :=
  spaces_star_upto (String.length s) s.

(** a blank in the format: [\s+] *)
Definition spaces_plus : matcher unit :=
  fun s =>
    match head_char s with
    | Some (c, _, rest) =>
        if is_space c then map (fun r => (tt, r)) (spaces_star rest) else []
    | None => []
    end.

(** [re.match] takes the first success; [_strptime] then refuses
    unconverted text. *)
Definition full_match {A} (m : matcher A) (s : string) : option A :=
  match m s with
  | (a, EmptyString) :: _ => Some a
  | _ => None
  end.

Definition regex_HM : matcher (Z * Z) :=
  bind dir_H (fun h => bind (lit ":") (fun _ => bind dir_M (fun mi => ret (h, mi)))).

(** [datetime.strptime(p, "%H:%M").time()]; [None] is ValueError. *)
Definition strptime_HM (p : string) : option time :=
  match full_match regex_HM p with
  | Some (h, mi) => Some (mkTime h mi)
  | None => None
  end.

Definition regex_slot : matcher (Z * Z * Z * Z * Z) :=
  bind dir_Y (fun y => bind (lit "-") (fun _ =>
  bind dir_m (fun m => bind (lit "-") (fun _ =>
  bind dir_d (fun d => bind spaces_plus (fun _ =>
  bind dir_H (fun h => bind (lit ":") (fun _ =>
  bind dir_M (fun mi => ret (y, m, d, h, mi)))))))))).

(** [datetime.strptime(text, "%Y-%m-%d %H:%M")]; [None] is ValueError. *)
Definition strptime_slot (text : string) : option Z :=
  match full_match regex_slot text with
  | Some (y, m, d, h, mi) =>
      if valid_date y m d then Some (datetime_of y m d h mi) else None
  | None => None
  end.

End PyTime.

Import PyTime.

(** ** ORDER BY on a text column

    SQLite compares TEXT byte by byte ([String.leb]).  Rows with equal
    keys are kept here in the order in which they were found; SQLite
    promises no order among them, and no property relies on one. *)

Fixpoint insert_by {A : Type} (key : A -> string) (x : A) (l : list A)
  : list A :=
  match l with
  | [] => [x]
  | y :: rest =>
      if String.leb (key x) (key y) then x :: l
      else y :: insert_by key x rest
  end.

Fixpoint order_by {A : Type} (key : A -> string) (l : list A) : list A :=
  match l with
  | [] => []
  | x :: rest => insert_by key x (order_by key rest)
  end.

(** SELECT DISTINCT on one text column *)
Fixpoint distinct (l : list string) : list string :=
  match l with
  | [] => []
  | x :: rest =>
      if existsb (String.eqb x) rest then distinct rest
      else x :: distinct rest
  end.

(** ** The durable store ([database.py]) *)

(** [bookings.status]: the code writes 'active' and 'cancelled' only. *)
Inductive status : Type :=
| active
| cancelled.

Definition status_eqb (a b : status) : bool :=
  match a, b with
  | active, active | cancelled, cancelled => true
  | _, _ => false
  end.

(** Rows.  A NULL column is [None]. *)
Record user : Type := mkUser {
  u_id : Z;
  u_tg_id : Z;
  u_name : option string;
  u_phone : option string;
  u_last_menu_message_id : option Z
}.

Record slot : Type := mkSlot {
  s_id : Z;
  s_date : string;            (* YYYY-MM-DD *)
  s_time : string;            (* HH:MM *)
  s_is_available : Z
}.

Record booking : Type := mkBooking {
  b_id : Z;
  b_user_id : Z;
  b_slot_id : Z;
  b_status : status;
  b_created_at : Z
}.

Record reminder : Type := mkReminder {
  r_id : Z;
  r_booking_id : Z;
  r_run_at : Z;
  r_job_id : string
}.

(** The database file: tables in rowid order and, for each, the largest
    rowid ever handed out (AUTOINCREMENT never reuses an id). *)
Record db : Type := mkDb {
  users : list user;
  users_seq : Z;
  slots : list slot;
  slots_seq : Z;
  bookings : list booking;
  bookings_seq : Z;
  reminders : list reminder;
  reminders_seq : Z
}.

(** [Database.init] on a new file *)
Definition init : db := mkDb [] 0 [] 0 [] 0 [] 0.

Definition set_users (s : db) (us : list user) (seq : Z) : db :=
  mkDb us seq (slots s) (slots_seq s) (bookings s) (bookings_seq s)
       (reminders s) (reminders_seq s).

Definition set_slots (s : db) (sl : list slot) (seq : Z) : db :=
  mkDb (users s) (users_seq s) sl seq (bookings s) (bookings_seq s)
       (reminders s) (reminders_seq s).

Definition set_bookings (s : db) (bs : list booking) (seq : Z) : db :=
  mkDb (users s) (users_seq s) (slots s) (slots_seq s) bs seq
       (reminders s) (reminders_seq s).

Definition set_reminders (s : db) (rs : list reminder) (seq : Z) : db :=
  mkDb (users s) (users_seq s) (slots s) (slots_seq s) (bookings s)
       (bookings_seq s) rs seq.

Definition is_active (b : booking) : bool := status_eqb (b_status b) active.

(** SELECT id FROM users WHERE tg_id = ? *)
Definition user_by_tg (s : db) (tg_id : Z) : option user :=
  find (fun u => u_tg_id u =? tg_id) (users s).

Definition get_or_create_user (tg_id : Z) (s : db) : Z * db :=
  match user_by_tg s tg_id with
  | Some row => (u_id row, s)
  | None =>
      let id := users_seq s + 1 in
      let s' := set_users s (users s ++ [mkUser id tg_id None None None]) id in
      (* the second SELECT finds the row just inserted
         (see [get_or_create_user_fresh]) *)
      match user_by_tg s' tg_id with
      | Some row => (u_id row, s')
      | None => (id, s')
      end
  end.

Definition update_user_info (tg_id : Z) (name phone : string) (s : db) : db :=
  set_users s
    (map (fun u => if u_tg_id u =? tg_id
                   then mkUser (u_id u) (u_tg_id u) (Some name) (Some phone)
                               (u_last_menu_message_id u)
                   else u) (users s))
    (users_seq s).

Definition set_last_menu_message_id (tg_id message_id : Z) (s : db) : db :=
  set_users s
    (map (fun u => if u_tg_id u =? tg_id
                   then mkUser (u_id u) (u_tg_id u) (u_name u) (u_phone u)
                               (Some message_id)
                   else u) (users s))
    (users_seq s).

(** The bookings that bookings b JOIN users u ON u.id = b.user_id
    WHERE u.tg_id = ? AND b.status = 'active' selects. *)
Definition active_bookings_of_tg (s : db) (tg_id : Z) : list booking :=
  filter (fun b => is_active b
                   && existsb (fun u => (u_id u =? b_user_id b)
                                        && (u_tg_id u =? tg_id)) (users s))
         (bookings s).

Definition slot_by_id (s : db) (slot_id : Z) : option slot :=
  find (fun sl => s_id sl =? slot_id) (slots s).

(** get_active_booking_by_tg: the booking with the date and time of its
    slot (the further JOIN slots drops a booking whose slot is gone). *)
Definition get_active_booking_by_tg (tg_id : Z) (s : db)
  : option (booking * string * string) :=
  match flat_map (fun b => match slot_by_id s (b_slot_id b) with
                           | Some sl => [(b, s_date sl, s_time sl)]
                           | None => []
                           end) (active_bookings_of_tg s tg_id) with
  | row :: _ => Some row
  | [] => None
  end.

Definition create_slot (d : date) (t : time) (s : db) : db :=
  let id := slots_seq s + 1 in
  set_slots s (slots s ++ [mkSlot id (isoformat d) (strftime_HM t) 1]) id.

Definition delete_slot (slot_id : Z) (s : db) : db :=
  set_slots s (filter (fun sl => negb (s_id sl =? slot_id)) (slots s))
            (slots_seq s).

Definition set_available (v : Z) (sl : slot) : slot :=
  mkSlot (s_id sl) (s_date sl) (s_time sl) v.

Definition close_day (d : date) (s : db) : db :=
  set_slots s
    (map (fun sl => if String.eqb (s_date sl) (isoformat d)
                    then set_available 0 sl else sl) (slots s))
    (slots_seq s).

(** SELECT id, time FROM slots WHERE date = ? AND is_available = 1
    ORDER BY time *)
Definition get_available_times (d : date) (s : db) : list slot :=
  order_by s_time
    (filter (fun sl => String.eqb (s_date sl) (isoformat d)
                       && (s_is_available sl =? 1)) (slots s)).

(** UPDATE slots SET is_available = v WHERE id = ? *)
Definition update_slot_available (slot_id v : Z) (s : db) : db :=
  set_slots s
    (map (fun sl => if s_id sl =? slot_id then set_available v sl else sl)
         (slots s))
    (slots_seq s).

Definition insert_booking (user_id slot_id now : Z) (s : db) : db :=
  let id := bookings_seq s + 1 in
  set_bookings s (bookings s ++ [mkBooking id user_id slot_id active now]) id.

(** SELECT id FROM bookings WHERE user_id = ? AND slot_id = ?
    AND status = 'active' *)
Definition active_booking_of (s : db) (user_id slot_id : Z) : option booking :=
  find (fun b => (b_user_id b =? user_id) && (b_slot_id b =? slot_id)
                 && is_active b) (bookings s).

(** [now] is the [datetime.now()] stored in [created_at]. *)
Definition book_slot (tg_id slot_id now : Z) (s : db) : option Z * db :=
  match active_bookings_of_tg s tg_id with
  | _ :: _ => (None, s)
  | [] =>
      let '(user_id, s1) := get_or_create_user tg_id s in
      match slot_by_id s1 slot_id with
      | None => (None, s1)
      | Some slot_row =>
          if s_is_available slot_row =? 0 then (None, s1)
          else
            let s2 := update_slot_available slot_id 0 s1 in
            let s3 := insert_booking user_id slot_id now s2 in
            (option_map b_id (active_booking_of s3 user_id slot_id), s3)
      end
  end.

Definition set_status (st : status) (b : booking) : booking :=
  mkBooking (b_id b) (b_user_id b) (b_slot_id b) st (b_created_at b).

(** UPDATE bookings SET status = 'cancelled' WHERE id = ? *)
Definition cancel_rows (booking_id : Z) (bs : list booking) : list booking :=
  map (fun b => if b_id b =? booking_id then set_status cancelled b else b) bs.

Definition cancel_booking (booking_id : Z) (s : db)
  : option (string * string) * db :=
  match find (fun b => (b_id b =? booking_id) && is_active b) (bookings s) with
  | None => (None, s)
  | Some row =>
      let slot_id := b_slot_id row in
      let s1 := set_bookings s (cancel_rows booking_id (bookings s))
                             (bookings_seq s) in
      let s2 := update_slot_available slot_id 1 s1 in
      match slot_by_id s2 slot_id with
      | None => (None, s2)
      | Some slot_row => (Some (s_date slot_row, s_time slot_row), s2)
      end
  end.

(** INSERT OR REPLACE: [booking_id] is UNIQUE, so a row that carries it
    is deleted before the new row is inserted. *)
Definition save_reminder (booking_id run_at : Z) (job_id : string) (s : db) : db :=
  let id := reminders_seq s + 1 in
  set_reminders s
    (filter (fun r => negb (r_booking_id r =? booking_id)) (reminders s)
     ++ [mkReminder id booking_id run_at job_id])
    id.

Definition delete_reminder (booking_id : Z) (s : db) : option string * db :=
  match find (fun r => r_booking_id r =? booking_id) (reminders s) with
  | None => (None, s)
  | Some row =>
      (Some (r_job_id row),
       set_reminders s
         (filter (fun r => negb (r_booking_id r =? booking_id)) (reminders s))
         (reminders_seq s))
  end.

(** One row of get_all_reminders. *)
Record reminder_row : Type := mkRow {
  row_booking_id : Z;
  row_run_at : Z;
  row_status : status;
  row_tg_id : Z;
  row_date : string;
  row_time : string
}.

(** reminders r JOIN bookings b ON b.id = r.booking_id
    JOIN users u ON u.id = b.user_id JOIN slots s ON s.id = b.slot_id *)
Definition get_all_reminders (s : db) : list reminder_row :=
  flat_map (fun r =>
    flat_map (fun b =>
      flat_map (fun u =>
        flat_map (fun sl =>
          [mkRow (r_booking_id r) (r_run_at r) (b_status b) (u_tg_id u)
                 (s_date sl) (s_time sl)])
          (filter (fun sl => s_id sl =? b_slot_id b) (slots s)))
        (filter (fun u => u_id u =? b_user_id b) (users s)))
      (filter (fun b => b_id b =? r_booking_id r) (bookings s)))
    (reminders s).

Definition get_slot (slot_id : Z) (s : db) : option slot := slot_by_id s slot_id.

(** ** The job scheduler (APScheduler, in memory) *)

(** A one-shot "date" job; [send_reminder] is determined by the chat it
    writes to and the time it quotes. *)
Record job : Type := mkJob {
  job_id : string;
  job_run_date : Z;
  job_user_tg_id : Z;
  job_time_str : string
}.

(** add_job(..., id=job_id, replace_existing=True) *)
Definition add_job (j : job) (jobs : list job) : list job :=
  filter (fun k => negb (String.eqb (job_id k) (job_id j))) jobs ++ [j].

(** remove_job inside try/except: a missing job is ignored *)
Definition remove_job (id : string) (jobs : list job) : list job :=
  filter (fun k => negb (String.eqb (job_id k) id)) jobs.

(** What the handlers act on: the database file and the live jobs. *)
Record world : Type := mkWorld {
  w_db : db;
  w_jobs : list job
}.

(** ** Handlers ([handlers.py], [bot.py]) *)

(** f"reminder_{booking_id}" *)
Definition reminder_job_id (booking_id : Z) : string :=
  ("reminder_" ++ str booking_id)%string.

Definition schedule_reminder (booking_id user_tg_id : Z)
    (date_str time_str : string) (now : Z) (w : world) : result world :=
  match strptime_slot (date_str ++ " " ++ time_str)%string with
  | None => Raise ValueError
  | Some dt_slot =>
      match datetime_sub dt_slot hours24 with
      | Raise e => Raise e
      | Ok run_at =>
          if run_at <=? now then Ok w
          else
            let job_id := reminder_job_id booking_id in
            Ok (mkWorld
                  (save_reminder booking_id run_at job_id (w_db w))
                  (add_job (mkJob job_id run_at user_tg_id time_str) (w_jobs w)))
      end
  end.

(** What [confirm_booking] shows to the client. *)
Inductive confirm_reply : Type :=
| SlotNotChosen      (* alert: slot not found, start again *)
| BookingFailed      (* "could not create the booking: maybe you already
                        have an active booking or the slot has just been
                        taken" *)
| SlotGone           (* slot not found after booking *)
| BookingCreated (date_str time_str name phone : string).

(** [chosen_slot_id], [name], [phone] are the FSM data; [now_book] and
    [now_sched] are the clock readings of [book_slot] and of
    [schedule_reminder].  An exception leaves what was committed. *)
Definition confirm_booking (from_user : Z) (chosen_slot_id : option Z)
    (name phone : string) (now_book now_sched : Z) (w : world)
  : result confirm_reply * world :=
  match chosen_slot_id with
  | None => (Ok SlotNotChosen, w)
  | Some slot_id =>
      let d1 := update_user_info from_user name phone (w_db w) in
      let '(booking_id, d2) := book_slot from_user slot_id now_book d1 in
      match booking_id with
      | None => (Ok BookingFailed, mkWorld d2 (w_jobs w))
      | Some booking_id =>
          match get_slot slot_id d2 with
          | None => (Ok SlotGone, mkWorld d2 (w_jobs w))
          | Some slot =>
              match schedule_reminder booking_id from_user (s_date slot)
                      (s_time slot) now_sched (mkWorld d2 (w_jobs w)) with
              | Raise e => (Raise e, mkWorld d2 (w_jobs w))
              | Ok w' =>
                  (Ok (BookingCreated (s_date slot) (s_time slot) name phone), w')
              end
          end
      end
  end.

Inductive cancel_reply : Type :=
| NotFoundOrCancelled            (* "booking already cancelled or not found" *)
| CancelDone (date_str time_str : string).

(** [if job_id:] holds for a non-empty string *)
Definition drop_job (found : option string) (jobs : list job) : list job :=
  match found with
  | Some id => if String.eqb id EmptyString then jobs else remove_job id jobs
  | None => jobs
  end.

Definition user_cancel_booking (booking_id : Z) (w : world)
  : cancel_reply * world :=
  let '(found, d1) := delete_reminder booking_id (w_db w) in
  let jobs := drop_job found (w_jobs w) in
  let '(res, d2) := cancel_booking booking_id d1 in
  match res with
  | None => (NotFoundOrCancelled, mkWorld d2 jobs)
  | Some (date_str, time_str) => (CancelDone date_str time_str, mkWorld d2 jobs)
  end.

(** get_booking_info finds a row when the booking, its user and its slot
    exist, whatever the status. *)
Definition get_booking_info (booking_id : Z) (s : db) : bool :=
  existsb (fun b => (b_id b =? booking_id)
                    && existsb (fun u => u_id u =? b_user_id b) (users s)
                    && existsb (fun sl => s_id sl =? b_slot_id b) (slots s))
          (bookings s).

Definition admin_cancel_booking_do (booking_id : Z) (w : world)
  : cancel_reply * world :=
  if get_booking_info booking_id (w_db w)
  then user_cancel_booking booking_id w
  else (NotFoundOrCancelled, w).

(** message.text.replace(" ", EmptyString) *)
Fixpoint remove_blanks (s : string) : string :=
  match s with
  | EmptyString => EmptyString
  | String c rest =>
      if Ascii.eqb c " " then remove_blanks rest
      else String c (remove_blanks rest)
  end.

(** raw.split(",") with the field being read in [cur], reversed *)
Fixpoint split_commas_aux (s : string) (cur : string) : list string :=
  match s with
  | EmptyString => [cur]
  | String c rest =>
      if Ascii.eqb c ","
      then cur :: split_commas_aux rest EmptyString
      else split_commas_aux rest (cur ++ String c EmptyString)%string
  end.

Definition split_commas (s : string) : list string :=
  split_commas_aux s EmptyString.

(** [p for p in raw.split(",") if p] *)
Definition time_parts (text : string) : list string :=
  filter (fun p => negb (String.eqb p EmptyString))
         (split_commas (remove_blanks text)).

(** The loop of [admin_add_times]: the store and [created]. *)
Fixpoint add_times (dt : date) (parts : list string) (created : Z) (s : db)
  : Z * db :=
  match parts with
  | [] => (created, s)
  | p :: rest =>
      match strptime_HM p with
      | None => add_times dt rest created s                 (* continue *)
      | Some tm => add_times dt rest (created + 1) (create_slot dt tm s)
      end
  end.

Inductive admin_reply : Type :=
| NoRights                         (* "not enough rights" *)
| DayMissing                       (* "date not found, start again" *)
| SlotsCreated (created : Z) (dt : date)
| DayClosed (dt : date).

(** [admin_day] is the date whose [isoformat()] the FSM data holds and
    that [date.fromisoformat] reads back. *)
Definition admin_add_times (from_user admin_id : Z) (admin_day : option date)
    (text : string) (s : db) : admin_reply * db :=
  if negb (from_user =? admin_id) then (NoRights, s)
  else
    match admin_day with
    | None => (DayMissing, s)
    | Some dt =>
        let '(created, s') := add_times dt (time_parts text) 0 s in
        (SlotsCreated created dt, s')
    end.

(** [admin_close_day_finish] once the date has been parsed *)
Definition admin_close_day_finish (from_user admin_id : Z) (dt : date) (s : db)
  : admin_reply * db :=
  if negb (from_user =? admin_id) then (NoRights, s)
  else (DayClosed dt, close_day dt s).

(** The loop of [restore_reminders] over the rows read at its start.
    [now] is the reading taken before the loop, [now_of b] the one that
    [schedule_reminder] takes when it is called for booking [b]. *)
Fixpoint restore_loop (now : Z) (now_of : Z -> Z) (rows : list reminder_row)
    (w : world) : result unit * world :=
  match rows with
  | [] => (Ok tt, w)
  | r :: rest =>
      if negb (status_eqb (row_status r) active) || (row_run_at r <=? now)
      then
        restore_loop now now_of rest
          (mkWorld (snd (delete_reminder (row_booking_id r) (w_db w))) (w_jobs w))
      else
        match schedule_reminder (row_booking_id r) (row_tg_id r) (row_date r)
                (row_time r) (now_of (row_booking_id r)) w with
        | Raise e => (Raise e, w)
        | Ok w' => restore_loop now now_of rest w'
        end
  end.

Definition restore_reminders (now : Z) (now_of : Z -> Z) (w : world)
  : result unit * world :=
  restore_loop now now_of (get_all_reminders (w_db w)) w.

(** [main] up to polling: a new scheduler, then reconciliation. *)
Definition startup (now : Z) (now_of : Z -> Z) (s : db) : result unit * world :=
  restore_reminders now now_of (mkWorld s []).

(** ** Sequences of store operations *)

Inductive op : Type :=
| OpCreateSlot (d : date) (t : time)
| OpDeleteSlot (slot_id : Z)
| OpCloseDay (d : date)
| OpBookSlot (tg_id slot_id now : Z)
| OpCancelBooking (booking_id : Z)
| OpUpdateUserInfo (tg_id : Z) (name phone : string)
| OpSetLastMenu (tg_id message_id : Z)
| OpSaveReminder (booking_id run_at : Z) (job_id : string)
| OpDeleteReminder (booking_id : Z).

Definition apply_op (o : op) (s : db) : db :=
  match o with
  | OpCreateSlot d t => create_slot d t s
  | OpDeleteSlot slot_id => delete_slot slot_id s
  | OpCloseDay d => close_day d s
  | OpBookSlot tg_id slot_id now => snd (book_slot tg_id slot_id now s)
  | OpCancelBooking booking_id => snd (cancel_booking booking_id s)
  | OpUpdateUserInfo tg_id name phone => update_user_info tg_id name phone s
  | OpSetLastMenu tg_id message_id => set_last_menu_message_id tg_id message_id s
  | OpSaveReminder booking_id run_at job_id => save_reminder booking_id run_at job_id s
  | OpDeleteReminder booking_id => snd (delete_reminder booking_id s)
  end.

Definition run_from (s : db) (ops : list op) : db :=
  fold_left (fun acc o => apply_op o acc) ops s.

Definition run (ops : list op) : db := run_from init ops.

(** The states of the store reached from the new database by operations
    taken from [allowed]. *)
Inductive reachable_by (allowed : op -> bool) : db -> Prop :=
| reach_init : reachable_by allowed init
| reach_step s o :
    reachable_by allowed s -> allowed o = true ->
    reachable_by allowed (apply_op o s).

Definition any_op (o : op) : bool := true.

Definition reachable : db -> Prop := reachable_by any_op.

(** create_slot, close_day, book_slot and cancel_booking *)
Definition ledger_op (o : op) : bool :=
  match o with
  | OpCreateSlot _ _ | OpCloseDay _ | OpBookSlot _ _ _ | OpCancelBooking _ => true
  | _ => false
  end.

Definition not_close_day (o : op) : bool :=
  match o with
  | OpCloseDay _ => false
  | _ => true
  end.

(** The flag as the queries read it (is_available = 1). *)
Definition slot_available (sl : slot) : bool := s_is_available sl =? 1.

(** "some reservation with status active references this slot" *)
Definition has_active_booking (s : db) (slot_id : Z) : bool :=
  existsb (fun b => is_active b && (b_slot_id b =? slot_id)) (bookings s).

Definition flag_matches_bookings (s : db) : Prop :=
  forall sl, In sl (slots s) ->
    slot_available sl = negb (has_active_booking s (s_id sl)).

(** ** Interleaved [book_slot] calls

    [book_slot] gives up control at each [await].  A call is cut at the
    points where the store is read or written: the two checks (each a
    SELECT that has finished before the next statement starts),
    [get_or_create_user], the write transaction (UPDATE, INSERT and
    commit, which SQLite lets no other writer interrupt) and the final
    SELECT. *)

Inductive book_pc : Type :=
| AtCheckActive
| AtGetUser
| AtCheckSlot (user_id : Z)
| AtWrite (user_id : Z)
| AtSelectId (user_id : Z)
| Finished (res : option Z).

Definition book_step (tg_id slot_id now : Z) (pc : book_pc) (s : db)
  : book_pc * db :=
  match pc with
  | AtCheckActive =>
      match active_bookings_of_tg s tg_id with
      | _ :: _ => (Finished None, s)
      | [] => (AtGetUser, s)
      end
  | AtGetUser =>
      let '(user_id, s1) := get_or_create_user tg_id s in
      (AtCheckSlot user_id, s1)
  | AtCheckSlot user_id =>
      match slot_by_id s slot_id with
      | None => (Finished None, s)
      | Some slot_row =>
          if s_is_available slot_row =? 0 then (Finished None, s)
          else (AtWrite user_id, s)
      end
  | AtWrite user_id =>
      (AtSelectId user_id,
       insert_booking user_id slot_id now (update_slot_available slot_id 0 s))
  | AtSelectId user_id =>
      (Finished (option_map b_id (active_booking_of s user_id slot_id)), s)
  | Finished res => (Finished res, s)
  end.

(** A call in progress. *)
Record attempt : Type := mkAttempt {
  a_tg_id : Z;
  a_slot_id : Z;
  a_now : Z;
  a_pc : book_pc
}.

Definition start (tg_id slot_id now : Z) : attempt :=
  mkAttempt tg_id slot_id now AtCheckActive.

Definition outcome (a : attempt) : option (option Z) :=
  match a_pc a with
  | Finished res => Some res
  | _ => None
  end.

Definition succeeded (a : attempt) : bool :=
  match a_pc a with
  | Finished (Some _) => true
  | _ => false
  end.

Definition finished (a : attempt) : bool :=
  match a_pc a with
  | Finished _ => true
  | _ => false
  end.

(** Let call number [i] take its next step. *)
Fixpoint step_nth (i : nat) (calls : list attempt) (s : db)
  : list attempt * db :=
  match calls with
  | [] => ([], s)
  | a :: rest =>
      match i with
      | O =>
          let '(pc, s') := book_step (a_tg_id a) (a_slot_id a) (a_now a) (a_pc a) s in
          (mkAttempt (a_tg_id a) (a_slot_id a) (a_now a) pc :: rest, s')
      | S j =>
          let '(rest', s') := step_nth j rest s in
          (a :: rest', s')
      end
  end.

(** A schedule names, step by step, the call that runs next. *)
Fixpoint interleave (schedule : list nat) (calls : list attempt) (s : db)
  : list attempt * db :=
  match schedule with
  | [] => (calls, s)
  | i :: later =>
      let '(calls', s') := step_nth i calls s in
      interleave later calls' s'
  end.

(** Calls that run one after the other, each to its end. *)
Fixpoint sequential (calls : list (Z * Z * Z)) (s : db)
  : list (option Z) * db :=
  match calls with
  | [] => ([], s)
  | (tg_id, slot_id, now) :: rest =>
      let '(res, s1) := book_slot tg_id slot_id now s in
      let '(others, s2) := sequential rest s1 in
      (res :: others, s2)
  end.

Definition successes (results : list (option Z)) : nat :=
  List.length (filter (fun r => match r with Some _ => true | None => false end)
                 results).

(** ** Sequences of handler calls *)

Inductive event : Type :=
| EvConfirm (from_user : Z) (chosen_slot_id : option Z) (name phone : string)
            (now_book now_sched : Z)
| EvUserCancel (booking_id : Z)
| EvAdminCancel (booking_id : Z)
| EvAddTimes (from_user admin_id : Z) (admin_day : option date) (text : string)
| EvCloseDay (from_user admin_id : Z) (dt : date)
| EvRestart (now : Z) (now_of : Z -> Z).

Definition handle (e : event) (w : world) : world :=
  match e with
  | EvConfirm from_user chosen name phone now_book now_sched =>
      snd (confirm_booking from_user chosen name phone now_book now_sched w)
  | EvUserCancel booking_id => snd (user_cancel_booking booking_id w)
  | EvAdminCancel booking_id => snd (admin_cancel_booking_do booking_id w)
  | EvAddTimes from_user admin_id admin_day text =>
      mkWorld (snd (admin_add_times from_user admin_id admin_day text (w_db w)))
              (w_jobs w)
  | EvCloseDay from_user admin_id dt =>
      mkWorld (snd (admin_close_day_finish from_user admin_id dt (w_db w)))
              (w_jobs w)
  | EvRestart now now_of => snd (startup now now_of (w_db w))
  end.

Definition play_from (w : world) (events : list event) : world :=
  fold_left (fun acc e => handle e acc) events w.

Definition play (events : list event) : world :=
  play_from (mkWorld init []) events.

Inductive live : world -> Prop :=
| live_init : live (mkWorld init [])
| live_step w e : live w -> live (handle e w).

(** ** More of [database.py] *)

Definition get_last_menu_message_id (tg_id : Z) (s : db) : option Z :=
  match user_by_tg s tg_id with
  | None => None
  | Some row => u_last_menu_message_id row
  end.

(** [date.fromisoformat] on the form YYYY-MM-DD, the one that
    [isoformat] writes (later versions of Python read further forms);
    it takes the digits of ASCII only.  [None] is ValueError. *)
Definition iso_year : matcher Z :=
  bind (two 0 9 0 9) (fun hi =>
  bind (two 0 9 0 9) (fun lo => ret (100 * hi + lo))).

Definition regex_iso : matcher (Z * Z * Z) :=
  bind iso_year (fun y => bind (lit "-") (fun _ =>
  bind (two 0 9 0 9) (fun m => bind (lit "-") (fun _ =>
  bind (two 0 9 0 9) (fun d => ret (y, m, d)))))).

Definition fromisoformat (text : string) : option date :=
  match full_match regex_iso text with
  | Some (y, m, d) => if valid_date y m d then Some (mkDate y m d) else None
  | None => None
  end.

Definition toordinal (d : date) : Z := ymd2ord (year d) (month d) (day d).

(** [date.max.toordinal()] *)
Definition max_ordinal : Z := 3652059.

(** [d.weekday()]: Monday is 0 *)
Definition weekday (d : date) : Z := (toordinal d + 6) mod 7.

(** SELECT DISTINCT date FROM slots WHERE is_available = 1 ORDER BY date *)
Definition available_dates (s : db) : list string :=
  order_by (fun x => x)
    (distinct (map s_date (filter (fun sl => s_is_available sl =? 1) (slots s)))).

(** The loop of [get_available_days]; dates are compared through their
    ordinals, [today] and [limit] being those of [today] and of
    [today + timedelta(days=31)]. *)
Fixpoint days_loop (today limit : Z) (rows days : list string)
  : result (list string) :=
  match rows with
  | [] => Ok days
  | r :: rest =>
      match fromisoformat r with
      | None => Raise ValueError
      | Some d =>
          if (today <=? toordinal d) && (toordinal d <=? limit)
             && (weekday d <? 5)
          then days_loop today limit rest (days ++ [r])
          else days_loop today limit rest days
      end
  end.

(** [today] is [date.today()]; the sum overflows past [date.max]. *)
Definition get_available_days (today : date) (s : db) : result (list string) :=
  if max_ordinal <? toordinal today + 31 then Raise OverflowError
  else days_loop (toordinal today) (toordinal today + 31) (available_dates s) [].

(** One row of get_bookings_for_day. *)
Record day_row : Type := mkDayRow {
  dr_booking_id : Z;
  dr_time : string;
  dr_name : option string;
  dr_phone : option string;
  dr_tg_id : Z
}.

(** bookings b JOIN slots s ON s.id = b.slot_id JOIN users u
    ON u.id = b.user_id WHERE s.date = ? AND b.status = 'active'
    ORDER BY s.time *)
Definition get_bookings_for_day (d : date) (s : db) : list day_row :=
  order_by dr_time
    (flat_map (fun b =>
       flat_map (fun sl =>
         flat_map (fun u =>
           [mkDayRow (b_id b) (s_time sl) (u_name u) (u_phone u) (u_tg_id u)])
           (filter (fun u => u_id u =? b_user_id b) (users s)))
         (filter (fun sl => (s_id sl =? b_slot_id b)
                            && String.eqb (s_date sl) (isoformat d)) (slots s)))
       (filter is_active (bookings s))).

(** The table settings(key PRIMARY KEY, value), which the other tables
    do not refer to. *)
Definition settings : Type := list (string * string).

(** INSERT ... ON CONFLICT(key) DO UPDATE SET value = excluded.value *)
Definition set_setting (key value : string) (t : settings) : settings :=
  if existsb (fun kv => String.eqb (fst kv) key) t
  then map (fun kv => if String.eqb (fst kv) key then (key, value) else kv) t
  else t ++ [(key, value)].

Definition get_setting (key : string) (t : settings) : option string :=
  match find (fun kv => String.eqb (fst kv) key) t with
  | Some row => Some (snd row)
  | None => None
  end.

(** ** Keyboards ([keyboards.py]) *)

Record button : Type := mkButton {
  btn_text : string;
  btn_callback_data : string
}.

(** The loop that both keyboards share: [row] is closed when it holds
    [width] buttons. *)
Fixpoint fill_rows (width : nat) (items : list button)
    (buttons : list (list button)) (row : list button)
  : list (list button) * list button :=
  match items with
  | [] => (buttons, row)
  | b :: rest =>
      let row := row ++ [b] in
      if Nat.eqb (List.length row) width
      then fill_rows width rest (buttons ++ [row]) []
      else fill_rows width rest buttons row
  end.

(** [if row: buttons.append(row)], then the row of the back button *)
Definition close_rows (filled : list (list button) * list button)
    (back : button) : list (list button) :=
  let '(buttons, row) := filled in
  match row with
  | [] => buttons ++ [[back]]
  | _ :: _ => (buttons ++ [row]) ++ [[back]]
  end.

(** The text of the back button, as the bytes of its UTF-8 form. *)
Definition back_label : string := "🔙 Назад".

Definition time_button (t : Z * string) : button :=
  mkButton (snd t) ("book_time:" ++ str (fst t))%string.

Definition booking_times_keyboard (date_str : string)
    (times : list (Z * string)) : list (list button) :=
  close_rows (fill_rows 3 (map time_button times) [] [])
             (mkButton back_label "back_to_days").

(** [d.strftime("%d.%m")] *)
Definition strftime_dm (d : date) : string :=
  (pad2 (day d) ++ "." ++ pad2 (month d))%string.

(** The buttons of the days, or ValueError from [date.fromisoformat]. *)
Fixpoint day_buttons (available_days : list string) : result (list button) :=
  match available_days with
  | [] => Ok []
  | day_str :: rest =>
      match fromisoformat day_str with
      | None => Raise ValueError
      | Some d =>
          match day_buttons rest with
          | Raise e => Raise e
          | Ok bs =>
              Ok (mkButton (strftime_dm d) ("book_day:" ++ day_str)%string :: bs)
          end
      end
  end.

Definition booking_days_keyboard (available_days : list string)
  : result (list (list button)) :=
  match day_buttons available_days with
  | Raise e => Raise e
  | Ok bs => Ok (close_rows (fill_rows 4 bs [] [])
                            (mkButton back_label "back_to_menu"))
  end.

(** ** More of [handlers.py] *)

(** [data.split(":", maxsplit=1)], the field being read in [cur] *)
Fixpoint split_once_aux (s cur : string) : list string :=
  match s with
  | EmptyString => [cur]
  | String c rest =>
      if Ascii.eqb c ":" then [cur; rest]
      else split_once_aux rest (cur ++ String c EmptyString)%string
  end.

Definition split_once (s : string) : list string :=
  split_once_aux s EmptyString.

Inductive choose_day_reply : Type :=
| NoFreeTime                      (* alert: no free time on this day *)
| ChooseTime (date_str : string) (keyboard : list (list button)).

(** [choose_day]: the day is read from the callback data of the button;
    the tuple assignment raises ValueError without a colon. *)
Definition choose_day (data : string) (s : db) : result choose_day_reply :=
  match split_once data with
  | [_; date_str] =>
      match fromisoformat date_str with
      | None => Raise ValueError
      | Some chosen_date =>
          let times_rows := get_available_times chosen_date s in
          match times_rows with
          | [] => Ok NoFreeTime
          | _ :: _ =>
              Ok (ChooseTime date_str
                    (booking_times_keyboard date_str
                       (map (fun row => (s_id row, s_time row)) times_rows)))
          end
      end
  | _ => Raise ValueError
  end.

(** The characters of a text, each with the bytes that spell it; a
    text of [n] bytes has at most [n] characters, which bounds the
    recursion. *)
Fixpoint chars_upto (n : nat) (s : string) : list (Z * string) :=
  match n with
  | O => []
  | S k =>
      match head_char s with
      | Some (c, bytes, rest) => (c, bytes) :: chars_upto k rest
      | None => []
      end
  end.

Definition chars (s : string) : list (Z * string) :=
  chars_upto (String.length s) s.

Definition text_of (cs : list (Z * string)) : string :=
  fold_right (fun cb acc => (snd cb ++ acc)%string) EmptyString cs.

Fixpoint drop_spaces (cs : list (Z * string)) : list (Z * string) :=
  match cs with
  | (c, bytes) :: rest => if is_space c then drop_spaces rest else cs
  | [] => []
  end.

(** [s.strip()]: the white space before the first character that is
    none, and after the last one, is taken away. *)
Definition strip (s : string) : string :=
  text_of (rev (drop_spaces (rev (drop_spaces (chars s))))).

(** [datetime.strptime(text, "%d.%m.%Y").date()]; [None] is ValueError. *)
Definition regex_dmY : matcher (Z * Z * Z) :=
  bind dir_d (fun d => bind (lit ".") (fun _ =>
  bind dir_m (fun m => bind (lit ".") (fun _ =>
  bind dir_Y (fun y => ret (y, m, d)))))).

Definition strptime_dmY (text : string) : option date :=
  match full_match regex_dmY text with
  | Some (y, m, d) => if valid_date y m d then Some (mkDate y m d) else None
  | None => None
  end.

Inductive add_day_reply : Type :=
| DayNoRights                     (* "not enough rights" *)
| DayBadFormat                    (* "wrong date format" *)
| DayAccepted (admin_day : string).

(** [admin_add_day_date]: the FSM data receives [dt.isoformat()]. *)
Definition admin_add_day_date (from_user admin_id : Z) (text : string)
  : add_day_reply :=
  if negb (from_user =? admin_id) then DayNoRights
  else
    match strptime_dmY (strip text) with
    | None => DayBadFormat
    | Some dt => DayAccepted (isoformat dt)
    end.

(** ** [config.py] *)

(** [_required_env]: [env] is the process environment; [None] is the
    RuntimeError for a variable that is not set or blank. *)
Definition _required_env (name : string) (env : string -> option string)
  : option string :=
  let value := strip (match env name with
                      | Some v => v
                      | None => EmptyString
                      end) in
  if String.eqb value EmptyString then None else Some value.

(** ** Predicates of the properties *)

(** ** Consistency of the store *)

Record wf (s : db) : Prop := mkWf {
  wf_users_le : forall u, In u (users s) -> u_id u <= users_seq s;
  wf_users_id : NoDup (map u_id (users s));
  wf_users_tg : NoDup (map u_tg_id (users s));
  wf_slots_le : forall sl, In sl (slots s) -> s_id sl <= slots_seq s;
  wf_slots_id : NoDup (map s_id (slots s));
  wf_slots_flag : forall sl, In sl (slots s) ->
      s_is_available sl = 0 \/ s_is_available sl = 1;
  wf_bookings_le : forall b, In b (bookings s) -> b_id b <= bookings_seq s;
  wf_bookings_id : NoDup (map b_id (bookings s));
  wf_bookings_user : forall b, In b (bookings s) ->
      In (b_user_id b) (map u_id (users s));
  wf_bookings_slot : forall b, In b (bookings s) -> b_slot_id b <= slots_seq s;
  wf_active_slot : NoDup (map b_slot_id (filter is_active (bookings s)));
  wf_active_user : NoDup (map b_user_id (filter is_active (bookings s)));
  wf_active_flag : forall sl, In sl (slots s) ->
      has_active_booking s (s_id sl) = true -> s_is_available sl = 0;
  wf_reminders_key : NoDup (map r_booking_id (reminders s))
}.

(** Without close_day a flag is 0 only under an active booking. *)
Definition taken_only_if_booked (s : db) : Prop :=
  forall sl, In sl (slots s) -> s_is_available sl = 0 ->
    has_active_booking s (s_id sl) = true.

(** The number of active reservations that reference a slot. *)
Definition active_on_slot (s : db) (slot_id : Z) : list booking :=
  filter (fun b => is_active b && (b_slot_id b =? slot_id)) (bookings s).

Definition d0 : date := mkDate 2025 6 10.
Definition t0 : time := mkTime 14 0.

(** A slot that is missing or has flag 0. *)
Definition unavailable (s : db) (slot_id : Z) : Prop :=
  match slot_by_id s slot_id with
  | Some sl => s_is_available sl = 0
  | None => True
  end.

Definition t1 : time := mkTime 15 0.

Definition call_tg (c : Z * Z * Z) : Z := fst (fst c).
Definition call_slot (c : Z * Z * Z) : Z := snd (fst c).

(** Both calls pass their checks before either writes. *)
Definition checks_first : list nat := [0; 0; 0; 1; 1; 1; 0; 0; 1; 1]%nat.

(** The first call makes its check for an active reservation, the
    second call then runs from its start to its end, and the first call
    goes on. *)
Definition overtaken : list nat := [0; 1; 1; 1; 1; 1; 0; 0; 0; 0]%nat.

Definition parses (p : string) : bool :=
  match strptime_HM p with
  | Some _ => true
  | None => false
  end.

Fixpoint parsed_times (parts : list string) : list time :=
  match parts with
  | [] => []
  | p :: rest =>
      match strptime_HM p with
      | Some tm => tm :: parsed_times rest
      | None => parsed_times rest
      end
  end.

(** The rows that [create_slot] adds for the times [ts] when the
    counter stands at [seq]. *)
Fixpoint new_slots (seq : Z) (dt : date) (ts : list time) : list slot :=
  match ts with
  | [] => []
  | tm :: rest =>
      mkSlot (seq + 1) (isoformat dt) (strftime_HM tm) 1
        :: new_slots (seq + 1) dt rest
  end.

Definition reminders_for (s : db) (booking_id : Z) : list reminder :=
  filter (fun r => r_booking_id r =? booking_id) (reminders s).

Definition jobs_for (jobs : list job) (booking_id : Z) : list job :=
  filter (fun j => String.eqb (job_id j) (reminder_job_id booking_id)) jobs.

(** The slot datetime that [schedule_reminder] reads from a row. *)
Definition slot_datetime (date_str time_str : string) : option Z :=
  strptime_slot (date_str ++ " " ++ time_str)%string.

(** A reminder row as [schedule_reminder] writes it: the fire time is
    the datetime of the slot less 24 hours. *)
Definition row_ok (r : reminder_row) : Prop :=
  exists T, slot_datetime (row_date r) (row_time r) = Some T /\
            hours24 <= T /\ row_run_at r = T - hours24.

(** The store is consistent and every reminder whose reservation exists
    points, through it, to a client and to a slot, with the fire time
    that [schedule_reminder] computes for that slot. *)
Record coherent (s : db) : Prop := mkCoherent {
  coh_wf : wf s;
  coh_parent : forall r b,
      In r (reminders s) -> In b (bookings s) -> b_id b = r_booking_id r ->
      exists u sl T,
        In u (users s) /\ u_id u = b_user_id b /\
        In sl (slots s) /\ s_id sl = b_slot_id b /\
        slot_datetime (s_date sl) (s_time sl) = Some T /\
        hours24 <= T /\ r_run_at r = T - hours24
}.

(** [s'] comes after [s]: rows of users, slots and bookings stay (with
    their keys, and slots with their date and time), new bookings take
    new ids, and no reminder appears. *)
Record extends (s s' : db) : Prop := mkExtends {
  ext_users : forall u, In u (users s) ->
      exists u', In u' (users s') /\ u_id u' = u_id u;
  ext_slots : forall sl, In sl (slots s) ->
      exists sl', In sl' (slots s') /\ s_id sl' = s_id sl /\
                  s_date sl' = s_date sl /\ s_time sl' = s_time sl;
  ext_bookings : forall b', In b' (bookings s') ->
      (exists b, In b (bookings s) /\ b_id b = b_id b' /\
                 b_user_id b = b_user_id b' /\ b_slot_id b = b_slot_id b') \/
      bookings_seq s < b_id b';
  ext_seq : bookings_seq s <= bookings_seq s';
  ext_reminders : forall r, In r (reminders s') -> In r (reminders s)
}.

Record settled (s : db) : Prop := mkSettled {
  set_coherent : coherent s;
  set_bound : forall r, In r (reminders s) -> r_booking_id r <= bookings_seq s
}.

Definition demo_events : list event :=
  [ EvAddTimes 7 7 (Some (mkDate 2025 6 10)) "14:00, 16:30";
    EvConfirm 100 (Some 1) "Ann" "555"
              (datetime_of 2025 6 1 9 0) (datetime_of 2025 6 1 9 0);
    EvConfirm 200 (Some 2) "Bob" "777"
              (datetime_of 2025 6 1 9 5) (datetime_of 2025 6 1 9 5) ].

(** ** Predicates of the further properties *)

(** The order of TEXT values, and lists in the order of their key. *)
Definition text_le (a b : string) : Prop := String.leb a b = true.

Definition sorted_by {A} (key : A -> string) (l : list A) : Prop :=
  StronglySorted (fun x y => text_le (key x) (key y)) l.

(** White space and nothing else. *)
Definition all_space (cs : list (Z * string)) : bool :=
  forallb (fun cb => is_space (fst cb)) cs.

(** The first character is no white space. *)
Definition starts_solid (cs : list (Z * string)) : bool :=
  match cs with
  | (c, _) :: _ => negb (is_space c)
  | [] => false
  end.

Fixpoint has_char (c : ascii) (s : string) : bool :=
  match s with
  | EmptyString => false
  | String c' rest => Ascii.eqb c c' || has_char c rest
  end.

(** The rows of a keyboard: full rows of [width] buttons, then at most
    one shorter row, then the row of the back button. *)
Definition keyboard_shape (width : nat) (back : button)
    (rows : list (list button)) : Prop :=
  exists full rest,
    rows = full ++ rest ++ [[back]] /\
    Forall (fun r => List.length r = width) full /\
    (rest = [] \/
     exists r, rest = [r] /\ (0 < List.length r < width)%nat).

Definition valid (d : date) : bool := valid_date (year d) (month d) (day d).

Definition time_of_day (t : time) : bool :=
  (0 <=? hour t) && (hour t <=? 23) && (0 <=? minute t) && (minute t <=? 59).

(** The text DD.MM.YYYY that the administrator is asked for. *)
Definition format_dmY (d : date) : string :=
  (pad2 (day d) ++ "." ++ pad2 (month d) ++ "." ++ pad4 (year d))%string.

(** Every slot carries the [isoformat] of a calendar date. *)
Definition slot_dates_valid (s : db) : Prop :=
  forall sl, In sl (slots s) ->
    exists d, valid d = true /\ s_date sl = isoformat d.

(** [create_slot] is given a [date] and a [time] of Python: a calendar
    date and a time of day. *)
Definition typed_op (o : op) : bool :=
  match o with
  | OpCreateSlot d t => valid d && time_of_day t
  | _ => true
  end.

(** U+00A0, the no-break space, and U+3000, the ideographic space, by
    their bytes. *)
Definition nbsp : string := String "194" (String "160" EmptyString).

Definition wide_space : string :=
  String "227" (String "128" (String "128" EmptyString)).

(** A Monday; [d0] is the Tuesday after it. *)
Definition monday : date := mkDate 2025 6 9.

(** The test of the loop of [get_available_days] on one row. *)
Definition in_window (today limit : Z) (day_str : string) : bool :=
  match fromisoformat day_str with
  | Some d => (today <=? toordinal d) && (toordinal d <=? limit)
              && (weekday d <? 5)
  | None => false
  end.

(** Minutes since midnight. *)
Definition minute_of_day (t : time) : Z := 60 * hour t + minute t.

(** Every job in the scheduler belongs to a stored reminder of an active
    reservation, under the id that [schedule_reminder] gives it. *)
Record jobs_ok (w : world) : Prop := mkJobsOk {
  jobs_keys : NoDup (map job_id (w_jobs w));
  jobs_records : forall r, In r (reminders (w_db w)) ->
      r_job_id r = reminder_job_id (r_booking_id r);
  jobs_owner : forall j, In j (w_jobs w) ->
      exists r b,
        In r (reminders (w_db w)) /\ In b (bookings (w_db w)) /\
        b_id b = r_booking_id r /\ is_active b = true /\
        job_id j = reminder_job_id (r_booking_id r) /\
        job_run_date j = r_run_at r
}.

(** * Properties *)

(** ** Text forms *)

Example strptime_HM_1000 : strptime_HM "10:00" = Some (mkTime 10 0).
Proof. reflexivity. Qed.

Example strptime_HM_bad : strptime_HM "bad" = None.
Proof. reflexivity. Qed.

Example strptime_HM_short : strptime_HM "7:5" = Some (mkTime 7 5).
Proof. reflexivity. Qed.

Example strptime_HM_2400 : strptime_HM "24:00" = None.
Proof. reflexivity. Qed.

Example strptime_HM_1060 : strptime_HM "10:60" = None.
Proof. reflexivity. Qed.

(** [\d] takes the decimal digits of every script (here U+0660 to
    U+0669 and U+1D7CE to U+1D7D7); the classes [0-1], 2[0-3] and
    [0-5] take those of ASCII. *)
Example strptime_HM_other_digits :
  strptime_HM "٥:٥" = Some (mkTime 5 5) /\
  strptime_HM "1٥:3٠" = Some (mkTime 15 30) /\
  strptime_HM "𝟗:𝟓" = Some (mkTime 9 5).
Proof. repeat split; reflexivity. Qed.

Example strptime_HM_ascii_classes :
  strptime_HM "٢٠:٠٠" = None /\ strptime_HM "2٣:00" = None /\
  strptime_HM "10:٦٠" = None.
Proof. repeat split; reflexivity. Qed.

Example isoformat_ex : isoformat (mkDate 2025 6 11) = "2025-06-11".
Proof. reflexivity. Qed.

Example str_ex : str 42 = "42" /\ str 0 = "0" /\ str (-7) = "-7".
Proof. repeat split; reflexivity. Qed.

Example strptime_slot_ex :
  strptime_slot "2025-06-10 14:00" = Some (datetime_of 2025 6 10 14 0).
Proof. reflexivity. Qed.

(** A blank of the format takes any run of white space, here U+3000
    and a space. *)
Example strptime_slot_white_space :
  strptime_slot ("2025-06-10" ++ wide_space ++ " 14:00")%string
  = Some (datetime_of 2025 6 10 14 0) /\
  strptime_slot "2025-06-1014:00" = None.
Proof. split; reflexivity. Qed.

Example ymd2ord_ex : ymd2ord 2025 6 10 = 739412 /\ ymd2ord 1 1 1 = 1.
Proof. split; reflexivity. Qed.

Lemma str_inj a b : str a = str b -> a = b.
Proof.
  unfold str. intros H. apply DecimalZ.to_int_inj.
  apply (f_equal NilEmpty.int_of_string) in H.
  rewrite !NilEmpty.isi in H. now inversion H.
Qed.

Lemma reminder_job_id_inj a b : reminder_job_id a = reminder_job_id b -> a = b.
Proof.
  unfold reminder_job_id. simpl. intros H. inversion H. now apply str_inj.
Qed.

(** ** Characters *)

Lemma continuation_some (s : string) (x : Z) (c : ascii) (rest : string) :
  continuation s = Some (x, c, rest) -> s = String c rest.
Proof.
  destruct s as [|c' r]; [discriminate|]. cbn [continuation].
  destruct (_ && _); [|discriminate]. now intros [= _ <- <-].
Qed.

(** The bytes of the first character and the text after it make up the
    text, and the character has at least one byte. *)
Lemma head_char_bytes (s : string) (c : Z) (b rest : string) :
  head_char s = Some (c, b, rest) ->
  s = (b ++ rest)%string /\ b <> EmptyString /\
  (String.length rest < String.length s)%nat.
Proof.
  destruct s as [|c0 r0]; [discriminate|]. cbn [head_char]. cbv zeta.
  assert (Hone : forall cp, Some (cp, String c0 EmptyString, r0)
                            = Some (c, b, rest) ->
                 String c0 r0 = (b ++ rest)%string /\ b <> EmptyString /\
                 (String.length rest < String.length (String c0 r0))%nat).
  { intros cp [= _ <- <-]. cbn. repeat split; [discriminate|lia]. }
  destruct (code c0 <? 128); [apply Hone|].
  destruct (continuation r0) as [[[x1 c1] r1]|] eqn:E1; [|apply Hone].
  apply continuation_some in E1. subst r0.
  destruct (code c0 <? 224).
  { destruct (128 <=? _); [|apply Hone].
    intros [= _ <- <-]. cbn. repeat split; [discriminate|lia]. }
  destruct (continuation r1) as [[[x2 c2] r2]|] eqn:E2; [|apply Hone].
  apply continuation_some in E2. subst r1.
  destruct (code c0 <? 240).
  { destruct (_ && _); [|apply Hone].
    intros [= _ <- <-]. cbn. repeat split; [discriminate|lia]. }
  destruct (continuation r2) as [[[x3 c3] r3]|] eqn:E3; [|apply Hone].
  apply continuation_some in E3. subst r2.
  destruct (_ && _); [|apply Hone].
  intros [= _ <- <-]. cbn. repeat split; [discriminate|lia].
Qed.

(** The bound of [chars_upto] is never reached. *)
Lemma chars_upto_more (n : nat) :
  forall m s, (String.length s <= n)%nat -> (String.length s <= m)%nat ->
              chars_upto n s = chars_upto m s.
Proof.
  induction n as [|n IH]; intros m s Hn Hm.
  - destruct s; [|cbn in Hn; lia]. now destruct m.
  - destruct m as [|m].
    + destruct s; [reflexivity|cbn in Hm; lia].
    + cbn [chars_upto].
      destruct (head_char s) as [[[c b] rest]|] eqn:E; [|reflexivity].
      apply head_char_bytes in E. destruct E as (_ & _ & Hlt).
      f_equal. apply IH; lia.
Qed.

Lemma chars_step (s : string) :
  chars s = match head_char s with
            | Some (c, b, rest) => (c, b) :: chars rest
            | None => []
            end.
Proof.
  unfold chars. destruct s as [|c0 r0]; [reflexivity|].
  cbn [String.length chars_upto].
  destruct (head_char (String c0 r0)) as [[[c b] rest]|] eqn:E; [|reflexivity].
  apply head_char_bytes in E. destruct E as (_ & _ & Hlt). cbn in Hlt.
  f_equal. apply chars_upto_more; lia.
Qed.

(** The bound of [spaces_star_upto] is never reached. *)
Lemma spaces_star_upto_more (n : nat) :
  forall m s, (String.length s <= n)%nat -> (String.length s <= m)%nat ->
              spaces_star_upto n s = spaces_star_upto m s.
Proof.
  induction n as [|n IH]; intros m s Hn Hm.
  - destruct s; [|cbn in Hn; lia]. now destruct m.
  - destruct m as [|m].
    + destruct s; [reflexivity|cbn in Hm; lia].
    + cbn [spaces_star_upto].
      destruct (head_char s) as [[[c b] rest]|] eqn:E; [|reflexivity].
      apply head_char_bytes in E. destruct E as (_ & _ & Hlt).
      destruct (is_space c); [|reflexivity].
      f_equal. apply IH; lia.
Qed.

Lemma spaces_star_step (s : string) :
  spaces_star s = match head_char s with
                  | Some (c, _, rest) =>
                      if is_space c then spaces_star rest ++ [s] else [s]
                  | None => [s]
                  end.
Proof.
  unfold spaces_star. destruct s as [|c0 r0]; [reflexivity|].
  cbn [String.length spaces_star_upto].
  destruct (head_char (String c0 r0)) as [[[c b] rest]|] eqn:E; [|reflexivity].
  apply head_char_bytes in E. destruct E as (_ & _ & Hlt). cbn in Hlt.
  destruct (is_space c); [|reflexivity].
  f_equal. apply spaces_star_upto_more; lia.
Qed.

(** ** Text written by the store is read back *)

Lemma bind_single {A B} (m : matcher A) (k : A -> matcher B) s a r :
  m s = [(a, r)] -> bind m k s = k a r.
Proof. intros H. unfold bind. rewrite H. simpl. apply app_nil_r. Qed.

Lemma digit_in_09 v r : digit_in 0 9 (String (digit v) r) = [(v mod 10, r)].
Proof.
  unfold digit. pose proof (Z.mod_pos_bound v 10 ltac:(lia)) as Hk.
  set (k := v mod 10) in *.
  assert (E : k = 0 \/ k = 1 \/ k = 2 \/ k = 3 \/ k = 4 \/ k = 5 \/ k = 6 \/
              k = 7 \/ k = 8 \/ k = 9) by lia.
  repeat (destruct E as [E|E]; [rewrite E; reflexivity|]).
  rewrite E. reflexivity.
Qed.

Lemma two_09 a b r :
  two 0 9 0 9 (String (digit a) (String (digit b) r))
  = [(10 * (a mod 10) + b mod 10, r)].
Proof.
  unfold two. rewrite (bind_single _ _ _ _ _ (digit_in_09 a _)).
  rewrite (bind_single _ _ _ _ _ (digit_in_09 b _)). reflexivity.
Qed.

Lemma iso_year_pad4 y r :
  0 <= y <= 9999 ->
  iso_year (String (digit (y / 1000)) (String (digit (y / 100))
              (String (digit (y / 10)) (String (digit y) r))))
  = [(y, r)].
Proof.
  intros Hy. unfold iso_year.
  rewrite (bind_single _ _ _ _ _ (two_09 _ _ _)).
  rewrite (bind_single _ _ _ _ _ (two_09 _ _ _)).
  unfold ret. repeat f_equal.
  Z.div_mod_to_equations. lia.
Qed.

Lemma any_digit_digit v r : any_digit (String (digit v) r) = [(v mod 10, r)].
Proof.
  unfold digit. pose proof (Z.mod_pos_bound v 10 ltac:(lia)) as Hk.
  set (k := v mod 10) in *.
  assert (E : k = 0 \/ k = 1 \/ k = 2 \/ k = 3 \/ k = 4 \/ k = 5 \/ k = 6 \/
              k = 7 \/ k = 8 \/ k = 9) by lia.
  repeat (destruct E as [E|E]; [rewrite E; reflexivity|]).
  rewrite E. reflexivity.
Qed.

Lemma digit_digit_pad a b r :
  digit_digit (String (digit a) (String (digit b) r))
  = [(10 * (a mod 10) + b mod 10, r)].
Proof.
  unfold digit_digit. rewrite (bind_single _ _ _ _ _ (any_digit_digit a _)).
  rewrite (bind_single _ _ _ _ _ (any_digit_digit b _)). reflexivity.
Qed.

Lemma dir_Y_pad4 y r :
  0 <= y <= 9999 ->
  dir_Y (String (digit (y / 1000)) (String (digit (y / 100))
           (String (digit (y / 10)) (String (digit y) r))))
  = [(y, r)].
Proof.
  intros Hy. unfold dir_Y.
  rewrite (bind_single _ _ _ _ _ (digit_digit_pad _ _ _)).
  rewrite (bind_single _ _ _ _ _ (digit_digit_pad _ _ _)).
  unfold ret. repeat f_equal.
  Z.div_mod_to_equations. lia.
Qed.

(** Case analysis on an integer of a small range. *)
Lemma Z_range_cases (P : Z -> Prop) (lo hi : Z) :
  (forall n : nat, (n <= Z.to_nat (hi - lo))%nat -> P (lo + Z.of_nat n)) ->
  forall v, lo <= v <= hi -> P v.
Proof.
  intros H v Hv. replace v with (lo + Z.of_nat (Z.to_nat (v - lo))) by lia.
  apply H. lia.
Qed.

Ltac run_matcher :=
  cbv;
  try match goal with |- _ = _ :> list ?T => fold (@app T) end;
  rewrite ?app_nil_r; reflexivity.

Tactic Notation "small_cases" integer(n) "by" tactic(tac) :=
  let k := fresh "k" in let Hk := fresh "Hk" in
  intros k Hk; do n (destruct k as [|k]; [tac|]); exfalso; simpl in Hk; lia.

Lemma dir_m_pad2 {B} (k : Z -> matcher B) r m :
  1 <= m <= 12 ->
  bind dir_m (fun v => bind (lit "-") (fun _ => k v))
       (String (digit (m / 10)) (String (digit m) (String "-" r)))
  = k m r.
Proof.
  revert m. apply Z_range_cases. small_cases 12 by run_matcher.
Qed.

Lemma dir_H_pad2 {B} (k : Z -> matcher B) r h :
  0 <= h <= 23 ->
  bind dir_H (fun v => bind (lit ":") (fun _ => k v))
       (String (digit (h / 10)) (String (digit h) (String ":" r)))
  = k h r.
Proof.
  revert h. apply Z_range_cases. small_cases 24 by run_matcher.
Qed.

Lemma dir_d_H_pad2 {B} (k : Z -> Z -> matcher B) r d h :
  1 <= d <= 31 -> 0 <= h <= 23 ->
  bind dir_d (fun v => bind spaces_plus (fun _ =>
    bind dir_H (fun u => bind (lit ":") (fun _ => k v u))))
       (String (digit (d / 10)) (String (digit d) (String " "
          (String (digit (h / 10)) (String (digit h) (String ":" r))))))
  = k d h r.
Proof.
  intros Hd. revert h. revert d Hd.
  apply (Z_range_cases (fun d => forall h, 0 <= h <= 23 -> _ = k d h r)).
  small_cases 31 by (apply Z_range_cases; small_cases 24 by run_matcher).
Qed.

Lemma dir_M_pad2 {B} (f : Z -> B) mi :
  0 <= mi <= 59 ->
  hd_error (bind dir_M (fun v => ret (f v))
                 (String (digit (mi / 10)) (String (digit mi) EmptyString)))
  = Some (f mi, EmptyString).
Proof.
  revert mi. apply Z_range_cases. small_cases 60 by (cbv; reflexivity).
Qed.

Lemma lit_same c r : lit c (String c r) = [(tt, r)].
Proof. unfold lit. now rewrite Ascii.eqb_refl. Qed.

Lemma full_match_hd {A} (m : matcher A) s a :
  hd_error (m s) = Some (a, EmptyString) -> full_match m s = Some a.
Proof.
  unfold full_match. destruct (m s) as [|[x r] l]; simpl; [discriminate|].
  intros H. inversion H. reflexivity.
Qed.

(** The text that [create_slot] stores reads back as the datetime of
    the slot. *)
Lemma slot_text_reads_back d t :
  valid_date (year d) (month d) (day d) = true ->
  0 <= hour t <= 23 -> 0 <= minute t <= 59 ->
  slot_datetime (isoformat d) (strftime_HM t) =
  Some (datetime_of (year d) (month d) (day d) (hour t) (minute t)).
Proof.
  intros Hv Hh Hmi.
  assert (Hr : 1 <= year d <= 9999 /\ 1 <= month d <= 12 /\ 1 <= day d <= 31).
  { unfold valid_date in Hv. rewrite !andb_true_iff, !Z.leb_le in Hv.
    assert (days_in_month (year d) (month d) <= 31).
    { unfold days_in_month.
      destruct (month d =? 2); [destruct (is_leap _); lia|].
      destruct (_ || _); lia. }
    lia. }
  destruct Hr as [Hy [Hm Hd]].
  unfold slot_datetime, strptime_slot.
  rewrite (full_match_hd _ _ (year d, month d, day d, hour t, minute t)).
  - now rewrite Hv.
  - unfold regex_slot, isoformat, strftime_HM, pad4, pad2. cbn [append].
    rewrite (bind_single _ _ _ _ _ (dir_Y_pad4 (year d) _ ltac:(lia))).
    rewrite (bind_single _ _ _ _ _ (lit_same "-" _)).
    rewrite dir_m_pad2 by lia.
    rewrite dir_d_H_pad2 by lia.
    now apply dir_M_pad2.
Qed.

Lemma strptime_HM_reads_back t :
  0 <= hour t <= 23 -> 0 <= minute t <= 59 ->
  strptime_HM (strftime_HM t) = Some t.
Proof.
  intros Hh Hmi. unfold strptime_HM.
  rewrite (full_match_hd _ _ (hour t, minute t)).
  - destruct t; reflexivity.
  - unfold regex_HM, strftime_HM, pad2. cbn [append].
    rewrite dir_H_pad2 by lia. now apply dir_M_pad2.
Qed.

Lemma digit_in_range lo hi s v r :
  In (v, r) (digit_in lo hi s) -> lo <= v <= hi.
Proof.
  unfold digit_in. destruct s as [|c rest]; simpl; [tauto|].
  destruct (is_digit c && (lo <=? digit_val c) && (digit_val c <=? hi)) eqn:E;
    simpl; [|tauto].
  intros [H|[]]. inversion H; subst.
  rewrite !andb_true_iff, !Z.leb_le in E. lia.
Qed.

Lemma ret_in {A} (x v : A) s r : In (v, r) (ret x s) -> v = x.
Proof. unfold ret. intros [H|[]]. now inversion H. Qed.

Lemma two_range lo1 hi1 lo2 hi2 s v r :
  In (v, r) (two lo1 hi1 lo2 hi2 s) ->
  10 * lo1 + lo2 <= v <= 10 * hi1 + hi2.
Proof.
  unfold two, bind. intros H.
  apply in_flat_map in H. destruct H as [[a ra] [Ha H]].
  apply in_flat_map in H. destruct H as [[b rb] [Hb H]].
  apply ret_in in H. subst v.
  apply digit_in_range in Ha, Hb. lia.
Qed.

Lemma decimal_range c v : decimal c = Some v -> 0 <= v <= 9.
Proof.
  unfold decimal.
  destruct (find _ decimal_zeros) as [z|] eqn:E; [|discriminate].
  intros [= <-]. apply find_some in E. destruct E as [_ E].
  rewrite andb_true_iff, !Z.leb_le in E. lia.
Qed.

Lemma any_digit_range s v r : In (v, r) (any_digit s) -> 0 <= v <= 9.
Proof.
  unfold any_digit. destruct (head_char s) as [[[c b] rest]|]; [|intros []].
  destruct (decimal c) as [d|] eqn:E; [|intros []].
  intros [H|[]]. inversion H; subst. now apply decimal_range in E.
Qed.

Lemma class_digit_range lo hi s v r :
  In (v, r) (class_digit lo hi s) -> 10 * lo <= v <= 10 * hi + 9.
Proof.
  unfold class_digit, bind. intros H.
  apply in_flat_map in H. destruct H as [[a ra] [Ha H]].
  apply in_flat_map in H. destruct H as [[b rb] [Hb H]].
  apply ret_in in H. subst v.
  apply digit_in_range in Ha. apply any_digit_range in Hb. lia.
Qed.

Lemma dir_H_range s v r : In (v, r) (dir_H s) -> 0 <= v <= 23.
Proof.
  unfold dir_H, alt. rewrite !in_app_iff.
  intros [H|[H|H]];
    [apply two_range in H | apply class_digit_range in H
     | apply any_digit_range in H]; lia.
Qed.

Lemma dir_M_range s v r : In (v, r) (dir_M s) -> 0 <= v <= 59.
Proof.
  unfold dir_M, alt. rewrite !in_app_iff.
  intros [H|H]; [apply class_digit_range in H | apply any_digit_range in H]; lia.
Qed.

Lemma full_match_in {A} (m : matcher A) s a :
  full_match m s = Some a -> In (a, EmptyString) (m s).
Proof.
  unfold full_match. destruct (m s) as [|[x r] l]; [discriminate|].
  destruct r; [|discriminate]. intros H. inversion H. now left.
Qed.

(** A time that [strptime] accepts is a time of day. *)
Lemma strptime_HM_range p t :
  strptime_HM p = Some t -> 0 <= hour t <= 23 /\ 0 <= minute t <= 59.
Proof.
  unfold strptime_HM.
  destruct (full_match regex_HM p) as [[h mi]|] eqn:E; [|discriminate].
  intros H. inversion H; subst. simpl.
  apply full_match_in in E. unfold regex_HM, bind in E.
  apply in_flat_map in E. destruct E as [[h' r1] [Hh E]].
  apply in_flat_map in E. destruct E as [[u r2] [_ E]].
  apply in_flat_map in E. destruct E as [[mi' r3] [Hmi E]].
  apply ret_in in E. inversion E; subst.
  apply dir_H_range in Hh. apply dir_M_range in Hmi. lia.
Qed.

(** ** Lists *)

Section ListFacts.
Context {A : Type}.

Lemma NoDup_map_filter (f : A -> Z) (p : A -> bool) (l : list A) :
  NoDup (map f l) -> NoDup (map f (filter p l)).
Proof.
  induction l as [|x l IH]; simpl; intros H; [constructor|].
  inversion H as [|? ? Hx Hl]; subst.
  destruct (p x); simpl; auto.
  constructor; auto.
  intros Hin. apply Hx.
  apply in_map_iff in Hin. destruct Hin as [y [Hy Hin]].
  apply filter_In in Hin. apply in_map_iff. exists y. tauto.
Qed.

Lemma NoDup_map_eq (f : A -> Z) (l : list A) (x y : A) :
  NoDup (map f l) -> In x l -> In y l -> f x = f y -> x = y.
Proof.
  induction l as [|z l IH]; simpl; intros H Hx Hy E; [tauto|].
  inversion H as [|? ? Hz Hl]; subst.
  destruct Hx as [->|Hx], Hy as [->|Hy]; auto.
  - exfalso. apply Hz. rewrite E. now apply in_map.
  - exfalso. apply Hz. rewrite <- E. now apply in_map.
Qed.

Lemma NoDup_map_app_fresh (f : A -> Z) (l : list A) (x : A) :
  NoDup (map f l) -> ~ In (f x) (map f l) -> NoDup (map f (l ++ [x])).
Proof.
  intros H Hx. rewrite map_app. simpl.
  apply NoDup_app; auto.
  - constructor; [simpl; tauto | constructor].
  - intros a Ha [<-|[]]. contradiction.
Qed.

Lemma map_update_key (f : A -> Z) (c : A -> bool) (g : A -> A) (l : list A) :
  (forall x, f (g x) = f x) ->
  map f (map (fun x => if c x then g x else x) l) = map f l.
Proof.
  intros Hg. rewrite map_map. apply map_ext.
  intros x. destruct (c x); auto.
Qed.

Lemma in_update (c : A -> bool) (g : A -> A) (l : list A) (y : A) :
  In y (map (fun x => if c x then g x else x) l) <->
  exists x, In x l /\ y = (if c x then g x else x).
Proof.
  rewrite in_map_iff. split; intros [x [H1 H2]]; exists x; split; auto.
Qed.

Lemma find_app_fresh (p : A -> bool) (l : list A) (x : A) :
  find p l = None -> find p (l ++ [x]) = (if p x then Some x else None).
Proof.
  induction l as [|y l IH]; simpl; auto.
  destruct (p y); [discriminate | auto].
Qed.

Lemma filter_nil_iff (p : A -> bool) (l : list A) :
  filter p l = [] <-> forall x, In x l -> p x = false.
Proof.
  induction l as [|y l IH]; simpl.
  - split; [intros _ x [] | reflexivity].
  - destruct (p y) eqn:E.
    + split; [discriminate|]. intros H. specialize (H y (or_introl eq_refl)). congruence.
    + rewrite IH. split.
      * intros H x [<-|Hx]; auto.
      * intros H x Hx. auto.
Qed.
End ListFacts.

Lemma NoDup_map_pairwise {A} (f : A -> Z) (l : list A) :
  NoDup (map f l) -> (forall x y, In x l -> In y l -> f x = f y) ->
  (List.length l <= 1)%nat.
Proof.
  intros H Hc. destruct l as [|x [|y l]]; simpl; try lia.
  exfalso. inversion H as [|? ? Hx _]; subst. apply Hx.
  simpl. left. apply Hc; simpl; auto.
Qed.

Lemma filter_andb {A} (p q : A -> bool) (l : list A) :
  filter (fun x => p x && q x) l = filter q (filter p l).
Proof.
  induction l as [|x l IH]; simpl; auto.
  destruct (p x); simpl; [destruct (q x)|]; now rewrite IH.
Qed.

Lemma find_app_last {A} (p : A -> bool) (l : list A) (x : A) :
  p x = true -> exists y, find p (l ++ [x]) = Some y.
Proof.
  intros H. induction l as [|z l IH]; simpl.
  - rewrite H. eauto.
  - destruct (p z); eauto.
Qed.

Lemma find_none_iff {A} (p : A -> bool) (l : list A) :
  find p l = None <-> forall x, In x l -> p x = false.
Proof.
  split; [apply find_none|].
  intros H. destruct (find p l) as [x|] eqn:E; auto.
  apply find_some in E. destruct E as [E1 E2]. rewrite (H x E1) in E2. discriminate.
Qed.

Lemma filter_filter_neg {A} (p : A -> bool) (l : list A) :
  filter p (filter (fun x => negb (p x)) l) = [].
Proof.
  induction l as [|x l IH]; simpl; auto.
  destruct (p x) eqn:E; simpl; auto. now rewrite E.
Qed.

Lemma filter_filter_other {A} (p q : A -> bool) (l : list A) :
  (forall x, p x = true -> q x = true) ->
  filter p (filter q l) = filter p l.
Proof.
  intros H. induction l as [|x l IH]; simpl; auto.
  destruct (q x) eqn:E; simpl.
  - now rewrite IH.
  - destruct (p x) eqn:E'; auto. rewrite (H x E') in E. discriminate.
Qed.

Lemma filter_key_le_1 {A} (f : A -> Z) (l : list A) (k : Z) :
  NoDup (map f l) -> (List.length (filter (fun x => (f x =? k)%Z) l) <= 1)%nat.
Proof.
  intros H. apply (NoDup_map_pairwise f).
  - now apply NoDup_map_filter.
  - intros x y Hx Hy. apply filter_In in Hx, Hy.
    destruct Hx as [_ Hx], Hy as [_ Hy]. apply Z.eqb_eq in Hx, Hy. congruence.
Qed.

Lemma flat_map_le_1 {A B} (h : A -> list B) (l : list A) :
  (List.length l <= 1)%nat -> (forall x, (List.length (h x) <= 1)%nat) ->
  (List.length (flat_map h l) <= 1)%nat.
Proof.
  intros Hl Hh. destruct l as [|x [|y l]]; simpl in *; try lia.
  rewrite app_nil_r. apply Hh.
Qed.

Lemma NoDup_flat_map_keys {A B} (ka : A -> Z) (kb : B -> Z)
    (g : A -> list B) (l : list A) :
  NoDup (map ka l) ->
  (forall a, (List.length (g a) <= 1)%nat) ->
  (forall a b, In b (g a) -> kb b = ka a) ->
  NoDup (map kb (flat_map g l)).
Proof.
  intros Hnd Hlen Hkey. induction l as [|a l IH]; simpl; [constructor|].
  simpl in Hnd. apply NoDup_cons_iff in Hnd. destruct Hnd as [Hfresh Hnd].
  specialize (IH Hnd). specialize (Hlen a).
  destruct (g a) as [|b [|b' rest]] eqn:E; simpl in *; auto; try lia.
  constructor; auto. intros Hin.
  apply in_map_iff in Hin. destruct Hin as [x [Ex Hx]].
  apply in_flat_map in Hx. destruct Hx as [a' [Ha' Hx]].
  apply Hfresh. rewrite <- (Hkey a b); [|rewrite E; now left].
  rewrite <- Ex, (Hkey a' x Hx). now apply in_map.
Qed.

(** ** The store stays consistent *)

Lemma wf_init : wf init.
Proof.
  constructor; simpl; try constructor; try tauto; discriminate.
Qed.

Lemma has_active_booking_true s slot_id :
  has_active_booking s slot_id = true <->
  exists b, In b (bookings s) /\ is_active b = true /\ b_slot_id b = slot_id.
Proof.
  unfold has_active_booking. rewrite existsb_exists.
  split; intros [b [Hb H]]; exists b.
  - apply andb_true_iff in H. destruct H as [H1 H2].
    apply Z.eqb_eq in H2. auto.
  - destruct H as [H1 H2]. split; auto.
    apply andb_true_iff. split; auto. now apply Z.eqb_eq.
Qed.

Lemma has_active_booking_false s slot_id :
  has_active_booking s slot_id = false <->
  forall b, In b (bookings s) -> is_active b = true -> b_slot_id b <> slot_id.
Proof.
  split.
  - intros H b Hb Ha E.
    assert (has_active_booking s slot_id = true) by (apply has_active_booking_true; eauto).
    congruence.
  - intros H. destruct (has_active_booking s slot_id) eqn:E; auto.
    apply has_active_booking_true in E. destruct E as [b [Hb [Ha Hs]]].
    exfalso. eapply H; eauto.
Qed.

Lemma wf_create_slot d t s : wf s -> wf (create_slot d t s).
Proof.
  intros H. destruct H.
  constructor; simpl; auto.
  - intros sl Hin. apply in_app_iff in Hin. destruct Hin as [Hin|[<-|[]]]; simpl.
    + specialize (wf_slots_le0 _ Hin). lia.
    + lia.
  - apply NoDup_map_app_fresh; auto. simpl.
    intros Hin. apply in_map_iff in Hin. destruct Hin as [sl [E Hin]].
    specialize (wf_slots_le0 _ Hin). lia.
  - intros sl Hin. apply in_app_iff in Hin. destruct Hin as [Hin|[<-|[]]]; simpl; auto.
  - intros b Hb. specialize (wf_bookings_slot0 _ Hb). lia.
  - intros sl Hin Hact. apply in_app_iff in Hin.
    apply has_active_booking_true in Hact. simpl in Hact.
    destruct Hact as [b [Hb [Ha Hs]]].
    destruct Hin as [Hin|[<-|[]]].
    + apply wf_active_flag0; auto. apply has_active_booking_true. eauto.
    + simpl in Hs. specialize (wf_bookings_slot0 _ Hb). lia.
Qed.

Lemma wf_delete_slot slot_id s : wf s -> wf (delete_slot slot_id s).
Proof.
  intros H. destruct H.
  constructor; simpl; auto.
  - intros sl Hin. apply filter_In in Hin. apply wf_slots_le0. tauto.
  - now apply NoDup_map_filter.
  - intros sl Hin. apply filter_In in Hin. apply wf_slots_flag0. tauto.
  - intros sl Hin Hact. apply filter_In in Hin. apply wf_active_flag0; tauto.
Qed.

Lemma wf_update_slots (c : slot -> bool) (v : Z) s :
  (v = 0 \/ v = 1) ->
  (forall sl, In sl (slots s) -> c sl = true ->
     has_active_booking s (s_id sl) = true -> v = 0) ->
  wf s ->
  wf (set_slots s (map (fun sl => if c sl then set_available v sl else sl) (slots s))
                (slots_seq s)).
Proof.
  intros Hv Hc H. destruct H.
  constructor; simpl; auto.
  - intros sl Hin. apply in_update in Hin. destruct Hin as [x [Hx ->]].
    destruct (c x); simpl; auto.
  - rewrite map_update_key; auto.
  - intros sl Hin. apply in_update in Hin. destruct Hin as [x [Hx ->]].
    destruct (c x); simpl; auto.
  - intros sl Hin Hact. apply in_update in Hin. destruct Hin as [x [Hx ->]].
    destruct (c x) eqn:E; simpl in *.
    + eapply Hc; eauto.
    + apply wf_active_flag0; auto.
Qed.

Lemma wf_close_day d s : wf s -> wf (close_day d s).
Proof.
  intros H. unfold close_day. apply wf_update_slots; auto.
Qed.

Lemma wf_update_users (c : user -> bool) (g : user -> user) s :
  (forall u, u_id (g u) = u_id u) -> (forall u, u_tg_id (g u) = u_tg_id u) ->
  wf s ->
  wf (set_users s (map (fun u => if c u then g u else u) (users s)) (users_seq s)).
Proof.
  intros Hid Htg H. destruct H.
  constructor; simpl; auto.
  - intros u Hin. apply in_update in Hin. destruct Hin as [x [Hx ->]].
    destruct (c x); rewrite ?Hid; auto.
  - rewrite map_update_key; auto.
  - rewrite map_update_key; auto.
  - intros b Hb. rewrite map_update_key; auto.
Qed.

Lemma wf_update_user_info tg name phone s : wf s -> wf (update_user_info tg name phone s).
Proof. intros H. unfold update_user_info. apply wf_update_users; auto. Qed.

Lemma wf_set_last_menu tg m s : wf s -> wf (set_last_menu_message_id tg m s).
Proof. intros H. unfold set_last_menu_message_id. apply wf_update_users; auto. Qed.

Lemma wf_save_reminder b r j s : wf s -> wf (save_reminder b r j s).
Proof.
  intros H. destruct H. constructor; simpl; auto.
  apply NoDup_map_app_fresh.
  - now apply NoDup_map_filter.
  - simpl. intros Hin. apply in_map_iff in Hin. destruct Hin as [x [E Hin]].
    apply filter_In in Hin. destruct Hin as [_ Hin].
    apply negb_true_iff, Z.eqb_neq in Hin. congruence.
Qed.

Lemma wf_delete_reminder b s : wf s -> wf (snd (delete_reminder b s)).
Proof.
  intros H. unfold delete_reminder.
  destruct (find _ (reminders s)); simpl; auto.
  destruct H. constructor; simpl; auto.
  now apply NoDup_map_filter.
Qed.

Lemma user_by_tg_some s tg u :
  user_by_tg s tg = Some u -> In u (users s) /\ u_tg_id u = tg.
Proof.
  unfold user_by_tg. intros H. apply find_some in H.
  destruct H as [H1 H2]. apply Z.eqb_eq in H2. auto.
Qed.

Lemma user_by_tg_none s tg u :
  user_by_tg s tg = None -> In u (users s) -> u_tg_id u <> tg.
Proof.
  unfold user_by_tg. intros H Hu E.
  apply (find_none _ _ H) in Hu. apply Z.eqb_neq in Hu. contradiction.
Qed.

Lemma get_or_create_user_fresh tg s :
  user_by_tg s tg = None ->
  get_or_create_user tg s =
    (users_seq s + 1,
     set_users s (users s ++ [mkUser (users_seq s + 1) tg None None None])
               (users_seq s + 1)).
Proof.
  intros H. unfold get_or_create_user. rewrite H.
  unfold user_by_tg in *. simpl.
  rewrite (find_app_fresh _ _ _ H). simpl. rewrite Z.eqb_refl. reflexivity.
Qed.

Lemma get_or_create_user_found tg s u :
  user_by_tg s tg = Some u -> get_or_create_user tg s = (u_id u, s).
Proof. intros H. unfold get_or_create_user. now rewrite H. Qed.

Lemma active_bookings_of_tg_in s tg b :
  In b (active_bookings_of_tg s tg) <->
  In b (bookings s) /\ is_active b = true /\
  exists u, In u (users s) /\ u_id u = b_user_id b /\ u_tg_id u = tg.
Proof.
  unfold active_bookings_of_tg. rewrite filter_In, andb_true_iff, existsb_exists.
  split.
  - intros [Hb [Ha [u [Hu H]]]]. apply andb_true_iff in H.
    destruct H as [H1 H2]. apply Z.eqb_eq in H1, H2. eauto 10.
  - intros [Hb [Ha [u [Hu [H1 H2]]]]]. repeat split; auto.
    exists u. split; auto. apply andb_true_iff. split; now apply Z.eqb_eq.
Qed.

(** What [get_or_create_user] leaves behind. *)
Lemma get_or_create_user_spec tg s uid s1 :
  wf s -> get_or_create_user tg s = (uid, s1) ->
  wf s1 /\
  slots s1 = slots s /\ slots_seq s1 = slots_seq s /\
  bookings s1 = bookings s /\ bookings_seq s1 = bookings_seq s /\
  reminders s1 = reminders s /\ reminders_seq s1 = reminders_seq s /\
  (exists u, In u (users s1) /\ u_id u = uid /\ u_tg_id u = tg) /\
  (forall u, In u (users s) -> In u (users s1)) /\
  (forall u, In u (users s1) -> u_tg_id u <> tg -> In u (users s)) /\
  (active_bookings_of_tg s tg = [] ->
   forall b, In b (bookings s) -> is_active b = true -> b_user_id b <> uid).
Proof.
  intros Hwf H. destruct (user_by_tg s tg) as [u|] eqn:E.
  - rewrite (get_or_create_user_found _ _ _ E) in H. inversion H; subst.
    apply user_by_tg_some in E. destruct E as [Hu Ht].
    split; [exact Hwf|].
    repeat split; auto; eauto.
    intros Hnone b Hb Ha Eb.
    assert (Hin : In b (active_bookings_of_tg s1 tg)).
    { apply active_bookings_of_tg_in. repeat split; auto. exists u. auto. }
    rewrite Hnone in Hin. destruct Hin.
  - rewrite (get_or_create_user_fresh _ _ E) in H. inversion H; subst. clear H.
    simpl. split; [|repeat split; auto].
    + destruct Hwf. constructor; simpl; auto.
      * intros u Hin. apply in_app_iff in Hin.
        destruct Hin as [Hin|[<-|[]]]; simpl; [|lia].
        specialize (wf_users_le0 _ Hin). lia.
      * apply NoDup_map_app_fresh; auto. simpl. intros Hin.
        apply in_map_iff in Hin. destruct Hin as [u [Eu Hin]].
        specialize (wf_users_le0 _ Hin). lia.
      * apply NoDup_map_app_fresh; auto. simpl. intros Hin.
        apply in_map_iff in Hin. destruct Hin as [u [Eu Hin]].
        now apply (user_by_tg_none _ _ _ E Hin).
      * intros b Hb. rewrite map_app. apply in_or_app. left.
        now apply wf_bookings_user0.
    + eexists. split; [apply in_or_app; right; left; reflexivity|]. simpl. auto.
    + intros u Hu. apply in_or_app. now left.
    + intros u Hu Hne. apply in_app_iff in Hu.
      destruct Hu as [Hu|[<-|[]]]; auto. simpl in Hne. congruence.
    + intros _ b Hb Ha Eb. destruct Hwf.
      specialize (wf_bookings_user0 _ Hb). apply in_map_iff in wf_bookings_user0.
      destruct wf_bookings_user0 as [u [Eu Hu]].
      specialize (wf_users_le0 _ Hu). lia.
Qed.

Lemma slot_by_id_some s slot_id sl :
  slot_by_id s slot_id = Some sl -> In sl (slots s) /\ s_id sl = slot_id.
Proof.
  unfold slot_by_id. intros H. apply find_some in H.
  destruct H as [H1 H2]. apply Z.eqb_eq in H2. auto.
Qed.

Lemma wf_insert_booking uid sid now s :
  wf s ->
  In uid (map u_id (users s)) ->
  sid <= slots_seq s ->
  has_active_booking s sid = false ->
  (forall b, In b (bookings s) -> is_active b = true -> b_user_id b <> uid) ->
  (forall sl, In sl (slots s) -> s_id sl = sid -> s_is_available sl = 0) ->
  wf (insert_booking uid sid now s).
Proof.
  intros Hwf Hu Hs Hfree Huser Hflag. destruct Hwf.
  constructor; simpl; auto.
  - intros b Hin. apply in_app_iff in Hin. destruct Hin as [Hin|[<-|[]]]; simpl; [|lia].
    specialize (wf_bookings_le0 _ Hin). lia.
  - apply NoDup_map_app_fresh; auto. simpl. intros Hin.
    apply in_map_iff in Hin. destruct Hin as [b [Eb Hin]].
    specialize (wf_bookings_le0 _ Hin). lia.
  - intros b Hin. apply in_app_iff in Hin. destruct Hin as [Hin|[<-|[]]]; simpl; auto.
  - intros b Hin. apply in_app_iff in Hin. destruct Hin as [Hin|[<-|[]]]; simpl; auto.
  - rewrite filter_app. simpl. apply NoDup_map_app_fresh; auto. simpl.
    intros Hin. apply in_map_iff in Hin. destruct Hin as [b [Eb Hin]].
    apply filter_In in Hin. destruct Hin as [Hin Ha].
    rewrite has_active_booking_false in Hfree. now apply (Hfree b).
  - rewrite filter_app. simpl. apply NoDup_map_app_fresh; auto. simpl.
    intros Hin. apply in_map_iff in Hin. destruct Hin as [b [Eb Hin]].
    apply filter_In in Hin. destruct Hin as [Hin Ha]. now apply (Huser b).
  - intros sl Hin Hact. apply has_active_booking_true in Hact. simpl in Hact.
    destruct Hact as [b [Hb [Ha Eb]]]. apply in_app_iff in Hb.
    destruct Hb as [Hb|[<-|[]]].
    + apply wf_active_flag0; auto. apply has_active_booking_true. eauto.
    + simpl in Eb. apply Hflag; auto.
Qed.

Lemma wf_update_slot_available_0 sid s : wf s -> wf (update_slot_available sid 0 s).
Proof. intros H. unfold update_slot_available. apply wf_update_slots; auto. Qed.

Lemma update_slot_available_flag sid v s sl :
  In sl (slots (update_slot_available sid v s)) -> s_id sl = sid ->
  s_is_available sl = v.
Proof.
  simpl. intros Hin E. apply in_update in Hin. destruct Hin as [x [Hx ->]].
  destruct (s_id x =? sid) eqn:Ex; simpl in *; auto.
  apply Z.eqb_neq in Ex. contradiction.
Qed.

Lemma wf_book_slot tg sid now s : wf s -> wf (snd (book_slot tg sid now s)).
Proof.
  intros Hwf. unfold book_slot.
  destruct (active_bookings_of_tg s tg) eqn:Hact; simpl; auto.
  destruct (get_or_create_user tg s) as [uid s1] eqn:Hg.
  destruct (get_or_create_user_spec _ _ _ _ Hwf Hg)
    as [Hwf1 [Hsl [Hsq [Hb [Hbq [_ [_ [[u [Hu [Eu Et]]] [_ [_ Hfresh]]]]]]]]]].
  destruct (slot_by_id s1 sid) as [row|] eqn:Hrow; simpl; auto.
  destruct (s_is_available row =? 0) eqn:Hav; simpl; auto.
  apply Z.eqb_neq in Hav. apply slot_by_id_some in Hrow. destruct Hrow as [Hrow Erow].
  apply wf_insert_booking.
  - now apply wf_update_slot_available_0.
  - simpl. rewrite <- Eu. now apply in_map.
  - simpl. rewrite <- Erow. now apply (wf_slots_le _ Hwf1).
  - destruct (has_active_booking (update_slot_available sid 0 s1) sid) eqn:E; auto.
    exfalso. apply Hav. apply (wf_active_flag _ Hwf1); auto.
    rewrite Erow. exact E.
  - simpl. rewrite Hb. now apply Hfresh.
  - intros sl Hin E. eapply update_slot_available_flag; eauto.
Qed.

Lemma filter_active_cancel_rows bid bs :
  filter is_active (cancel_rows bid bs) =
  filter (fun b => is_active b && negb (b_id b =? bid)) bs.
Proof.
  induction bs as [|b bs IH]; simpl; auto.
  destruct (b_id b =? bid); simpl.
  - rewrite andb_false_r. exact IH.
  - rewrite andb_true_r. destruct (is_active b); now rewrite IH.
Qed.

Lemma in_active_cancel_rows bid bs b :
  In b (cancel_rows bid bs) -> is_active b = true ->
  In b bs /\ b_id b <> bid.
Proof.
  intros Hin Ha.
  assert (H : In b (filter is_active (cancel_rows bid bs))) by (apply filter_In; auto).
  rewrite filter_active_cancel_rows in H. apply filter_In in H.
  destruct H as [H1 H2]. apply andb_true_iff in H2. destruct H2 as [_ H2].
  apply negb_true_iff, Z.eqb_neq in H2. auto.
Qed.

Lemma wf_cancel_rows bid s :
  wf s -> wf (set_bookings s (cancel_rows bid (bookings s)) (bookings_seq s)).
Proof.
  intros H. destruct H.
  constructor; simpl; auto.
  - intros b Hin. apply in_update in Hin. destruct Hin as [x [Hx ->]].
    destruct (b_id x =? bid); simpl; auto.
  - unfold cancel_rows. rewrite map_update_key; auto.
  - intros b Hin. apply in_update in Hin. destruct Hin as [x [Hx ->]].
    destruct (b_id x =? bid); simpl; auto.
  - intros b Hin. apply in_update in Hin. destruct Hin as [x [Hx ->]].
    destruct (b_id x =? bid); simpl; auto.
  - rewrite filter_active_cancel_rows, filter_andb. now apply NoDup_map_filter.
  - rewrite filter_active_cancel_rows, filter_andb. now apply NoDup_map_filter.
  - intros sl Hin Hact. apply wf_active_flag0; auto.
    apply has_active_booking_true in Hact. simpl in Hact.
    destruct Hact as [b [Hb [Ha Es]]].
    apply in_active_cancel_rows in Hb; auto.
    apply has_active_booking_true. exists b. tauto.
Qed.

Lemma cancel_booking_unfold bid s :
  cancel_booking bid s =
  match find (fun b => (b_id b =? bid) && is_active b) (bookings s) with
  | None => (None, s)
  | Some row =>
      let s2 := update_slot_available (b_slot_id row) 1
                  (set_bookings s (cancel_rows bid (bookings s)) (bookings_seq s)) in
      (match slot_by_id s2 (b_slot_id row) with
       | None => None
       | Some slot_row => Some (s_date slot_row, s_time slot_row)
       end, s2)
  end.
Proof.
  unfold cancel_booking.
  destruct (find _ (bookings s)); auto.
  cbv zeta. destruct (slot_by_id _ _); reflexivity.
Qed.

Lemma wf_cancel_booking bid s : wf s -> wf (snd (cancel_booking bid s)).
Proof.
  intros Hwf. rewrite cancel_booking_unfold.
  destruct (find _ (bookings s)) as [row|] eqn:Hrow; simpl; auto.
  apply find_some in Hrow. destruct Hrow as [Hin Hrow].
  apply andb_true_iff in Hrow. destruct Hrow as [Eid Hact]. apply Z.eqb_eq in Eid.
  unfold update_slot_available. apply wf_update_slots; auto.
  - intros sl Hsl Esl Hhas. exfalso.
    apply Z.eqb_eq in Esl. simpl in Hsl.
    apply has_active_booking_true in Hhas. simpl in Hhas.
    destruct Hhas as [b [Hb [Ha Es]]].
    apply in_active_cancel_rows in Hb; auto. destruct Hb as [Hb Hne].
    assert (b = row).
    { apply (NoDup_map_eq b_slot_id (filter is_active (bookings s))).
      - apply (wf_active_slot _ Hwf).
      - apply filter_In; auto.
      - apply filter_In; auto.
      - congruence. }
    subst b. contradiction.
  - now apply wf_cancel_rows.
Qed.

Create HintDb store discriminated.

#[local] Hint Resolve wf_create_slot wf_delete_slot wf_close_day wf_book_slot
  wf_cancel_booking wf_update_user_info wf_set_last_menu wf_save_reminder
  wf_delete_reminder : store.

Lemma wf_apply_op o s : wf s -> wf (apply_op o s).
Proof.
  intros H. destruct o; cbn [apply_op]; auto with store.
Qed.

Lemma reachable_by_wf allowed s : reachable_by allowed s -> wf s.
Proof.
  induction 1; [apply wf_init | now apply wf_apply_op].
Qed.

Lemma reachable_by_run_from allowed s ops :
  reachable_by allowed s -> forallb allowed ops = true ->
  reachable_by allowed (run_from s ops).
Proof.
  revert s. induction ops as [|o ops IH]; simpl; intros s Hs H; auto.
  apply andb_true_iff in H. destruct H as [Ho Hops].
  apply IH; auto. now apply reach_step.
Qed.

Lemma reachable_by_run allowed ops :
  forallb allowed ops = true -> reachable_by allowed (run ops).
Proof. apply reachable_by_run_from. apply reach_init. Qed.

(** ** Flags and active reservations *)

Lemma taken_only_if_booked_book_slot tg sid now s :
  wf s -> taken_only_if_booked s ->
  taken_only_if_booked (snd (book_slot tg sid now s)).
Proof.
  intros Hwf H. unfold book_slot.
  destruct (active_bookings_of_tg s tg) eqn:Hact; simpl; auto.
  destruct (get_or_create_user tg s) as [uid s1] eqn:Hg.
  destruct (get_or_create_user_spec _ _ _ _ Hwf Hg)
    as [Hwf1 [Hsl [Hsq [Hb [Hbq _]]]]].
  assert (H1 : taken_only_if_booked s1).
  { intros sl Hin E. rewrite Hsl in Hin. specialize (H sl Hin E).
    unfold has_active_booking in *. now rewrite Hb. }
  destruct (slot_by_id s1 sid) as [row|] eqn:Hrow; simpl; auto.
  destruct (s_is_available row =? 0) eqn:Hav; simpl; auto.
  intros sl Hin E. simpl in Hin. apply in_update in Hin.
  destruct Hin as [x [Hx ->]].
  unfold has_active_booking. simpl. rewrite existsb_app.
  destruct (s_id x =? sid) eqn:Ex; simpl in *.
  - apply Z.eqb_eq in Ex. rewrite Ex, Z.eqb_refl. simpl. apply orb_true_r.
  - apply orb_true_iff. left. apply (H1 x Hx E).
Qed.

Lemma taken_only_if_booked_cancel bid s :
  wf s -> taken_only_if_booked s ->
  taken_only_if_booked (snd (cancel_booking bid s)).
Proof.
  intros Hwf H. rewrite cancel_booking_unfold.
  destruct (find _ (bookings s)) as [row|] eqn:Hrow; simpl; auto.
  apply find_some in Hrow. destruct Hrow as [Hin Hrow].
  apply andb_true_iff in Hrow. destruct Hrow as [Eid Hact]. apply Z.eqb_eq in Eid.
  intros sl Hsl E. apply in_update in Hsl. destruct Hsl as [x [Hx ->]].
  destruct (s_id x =? b_slot_id row) eqn:Ex; simpl in *; [discriminate|].
  apply Z.eqb_neq in Ex.
  specialize (H x Hx E). apply has_active_booking_true in H.
  destruct H as [b [Hb [Ha Es]]].
  apply has_active_booking_true. exists b. simpl. repeat split; auto.
  apply in_update. exists b. split; auto.
  destruct (b_id b =? bid) eqn:Eb; auto.
  apply Z.eqb_eq in Eb. exfalso. apply Ex.
  assert (b = row).
  { apply (NoDup_map_eq b_id (bookings s)); auto.
    - apply (wf_bookings_id _ Hwf).
    - congruence. }
  subst b. auto.
Qed.

Lemma taken_only_if_booked_apply_op o s :
  not_close_day o = true -> wf s ->
  taken_only_if_booked s -> taken_only_if_booked (apply_op o s).
Proof.
  intros Ho Hwf H. destruct o; simpl in *; try discriminate; auto.
  - (* create_slot *)
    intros sl Hin E. apply in_app_iff in Hin.
    destruct Hin as [Hin|[<-|[]]]; simpl in *; [|discriminate].
    now apply H.
  - (* delete_slot *)
    intros sl Hin E. simpl in Hin. apply filter_In in Hin. apply H; tauto.
  - now apply taken_only_if_booked_book_slot.
  - now apply taken_only_if_booked_cancel.
  - (* delete_reminder *)
    unfold delete_reminder. destruct (find _ (reminders s)); simpl; auto.
Qed.

Lemma reachable_taken_only_if_booked allowed s :
  (forall o, allowed o = true -> not_close_day o = true) ->
  reachable_by allowed s -> taken_only_if_booked s.
Proof.
  intros Hall. induction 1 as [|s o Hs IH Ho].
  - intros sl [].
  - apply taken_only_if_booked_apply_op; auto.
    now apply (reachable_by_wf allowed).
Qed.

Lemma active_on_slot_le_1 s slot_id :
  wf s -> (List.length (active_on_slot s slot_id) <= 1)%nat.
Proof.
  intros Hwf. unfold active_on_slot. rewrite filter_andb.
  apply (NoDup_map_pairwise b_slot_id).
  - apply NoDup_map_filter. apply (wf_active_slot _ Hwf).
  - intros x y Hx Hy. apply filter_In in Hx, Hy.
    destruct Hx as [_ Hx], Hy as [_ Hy]. apply Z.eqb_eq in Hx, Hy. congruence.
Qed.

Lemma active_bookings_of_tg_le_1 s tg :
  wf s -> (List.length (active_bookings_of_tg s tg) <= 1)%nat.
Proof.
  intros Hwf. apply (NoDup_map_pairwise b_user_id).
  - unfold active_bookings_of_tg. rewrite filter_andb.
    apply NoDup_map_filter. apply (wf_active_user _ Hwf).
  - intros x y Hx Hy. apply active_bookings_of_tg_in in Hx, Hy.
    destruct Hx as [_ [_ [u [Hu [Eu Tu]]]]], Hy as [_ [_ [v [Hv [Ev Tv]]]]].
    assert (u = v).
    { apply (NoDup_map_eq u_tg_id (users s)); auto.
      - apply (wf_users_tg _ Hwf).
      - congruence. }
    subst v. congruence.
Qed.

(** ** [book_slot], case by case *)

Lemma slot_by_id_update_slot_available sid v s sl :
  slot_by_id s sid = Some sl ->
  slot_by_id (update_slot_available sid v s) sid = Some (set_available v sl).
Proof.
  unfold slot_by_id. simpl. induction (slots s) as [|x l IH]; simpl; [discriminate|].
  destruct (s_id x =? sid) eqn:E; simpl.
  - intros H. inversion H; subst. simpl. now rewrite E.
  - rewrite E. exact IH.
Qed.

Lemma slot_by_id_frame s s' sid :
  slots s' = slots s -> slot_by_id s' sid = slot_by_id s sid.
Proof. unfold slot_by_id. now intros ->. Qed.

Lemma get_or_create_user_frame tg s :
  slots (snd (get_or_create_user tg s)) = slots s /\
  slots_seq (snd (get_or_create_user tg s)) = slots_seq s /\
  bookings (snd (get_or_create_user tg s)) = bookings s /\
  bookings_seq (snd (get_or_create_user tg s)) = bookings_seq s /\
  reminders (snd (get_or_create_user tg s)) = reminders s /\
  reminders_seq (snd (get_or_create_user tg s)) = reminders_seq s.
Proof.
  unfold get_or_create_user.
  destruct (user_by_tg s tg); simpl; [tauto|].
  destruct (user_by_tg _ tg); simpl; tauto.
Qed.

Lemma get_or_create_user_row tg s :
  exists u, In u (users (snd (get_or_create_user tg s))) /\
            u_id u = fst (get_or_create_user tg s) /\ u_tg_id u = tg.
Proof.
  destruct (user_by_tg s tg) as [u|] eqn:E.
  - rewrite (get_or_create_user_found _ _ _ E). simpl.
    apply user_by_tg_some in E. exists u. tauto.
  - rewrite (get_or_create_user_fresh _ _ E). simpl.
    eexists. split; [apply in_or_app; right; left; reflexivity|]. auto.
Qed.

Lemma get_or_create_user_keeps tg s u :
  In u (users s) -> In u (users (snd (get_or_create_user tg s))).
Proof.
  intros H. destruct (user_by_tg s tg) as [v|] eqn:E.
  - now rewrite (get_or_create_user_found _ _ _ E).
  - rewrite (get_or_create_user_fresh _ _ E). simpl. apply in_or_app. now left.
Qed.

Lemma book_slot_unfold tg sid now s :
  book_slot tg sid now s =
  match active_bookings_of_tg s tg with
  | _ :: _ => (None, s)
  | [] =>
      let us := get_or_create_user tg s in
      match slot_by_id (snd us) sid with
      | None => (None, snd us)
      | Some row =>
          if s_is_available row =? 0 then (None, snd us)
          else
            let s3 := insert_booking (fst us) sid now
                        (update_slot_available sid 0 (snd us)) in
            (option_map b_id (active_booking_of s3 (fst us) sid), s3)
      end
  end.
Proof.
  unfold book_slot. destruct (active_bookings_of_tg s tg); auto.
  destruct (get_or_create_user tg s); reflexivity.
Qed.

Lemma active_booking_of_inserted uid sid now s :
  exists b, active_booking_of (insert_booking uid sid now s) uid sid = Some b.
Proof.
  unfold active_booking_of, insert_booking. simpl.
  apply find_app_last. simpl. now rewrite !Z.eqb_refl.
Qed.

(** A failed [book_slot] writes to the users table at most. *)
Lemma book_slot_none tg sid now s :
  fst (book_slot tg sid now s) = None ->
  slots (snd (book_slot tg sid now s)) = slots s /\
  bookings (snd (book_slot tg sid now s)) = bookings s /\
  reminders (snd (book_slot tg sid now s)) = reminders s.
Proof.
  rewrite book_slot_unfold.
  destruct (active_bookings_of_tg s tg); simpl; auto.
  destruct (get_or_create_user_frame tg s) as [H1 [_ [H2 [_ [H3 _]]]]].
  destruct (slot_by_id _ sid) as [row|]; simpl; auto.
  destruct (s_is_available row =? 0); simpl; auto.
  destruct (active_booking_of_inserted (fst (get_or_create_user tg s)) sid now
              (update_slot_available sid 0 (snd (get_or_create_user tg s))))
    as [b ->].
  discriminate.
Qed.

Lemma book_slot_unavailable tg sid now s :
  unavailable s sid -> fst (book_slot tg sid now s) = None.
Proof.
  unfold unavailable. intros H. rewrite book_slot_unfold.
  destruct (active_bookings_of_tg s tg); simpl; auto.
  destruct (get_or_create_user_frame tg s) as [H1 _].
  rewrite (slot_by_id_frame _ _ _ H1).
  destruct (slot_by_id s sid) as [row|]; simpl; auto.
  rewrite H. reflexivity.
Qed.

Lemma book_slot_busy tg sid now s :
  active_bookings_of_tg s tg <> [] -> book_slot tg sid now s = (None, s).
Proof.
  intros H. unfold book_slot.
  destruct (active_bookings_of_tg s tg); [congruence | reflexivity].
Qed.

Lemma book_slot_fails tg sid now s :
  active_bookings_of_tg s tg <> [] \/ unavailable s sid ->
  fst (book_slot tg sid now s) = None.
Proof.
  intros [H|H].
  - now rewrite book_slot_busy.
  - now apply book_slot_unavailable.
Qed.

(** Once a slot is unavailable no [book_slot] call makes it available. *)
Lemma book_slot_keeps_unavailable tg sid now s sid' :
  unavailable s sid' -> unavailable (snd (book_slot tg sid now s)) sid'.
Proof.
  unfold unavailable. intros H. rewrite book_slot_unfold.
  destruct (active_bookings_of_tg s tg); simpl; auto.
  destruct (get_or_create_user_frame tg s) as [H1 _].
  set (s1 := snd (get_or_create_user tg s)) in *.
  assert (Hs1 : match slot_by_id s1 sid' with
                | Some sl => s_is_available sl = 0 | None => True end).
  { now rewrite (slot_by_id_frame _ _ _ H1). }
  destruct (slot_by_id s1 sid) as [row|]; simpl; auto.
  destruct (s_is_available row =? 0); simpl; auto.
  change (match slot_by_id (update_slot_available sid 0 s1) sid' with
          | Some sl => s_is_available sl = 0 | None => True end).
  clear - Hs1. unfold slot_by_id in *. simpl.
  induction (slots s1) as [|x l IH]; simpl in *; auto.
  destruct (s_id x =? sid) eqn:E; destruct (s_id x =? sid') eqn:E';
    simpl; rewrite ?E'; simpl; auto; exact (IH Hs1).
Qed.

Lemma book_slot_success_unavailable tg sid now s bid :
  fst (book_slot tg sid now s) = Some bid ->
  unavailable (snd (book_slot tg sid now s)) sid.
Proof.
  rewrite book_slot_unfold.
  destruct (active_bookings_of_tg s tg); simpl; [|discriminate].
  set (s1 := snd (get_or_create_user tg s)).
  destruct (slot_by_id s1 sid) as [row|] eqn:Hrow; simpl; [|discriminate].
  destruct (s_is_available row =? 0); simpl; [discriminate|].
  intros _. unfold unavailable.
  change (match slot_by_id (update_slot_available sid 0 s1) sid with
          | Some sl => s_is_available sl = 0 | None => True end).
  now rewrite (slot_by_id_update_slot_available _ _ _ _ Hrow).
Qed.

(** The active bookings of a client survive when users and bookings are
    only added. *)
Lemma active_bookings_of_tg_grows s s' tg b :
  (forall u, In u (users s) -> In u (users s')) ->
  (forall x, In x (bookings s) -> In x (bookings s')) ->
  In b (active_bookings_of_tg s tg) -> In b (active_bookings_of_tg s' tg).
Proof.
  intros Hu Hb H. apply active_bookings_of_tg_in in H.
  destruct H as [H1 [H2 [u [H3 H4]]]].
  apply active_bookings_of_tg_in. repeat split; auto. exists u. auto.
Qed.

Lemma book_slot_grows tg sid now s :
  (forall u, In u (users s) -> In u (users (snd (book_slot tg sid now s)))) /\
  (forall x, In x (bookings s) -> In x (bookings (snd (book_slot tg sid now s)))).
Proof.
  rewrite book_slot_unfold.
  destruct (active_bookings_of_tg s tg); simpl; auto.
  destruct (get_or_create_user_frame tg s) as [_ [_ [H2 _]]].
  pose proof (get_or_create_user_keeps tg s) as Hk.
  destruct (slot_by_id _ sid) as [row|]; simpl.
  2:{ split; auto. intros x. now rewrite H2. }
  destruct (s_is_available row =? 0); simpl.
  - split; auto. intros x. now rewrite H2.
  - split; auto. intros x Hx. rewrite H2. apply in_or_app. now left.
Qed.

Lemma book_slot_success_busy tg sid now s bid :
  fst (book_slot tg sid now s) = Some bid ->
  active_bookings_of_tg (snd (book_slot tg sid now s)) tg <> [].
Proof.
  rewrite book_slot_unfold.
  destruct (active_bookings_of_tg s tg); simpl; [|discriminate].
  destruct (get_or_create_user_row tg s) as [u [Hu [Eu Tu]]].
  set (s1 := snd (get_or_create_user tg s)) in *.
  set (uid := fst (get_or_create_user tg s)) in *.
  destruct (slot_by_id s1 sid) as [row|] eqn:Hrow; simpl; [|discriminate].
  destruct (s_is_available row =? 0); simpl; [discriminate|].
  intros _ Hnil.
  assert (Hin : In (mkBooking (bookings_seq s1 + 1) uid sid active now)
                   (active_bookings_of_tg
                      (insert_booking uid sid now (update_slot_available sid 0 s1)) tg)).
  { apply active_bookings_of_tg_in. simpl. repeat split; auto.
    - apply in_or_app. right. left. reflexivity.
    - exists u. auto. }
  rewrite Hnil in Hin. destruct Hin.
Qed.

Lemma book_slot_free tg sid now s sl :
  active_bookings_of_tg s tg = [] -> slot_by_id s sid = Some sl ->
  s_is_available sl <> 0 ->
  exists bid, fst (book_slot tg sid now s) = Some bid.
Proof.
  intros Ha Hs Hf. rewrite book_slot_unfold, Ha.
  destruct (get_or_create_user_frame tg s) as [H1 _].
  cbv zeta. rewrite (slot_by_id_frame s _ _ H1), Hs.
  apply Z.eqb_neq in Hf. rewrite Hf.
  destruct (active_booking_of_inserted (fst (get_or_create_user tg s)) sid now
              (update_slot_available sid 0 (snd (get_or_create_user tg s))))
    as [b Hb].
  simpl. rewrite Hb. simpl. eauto.
Qed.

Lemma book_slot_returns tg sid now s bid :
  fst (book_slot tg sid now s) = Some bid ->
  exists b, In b (bookings (snd (book_slot tg sid now s))) /\
            b_id b = bid /\ b_slot_id b = sid.
Proof.
  rewrite book_slot_unfold.
  destruct (active_bookings_of_tg s tg); simpl; [|discriminate].
  destruct (slot_by_id _ sid) as [row|]; simpl; [|discriminate].
  destruct (s_is_available row =? 0); simpl; [discriminate|].
  destruct (active_booking_of _ _ sid) as [b|] eqn:E; simpl; [|discriminate].
  intros H. inversion H; subst. unfold active_booking_of in E.
  apply find_some in E. destruct E as [Hin E].
  apply andb_true_iff in E. destruct E as [E _].
  apply andb_true_iff in E. destruct E as [_ E]. apply Z.eqb_eq in E.
  exists b. auto.
Qed.

Lemma active_bookings_of_tg_same_users s s' tg :
  bookings s' = bookings s ->
  map (fun u => (u_id u, u_tg_id u)) (users s') =
  map (fun u => (u_id u, u_tg_id u)) (users s) ->
  active_bookings_of_tg s' tg = active_bookings_of_tg s tg.
Proof.
  intros Hb Hu. unfold active_bookings_of_tg. rewrite Hb.
  apply filter_ext. intros b. f_equal.
  assert (E : forall l, existsb (fun u => (u_id u =? b_user_id b) && (u_tg_id u =? tg)) l
              = existsb (fun p => (fst p =? b_user_id b) && (snd p =? tg))
                        (map (fun u => (u_id u, u_tg_id u)) l)).
  { induction l as [|x l IH]; simpl; auto. now rewrite IH. }
  now rewrite !E, Hu.
Qed.

Lemma update_user_info_keys tg name phone s :
  map (fun u => (u_id u, u_tg_id u)) (users (update_user_info tg name phone s)) =
  map (fun u => (u_id u, u_tg_id u)) (users s).
Proof.
  simpl. rewrite map_map. apply map_ext. intros u.
  destruct (u_tg_id u =? tg); reflexivity.
Qed.

Lemma confirm_booking_failed_effects
    from_user slot_id name phone now_book now_sched w :
  fst (confirm_booking from_user (Some slot_id) name phone now_book now_sched w)
    = Ok BookingFailed ->
  let w' := snd (confirm_booking from_user (Some slot_id) name phone
                                 now_book now_sched w) in
  slots (w_db w') = slots (w_db w) /\
  bookings (w_db w') = bookings (w_db w) /\
  reminders (w_db w') = reminders (w_db w) /\
  w_jobs w' = w_jobs w /\
  (forall u, In u (users (w_db w)) -> u_tg_id u = from_user ->
     In (mkUser (u_id u) from_user (Some name) (Some phone)
                (u_last_menu_message_id u)) (users (w_db w'))).
Proof.
  unfold confirm_booking.
  set (d1 := update_user_info from_user name phone (w_db w)).
  pose proof (book_slot_none from_user slot_id now_book d1) as Hn.
  pose proof (book_slot_grows from_user slot_id now_book d1) as [Hg _].
  destruct (book_slot from_user slot_id now_book d1) as [[bid|] d2]; simpl in *.
  - destruct (get_slot slot_id d2) as [sl|]; simpl; [|discriminate].
    destruct (schedule_reminder _ _ _ _ _ _); simpl; discriminate.
  - intros _. destruct (Hn eq_refl) as [H1 [H2 H3]].
    repeat split; auto.
    intros u Hu Et. apply Hg. unfold d1. simpl.
    apply in_update. exists u. split; auto.
    apply Z.eqb_eq in Et. rewrite Et. apply Z.eqb_eq in Et. now rewrite Et.
Qed.

(** ** [cancel_booking] and the client's cancellation *)

Lemma cancel_rows_in bid bs b :
  In b bs -> b_id b = bid -> In (set_status cancelled b) (cancel_rows bid bs).
Proof.
  intros Hin E. apply in_update. exists b. split; auto.
  apply Z.eqb_eq in E. now rewrite E.
Qed.

Lemma delete_reminder_gone bid s r :
  In r (reminders (snd (delete_reminder bid s))) -> r_booking_id r <> bid.
Proof.
  unfold delete_reminder.
  destruct (find _ (reminders s)) eqn:E; simpl; intros Hin.
  - apply filter_In in Hin. destruct Hin as [_ H].
    now apply negb_true_iff, Z.eqb_neq in H.
  - apply (find_none _ _ E) in Hin. now apply Z.eqb_neq in Hin.
Qed.

Lemma delete_reminder_frame bid s :
  users (snd (delete_reminder bid s)) = users s /\
  slots (snd (delete_reminder bid s)) = slots s /\
  bookings (snd (delete_reminder bid s)) = bookings s.
Proof.
  unfold delete_reminder. destruct (find _ (reminders s)); simpl; auto.
Qed.

Lemma cancel_booking_reminders bid s :
  reminders (snd (cancel_booking bid s)) = reminders s.
Proof.
  rewrite cancel_booking_unfold. destruct (find _ (bookings s)); reflexivity.
Qed.

Lemma user_cancel_booking_db bid w :
  w_db (snd (user_cancel_booking bid w)) =
  snd (cancel_booking bid (snd (delete_reminder bid (w_db w)))).
Proof.
  unfold user_cancel_booking.
  destruct (delete_reminder bid (w_db w)) as [found d1]. simpl.
  destruct (cancel_booking bid d1) as [[[dd tt]|] d2]; reflexivity.
Qed.

Lemma cancel_booking_active s bid b sl :
  wf s -> In b (bookings s) -> b_id b = bid -> is_active b = true ->
  slot_by_id s (b_slot_id b) = Some sl ->
  cancel_booking bid s =
    (Some (s_date sl, s_time sl),
     update_slot_available (b_slot_id b) 1
       (set_bookings s (cancel_rows bid (bookings s)) (bookings_seq s))).
Proof.
  intros Hwf Hin Eid Hact Hslot. rewrite cancel_booking_unfold.
  destruct (find _ (bookings s)) as [row|] eqn:Hrow.
  - apply find_some in Hrow. destruct Hrow as [Hrin Hrow].
    apply andb_true_iff in Hrow. destruct Hrow as [Erow _]. apply Z.eqb_eq in Erow.
    assert (row = b).
    { apply (NoDup_map_eq b_id (bookings s)); auto.
      - apply (wf_bookings_id _ Hwf).
      - congruence. }
    subst row. cbv zeta.
    rewrite (slot_by_id_update_slot_available (b_slot_id b) 1 _ sl); auto.
  - apply (find_none _ _ Hrow) in Hin.
    apply Z.eqb_eq in Eid. rewrite Eid, Hact in Hin. discriminate.
Qed.

(** ** Calls that run one after the other *)

(** A call that is never interrupted is [book_slot]. *)
Lemma interleave_alone tg sid now s :
  interleave [0; 0; 0; 0; 0]%nat [start tg sid now] s =
  ([mkAttempt tg sid now (Finished (fst (book_slot tg sid now s)))],
   snd (book_slot tg sid now s)).
Proof.
  unfold book_slot, start. simpl.
  destruct (active_bookings_of_tg s tg); simpl; auto.
  destruct (get_or_create_user tg s) as [uid s1]; simpl.
  destruct (slot_by_id s1 sid) as [row|]; simpl; auto.
  destruct (s_is_available row =? 0); simpl; auto.
Qed.

Lemma sequential_cons tg sid now rest s :
  sequential ((tg, sid, now) :: rest) s =
  (fst (book_slot tg sid now s)
     :: fst (sequential rest (snd (book_slot tg sid now s))),
   snd (sequential rest (snd (book_slot tg sid now s)))).
Proof.
  simpl. destruct (book_slot tg sid now s) as [r s1]. simpl.
  destruct (sequential rest s1). reflexivity.
Qed.

Lemma sequential_unavailable sid calls s :
  unavailable s sid -> Forall (fun c => call_slot c = sid) calls ->
  successes (fst (sequential calls s)) = 0%nat.
Proof.
  revert s. induction calls as [|[[tg sid'] now] rest IH]; intros s Hu Hall; auto.
  apply Forall_cons_iff in Hall. destruct Hall as [Hc Hrest].
  unfold call_slot in Hc. simpl in Hc. subst sid'.
  rewrite sequential_cons. simpl fst. unfold successes in *. simpl.
  rewrite (book_slot_unavailable _ _ _ _ Hu).
  apply IH; auto. now apply book_slot_keeps_unavailable.
Qed.

Lemma sequential_busy tg calls s :
  active_bookings_of_tg s tg <> [] -> Forall (fun c => call_tg c = tg) calls ->
  successes (fst (sequential calls s)) = 0%nat.
Proof.
  revert s. induction calls as [|[[tg' sid] now] rest IH]; intros s Hu Hall; auto.
  apply Forall_cons_iff in Hall. destruct Hall as [Hc Hrest].
  unfold call_tg in Hc. simpl in Hc. subst tg'.
  rewrite sequential_cons. simpl fst. unfold successes in *. simpl.
  rewrite (book_slot_busy _ _ _ _ Hu). simpl.
  apply IH; auto.
Qed.

Lemma sequential_same_slot sid calls s :
  Forall (fun c => call_slot c = sid) calls ->
  (successes (fst (sequential calls s)) <= 1)%nat.
Proof.
  revert s. induction calls as [|[[tg sid'] now] rest IH]; intros s Hall; auto.
  apply Forall_cons_iff in Hall. destruct Hall as [Hc Hrest].
  unfold call_slot in Hc. simpl in Hc. subst sid'.
  rewrite sequential_cons. simpl fst.
  destruct (fst (book_slot tg sid now s)) as [bid|] eqn:E.
  - pose proof (book_slot_success_unavailable _ _ _ _ _ E) as Hu.
    pose proof (sequential_unavailable _ _ _ Hu Hrest) as H0.
    unfold successes in *. simpl. rewrite H0. lia.
  - specialize (IH (snd (book_slot tg sid now s)) Hrest).
    unfold successes in *. simpl. exact IH.
Qed.

Lemma sequential_same_client tg calls s :
  Forall (fun c => call_tg c = tg) calls ->
  (successes (fst (sequential calls s)) <= 1)%nat.
Proof.
  revert s. induction calls as [|[[tg' sid] now] rest IH]; intros s Hall; auto.
  apply Forall_cons_iff in Hall. destruct Hall as [Hc Hrest].
  unfold call_tg in Hc. simpl in Hc. subst tg'.
  rewrite sequential_cons. simpl fst.
  destruct (fst (book_slot tg sid now s)) as [bid|] eqn:E.
  - pose proof (book_slot_success_busy _ _ _ _ _ E) as Hu.
    pose proof (sequential_busy _ _ _ Hu Hrest) as H0.
    unfold successes in *. simpl. rewrite H0. lia.
  - specialize (IH (snd (book_slot tg sid now s)) Hrest).
    unfold successes in *. simpl. exact IH.
Qed.

(** ** The loop of [admin_add_times] *)

Lemma parsed_times_length parts :
  List.length (parsed_times parts) = List.length (filter parses parts).
Proof.
  induction parts as [|p rest IH]; simpl; auto.
  unfold parses at 1. destruct (strptime_HM p); simpl; auto.
Qed.

Lemma add_times_spec dt parts created s :
  fst (add_times dt parts created s)
    = created + Z.of_nat (List.length (parsed_times parts)) /\
  slots (snd (add_times dt parts created s))
    = slots s ++ new_slots (slots_seq s) dt (parsed_times parts) /\
  users (snd (add_times dt parts created s)) = users s /\
  bookings (snd (add_times dt parts created s)) = bookings s /\
  reminders (snd (add_times dt parts created s)) = reminders s.
Proof.
  revert created s. induction parts as [|p rest IH]; intros created s; simpl.
  - rewrite app_nil_r. repeat split; lia.
  - destruct (strptime_HM p) as [tm|]; [|apply IH].
    destruct (IH (created + 1) (create_slot dt tm s)) as [H1 [H2 [H3 [H4 H5]]]].
    rewrite H1, H2, H3, H4, H5. simpl. rewrite <- app_assoc. simpl.
    repeat split; auto. lia.
Qed.

Lemma new_slots_available seq dt ts sl :
  In sl (new_slots seq dt ts) ->
  s_is_available sl = 1 /\ s_date sl = isoformat dt /\
  exists tm, In tm ts /\ s_time sl = strftime_HM tm.
Proof.
  revert seq. induction ts as [|tm rest IH]; simpl; intros seq H; [tauto|].
  destruct H as [<-|H]; simpl.
  - repeat split; eauto.
  - destruct (IH _ H) as [H1 [H2 [x [H3 H4]]]]. repeat split; eauto.
Qed.

Lemma new_slots_length seq dt ts :
  List.length (new_slots seq dt ts) = List.length ts.
Proof.
  revert seq. induction ts as [|tm rest IH]; simpl; intros seq; auto.
Qed.

Lemma parsed_times_range parts t :
  In t (parsed_times parts) -> 0 <= hour t <= 23 /\ 0 <= minute t <= 59.
Proof.
  induction parts as [|p rest IH]; simpl; [tauto|].
  destruct (strptime_HM p) as [tm|] eqn:E; auto.
  intros [<-|H]; auto. now apply strptime_HM_range in E.
Qed.

(** Every slot that [admin_add_times] makes for a date of the calendar
    has a datetime that [schedule_reminder] can read. *)
Lemma new_slots_read_back seq dt parts sl :
  valid_date (year dt) (month dt) (day dt) = true ->
  In sl (new_slots seq dt (parsed_times parts)) ->
  exists t, In t (parsed_times parts) /\
    slot_datetime (s_date sl) (s_time sl) =
    Some (datetime_of (year dt) (month dt) (day dt) (hour t) (minute t)).
Proof.
  intros Hv Hin. apply new_slots_available in Hin.
  destruct Hin as [_ [Hd [t [Ht Htm]]]].
  exists t. split; auto. rewrite Hd, Htm.
  destruct (parsed_times_range _ _ Ht). now apply slot_text_reads_back.
Qed.

(** ** Reminder records and jobs *)

Lemma is_active_false b : is_active b = false <-> b_status b <> active.
Proof.
  unfold is_active. destruct (b_status b); simpl; split; congruence.
Qed.

Lemma is_active_true b : is_active b = true <-> b_status b = active.
Proof.
  unfold is_active. destruct (b_status b); simpl; split; congruence.
Qed.

Lemma reminders_for_delete b s :
  reminders_for (snd (delete_reminder b s)) b = [].
Proof.
  unfold reminders_for, delete_reminder.
  destruct (find _ (reminders s)) eqn:E; simpl.
  - apply (filter_filter_neg (fun r => r_booking_id r =? b)).
  - apply filter_nil_iff. intros x Hx. apply (find_none _ _ E x Hx).
Qed.

Lemma reminders_for_delete_other b b' s :
  b' <> b -> reminders_for (snd (delete_reminder b s)) b' = reminders_for s b'.
Proof.
  intros Hne. unfold reminders_for, delete_reminder.
  destruct (find _ (reminders s)) eqn:E; simpl; auto.
  apply filter_filter_other. intros x Hx. apply Z.eqb_eq in Hx.
  apply negb_true_iff, Z.eqb_neq. congruence.
Qed.

Lemma reminders_for_save b run jid s :
  reminders_for (save_reminder b run jid s) b =
  [mkReminder (reminders_seq s + 1) b run jid].
Proof.
  unfold reminders_for, save_reminder. simpl. rewrite filter_app.
  rewrite (filter_filter_neg (fun r => r_booking_id r =? b)). simpl.
  now rewrite Z.eqb_refl.
Qed.

Lemma reminders_for_save_other b b' run jid s :
  b' <> b -> reminders_for (save_reminder b run jid s) b' = reminders_for s b'.
Proof.
  intros Hne. unfold reminders_for, save_reminder. simpl. rewrite filter_app. simpl.
  apply Z.eqb_neq in Hne. rewrite Z.eqb_sym in Hne. rewrite Hne, app_nil_r.
  apply filter_filter_other. intros x Hx. apply Z.eqb_eq in Hx.
  apply negb_true_iff, Z.eqb_neq. apply Z.eqb_neq in Hne. congruence.
Qed.

Lemma jobs_for_add b run tg tm jobs :
  jobs_for (add_job (mkJob (reminder_job_id b) run tg tm) jobs) b =
  [mkJob (reminder_job_id b) run tg tm].
Proof.
  unfold jobs_for, add_job. cbn [job_id]. rewrite filter_app.
  rewrite (filter_filter_neg (fun j => String.eqb (job_id j) (reminder_job_id b))).
  cbn [filter job_id app]. now rewrite String.eqb_refl.
Qed.

Lemma jobs_for_add_other b b' run tg tm jobs :
  b' <> b ->
  jobs_for (add_job (mkJob (reminder_job_id b) run tg tm) jobs) b' = jobs_for jobs b'.
Proof.
  intros Hne. unfold jobs_for, add_job. cbn [job_id]. rewrite filter_app.
  cbn [filter job_id].
  assert (E : String.eqb (reminder_job_id b) (reminder_job_id b') = false).
  { apply String.eqb_neq. intros H. apply reminder_job_id_inj in H. congruence. }
  rewrite E, app_nil_r.
  apply filter_filter_other. intros x Hx. apply String.eqb_eq in Hx.
  apply negb_true_iff. rewrite Hx, String.eqb_sym. exact E.
Qed.

Lemma schedule_reminder_row r now w :
  row_ok r ->
  schedule_reminder (row_booking_id r) (row_tg_id r) (row_date r) (row_time r) now w =
  Ok (if row_run_at r <=? now then w
      else mkWorld
             (save_reminder (row_booking_id r) (row_run_at r)
                            (reminder_job_id (row_booking_id r)) (w_db w))
             (add_job (mkJob (reminder_job_id (row_booking_id r)) (row_run_at r)
                             (row_tg_id r) (row_time r)) (w_jobs w))).
Proof.
  intros [T [Hp [Hge Hrun]]]. unfold slot_datetime in Hp.
  unfold schedule_reminder, datetime_sub. rewrite Hp.
  assert (E : (T - hours24 <? 0) = false) by (apply Z.ltb_ge; lia).
  rewrite E, <- Hrun. destruct (row_run_at r <=? now); reflexivity.
Qed.

Lemma schedule_reminder_ok bid tg d t now w w' :
  schedule_reminder bid tg d t now w = Ok w' ->
  w' = w \/
  exists T, slot_datetime d t = Some T /\ hours24 <= T /\
            w' = mkWorld (save_reminder bid (T - hours24) (reminder_job_id bid) (w_db w))
                         (add_job (mkJob (reminder_job_id bid) (T - hours24) tg t)
                                  (w_jobs w)).
Proof.
  unfold schedule_reminder, slot_datetime, datetime_sub.
  destruct (strptime_slot _) as [T|]; [|discriminate].
  destruct (T - hours24 <? 0) eqn:E; [discriminate|].
  apply Z.ltb_ge in E.
  destruct (T - hours24 <=? now); intros H; inversion H; auto.
  right. exists T. repeat split; auto. lia.
Qed.

Lemma restore_loop_spec now now_of rows w :
  NoDup (map row_booking_id rows) ->
  Forall row_ok rows ->
  exists w',
    restore_loop now now_of rows w = (Ok tt, w') /\
    (forall b, ~ In b (map row_booking_id rows) ->
       reminders_for (w_db w') b = reminders_for (w_db w) b /\
       jobs_for (w_jobs w') b = jobs_for (w_jobs w) b) /\
    (forall r, In r rows ->
       (row_status r <> active \/ row_run_at r <= now ->
          reminders_for (w_db w') (row_booking_id r) = [] /\
          jobs_for (w_jobs w') (row_booking_id r)
            = jobs_for (w_jobs w) (row_booking_id r)) /\
       (row_status r = active -> now < row_run_at r ->
        now_of (row_booking_id r) < row_run_at r ->
          (exists id, reminders_for (w_db w') (row_booking_id r) =
             [mkReminder id (row_booking_id r) (row_run_at r)
                         (reminder_job_id (row_booking_id r))]) /\
          jobs_for (w_jobs w') (row_booking_id r) =
            [mkJob (reminder_job_id (row_booking_id r)) (row_run_at r)
                   (row_tg_id r) (row_time r)]) /\
       (row_status r = active -> now < row_run_at r ->
        row_run_at r <= now_of (row_booking_id r) ->
          reminders_for (w_db w') (row_booking_id r)
            = reminders_for (w_db w) (row_booking_id r) /\
          jobs_for (w_jobs w') (row_booking_id r)
            = jobs_for (w_jobs w) (row_booking_id r))).
Proof.
  revert w. induction rows as [|r rest IH]; intros w Hnd Hok.
  - exists w. simpl. repeat split; auto; contradiction.
  - simpl in Hnd. apply NoDup_cons_iff in Hnd. destruct Hnd as [Hfresh Hnd].
    apply Forall_cons_iff in Hok. destruct Hok as [Hr Hok].
    simpl restore_loop.
    destruct (negb (status_eqb (row_status r) active) || (row_run_at r <=? now))
      eqn:Hcond.
    + (* the record is deleted *)
      set (w1 := mkWorld (snd (delete_reminder (row_booking_id r) (w_db w))) (w_jobs w)).
      destruct (IH w1 Hnd Hok) as [w' [Hrun [Hframe Hrows]]].
      exists w'. split; [exact Hrun|]. split.
      * intros b Hb. simpl in Hb.
        assert (Hb1 : ~ In b (map row_booking_id rest)) by tauto.
        assert (Hb2 : b <> row_booking_id r) by (intros ->; tauto).
        destruct (Hframe b Hb1) as [H1 H2].
        rewrite H1, H2. simpl. split; auto.
        now apply reminders_for_delete_other.
      * intros x [<-|Hx].
        -- destruct (Hframe (row_booking_id r) Hfresh) as [H1 H2].
           assert (Hno : row_status r = active -> now < row_run_at r -> False).
           { intros Ha Hlt.
             apply orb_true_iff in Hcond. destruct Hcond as [Hc|Hc].
             - rewrite Ha in Hc. discriminate.
             - apply Z.leb_le in Hc. lia. }
           split; [|split].
           ++ intros _. rewrite H1, H2. simpl. split; auto.
              apply reminders_for_delete.
           ++ intros Ha Hlt _. now elim (Hno Ha Hlt).
           ++ intros Ha Hlt _. now elim (Hno Ha Hlt).
        -- assert (Hne : row_booking_id x <> row_booking_id r).
           { intros E. apply Hfresh. rewrite <- E. now apply in_map. }
           destruct (Hrows x Hx) as [H1 [H2 H3]]. split; [|split]; auto.
           intros Ha Hlt Hle. destruct (H3 Ha Hlt Hle) as [H4 H5].
           rewrite H4, H5. simpl. split; auto.
           now apply reminders_for_delete_other.
    + (* the job is registered again *)
      rewrite (schedule_reminder_row r _ w Hr).
      apply orb_false_iff in Hcond. destruct Hcond as [Hst Hfut].
      apply negb_false_iff in Hst. apply Z.leb_gt in Hfut.
      match goal with |- context [restore_loop now now_of rest ?x] => set (w1 := x) end.
      destruct (IH w1 Hnd Hok) as [w' [Hrun [Hframe Hrows]]].
      exists w'. split; [exact Hrun|].
      assert (Hother : forall b, b <> row_booking_id r ->
                reminders_for (w_db w1) b = reminders_for (w_db w) b /\
                jobs_for (w_jobs w1) b = jobs_for (w_jobs w) b).
      { intros b Hb. unfold w1.
        destruct (row_run_at r <=? now_of (row_booking_id r)); simpl; auto.
        split; [now apply reminders_for_save_other | now apply jobs_for_add_other]. }
      split.
      * intros b Hb. simpl in Hb.
        assert (Hb1 : ~ In b (map row_booking_id rest)) by tauto.
        assert (Hb2 : b <> row_booking_id r) by (intros ->; tauto).
        destruct (Hframe b Hb1) as [H1 H2].
        destruct (Hother b Hb2) as [H3 H4].
        rewrite H1, H2. auto.
      * intros x [<-|Hx].
        -- destruct (Hframe (row_booking_id r) Hfresh) as [H1 H2].
           split; [|split].
           ++ intros [Hc|Hc]; exfalso.
              ** destruct (row_status r); [congruence | discriminate].
              ** lia.
           ++ intros _ _ Hlt. rewrite H1, H2. unfold w1.
              apply Z.leb_gt in Hlt. rewrite Hlt. simpl.
              rewrite reminders_for_save, jobs_for_add. eauto.
           ++ intros _ _ Hle. rewrite H1, H2. unfold w1.
              apply Z.leb_le in Hle. rewrite Hle. auto.
        -- assert (Hne : row_booking_id x <> row_booking_id r).
           { intros E. apply Hfresh. rewrite <- E. now apply in_map. }
           destruct (Hother _ Hne) as [H3 H4].
           destruct (Hrows x Hx) as [H1 [H2 H5]]. split; [|split]; auto.
           ++ intros Hc. destruct (H1 Hc) as [H6 H7]. rewrite H6, H7. auto.
           ++ intros Ha Hlt Hle. destruct (H5 Ha Hlt Hle) as [H6 H7].
              rewrite H6, H7. auto.
Qed.

Lemma in_get_all_reminders s row :
  In row (get_all_reminders s) <->
  exists r b u sl,
    In r (reminders s) /\ In b (bookings s) /\ b_id b = r_booking_id r /\
    In u (users s) /\ u_id u = b_user_id b /\
    In sl (slots s) /\ s_id sl = b_slot_id b /\
    row = mkRow (r_booking_id r) (r_run_at r) (b_status b) (u_tg_id u)
                (s_date sl) (s_time sl).
Proof.
  unfold get_all_reminders. rewrite in_flat_map. split.
  - intros [r [Hr H]]. apply in_flat_map in H. destruct H as [b [Hb H]].
    apply in_flat_map in H. destruct H as [u [Hu H]].
    apply in_flat_map in H. destruct H as [sl [Hsl H]].
    apply filter_In in Hb, Hu, Hsl.
    destruct Hb as [Hb Eb], Hu as [Hu Eu], Hsl as [Hsl Esl].
    apply Z.eqb_eq in Eb, Eu, Esl.
    destruct H as [<-|[]]. exists r, b, u, sl. tauto.
  - intros [r [b [u [sl [Hr [Hb [Eb [Hu [Eu [Hsl [Esl ->]]]]]]]]]]].
    exists r. split; auto.
    apply in_flat_map. exists b. split; [apply filter_In; split; auto; now apply Z.eqb_eq|].
    apply in_flat_map. exists u. split; [apply filter_In; split; auto; now apply Z.eqb_eq|].
    apply in_flat_map. exists sl. split; [apply filter_In; split; auto; now apply Z.eqb_eq|].
    now left.
Qed.

Lemma get_all_reminders_keys s :
  wf s -> NoDup (map row_booking_id (get_all_reminders s)).
Proof.
  intros Hwf. unfold get_all_reminders.
  apply (NoDup_flat_map_keys r_booking_id).
  - apply (wf_reminders_key _ Hwf).
  - intros r. apply flat_map_le_1.
    + apply (filter_key_le_1 b_id). apply (wf_bookings_id _ Hwf).
    + intros b. apply flat_map_le_1.
      * apply (filter_key_le_1 u_id). apply (wf_users_id _ Hwf).
      * intros u. apply flat_map_le_1.
        -- apply (filter_key_le_1 s_id). apply (wf_slots_id _ Hwf).
        -- intros sl. simpl. lia.
  - intros r row H.
    apply in_flat_map in H. destruct H as [b [_ H]].
    apply in_flat_map in H. destruct H as [u [_ H]].
    apply in_flat_map in H. destruct H as [sl [_ H]].
    destruct H as [<-|[]]. reflexivity.
Qed.

Lemma get_all_reminders_ok s :
  coherent s -> Forall row_ok (get_all_reminders s).
Proof.
  intros [Hwf Hpar]. apply Forall_forall. intros row Hrow.
  apply in_get_all_reminders in Hrow.
  destruct Hrow as [r [b [u [sl [Hr [Hb [Eb [Hu [Eu [Hsl [Esl ->]]]]]]]]]]].
  destruct (Hpar r b Hr Hb Eb) as [u' [sl' [T [_ [_ [Hsl' [Esl' [Hp [Hge Hrun]]]]]]]]].
  assert (sl' = sl).
  { apply (NoDup_map_eq s_id (slots s)); auto.
    - apply (wf_slots_id _ Hwf).
    - congruence. }
  subst sl'. exists T. simpl. auto.
Qed.

(** ** What the handlers keep true *)

(** Rows that an operation leaves where they are. *)
Ltac same_row :=
  let x := fresh "x" in let H := fresh "H" in intros x H; exists x; auto.

Ltac same_booking :=
  let x := fresh "x" in let H := fresh "H" in intros x H; left; exists x; auto.

Lemma extends_refl s : extends s s.
Proof.
  constructor; auto; try lia.
  - same_row.
  - same_row.
  - same_booking.
Qed.

Lemma extends_trans s1 s2 s3 : extends s1 s2 -> extends s2 s3 -> extends s1 s3.
Proof.
  intros [U1 S1 B1 Q1 R1] [U2 S2 B2 Q2 R2]. constructor; auto; try lia.
  - intros u Hu. destruct (U1 u Hu) as [u' [Hu' E]].
    destruct (U2 u' Hu') as [u'' [Hu'' E']]. exists u''. split; auto. congruence.
  - intros sl Hsl. destruct (S1 sl Hsl) as [sl' [Hsl' [E1 [E2 E3]]]].
    destruct (S2 sl' Hsl') as [sl'' [Hsl'' [E1' [E2' E3']]]].
    exists sl''. repeat split; auto; congruence.
  - intros b'' Hb''. destruct (B2 b'' Hb'') as [[b' [Hb' [E1 [E2 E3]]]]|H]; [|right; lia].
    destruct (B1 b' Hb') as [[b [Hb [F1 [F2 F3]]]]|H]; [|right; lia].
    left. exists b. repeat split; auto; congruence.
Qed.

Lemma settled_extends s s' : settled s -> extends s s' -> wf s' -> settled s'.
Proof.
  intros [[Hwf Hpar] Hbound] [U S B Q R] Hwf'.
  constructor; [constructor; auto|].
  - intros r b' Hr Hb' Eb.
    destruct (B b' Hb') as [[b [Hb [E1 [E2 E3]]]]|Hnew].
    + destruct (Hpar r b (R r Hr) Hb) as [u [sl [T [Hu [Eu [Hsl [Esl [Hp [Hge Hrun]]]]]]]]];
        [congruence|].
      destruct (U u Hu) as [u' [Hu' Eu']].
      destruct (S sl Hsl) as [sl' [Hsl' [F1 [F2 F3]]]].
      exists u', sl', T. rewrite F2, F3. repeat split; auto; congruence.
    + specialize (Hbound r (R r Hr)). lia.
  - intros r Hr. specialize (Hbound r (R r Hr)). lia.
Qed.

Lemma extends_update_users (c : user -> bool) (g : user -> user) s :
  (forall u, u_id (g u) = u_id u) ->
  extends s (set_users s (map (fun u => if c u then g u else u) (users s))
                       (users_seq s)).
Proof.
  intros Hg. constructor; simpl; auto; try lia.
  - intros u Hu. exists (if c u then g u else u). split.
    + apply in_update. eauto.
    + destruct (c u); auto.
  - same_row.
  - same_booking.
Qed.

Lemma extends_update_slots (c : slot -> bool) (v : Z) s :
  extends s (set_slots s (map (fun sl => if c sl then set_available v sl else sl)
                              (slots s)) (slots_seq s)).
Proof.
  constructor; simpl; auto; try lia.
  - same_row.
  - intros sl Hsl. exists (if c sl then set_available v sl else sl). split.
    + apply in_update. eauto.
    + destruct (c sl); auto.
  - same_booking.
Qed.

Lemma extends_create_slot d t s : extends s (create_slot d t s).
Proof.
  constructor; simpl; auto; try lia.
  - same_row.
  - intros sl Hsl. exists sl. split; auto. apply in_or_app. now left.
  - same_booking.
Qed.

Lemma extends_get_or_create_user tg s : extends s (snd (get_or_create_user tg s)).
Proof.
  destruct (get_or_create_user_frame tg s) as [H1 [_ [H2 [H3 [H4 _]]]]].
  constructor; rewrite ?H1, ?H2, ?H3, ?H4; auto; try lia.
  - intros u Hu. exists u. split; auto. now apply get_or_create_user_keeps.
  - same_row.
  - same_booking.
Qed.

Lemma extends_insert_booking uid sid now s : extends s (insert_booking uid sid now s).
Proof.
  constructor; simpl; auto; try lia.
  - same_row.
  - same_row.
  - intros b H. apply in_app_iff in H. destruct H as [H|[<-|[]]].
    + left. exists b. auto.
    + right. simpl. lia.
Qed.

Lemma extends_book_slot tg sid now s : extends s (snd (book_slot tg sid now s)).
Proof.
  rewrite book_slot_unfold.
  destruct (active_bookings_of_tg s tg); simpl; [|apply extends_refl].
  pose proof (extends_get_or_create_user tg s) as H1.
  destruct (slot_by_id _ sid) as [row|]; simpl; auto.
  destruct (s_is_available row =? 0); simpl; auto.
  eapply extends_trans; [exact H1|].
  eapply extends_trans; [|apply extends_insert_booking].
  apply extends_update_slots.
Qed.

Lemma extends_cancel_booking bid s : extends s (snd (cancel_booking bid s)).
Proof.
  rewrite cancel_booking_unfold.
  destruct (find _ (bookings s)) as [row|]; simpl; [|apply extends_refl].
  eapply extends_trans; [|apply extends_update_slots].
  constructor; simpl; auto; try lia.
  - same_row.
  - same_row.
  - intros b H. apply in_update in H. destruct H as [x [Hx ->]].
    left. exists x. destruct (b_id x =? bid); auto.
Qed.

Lemma extends_delete_reminder bid s : extends s (snd (delete_reminder bid s)).
Proof.
  unfold delete_reminder.
  destruct (find _ (reminders s)) as [row|]; simpl; [|apply extends_refl].
  constructor; simpl; auto; try lia.
  - same_row.
  - same_row.
  - same_booking.
  - intros r H. apply filter_In in H. tauto.
Qed.

Lemma settled_save_reminder s b u sl T jid :
  settled s -> In b (bookings s) ->
  In u (users s) -> u_id u = b_user_id b ->
  In sl (slots s) -> s_id sl = b_slot_id b ->
  slot_datetime (s_date sl) (s_time sl) = Some T -> hours24 <= T ->
  settled (save_reminder (b_id b) (T - hours24) jid s).
Proof.
  intros [[Hwf Hpar] Hbound] Hb Hu Eu Hsl Esl Hp Hge.
  constructor; [constructor|].
  - now apply wf_save_reminder.
  - intros r b' Hr Hb' Eb'. simpl in Hr, Hb'. apply in_app_iff in Hr.
    destruct Hr as [Hr|[<-|[]]].
    + apply filter_In in Hr. destruct Hr as [Hr _]. now apply (Hpar r b').
    + simpl in Eb'.
      assert (b' = b).
      { apply (NoDup_map_eq b_id (bookings s)); auto. apply (wf_bookings_id _ Hwf). }
      subst b'. exists u, sl, T. simpl. repeat split; auto.
  - intros r Hr. simpl in *. apply in_app_iff in Hr.
    destruct Hr as [Hr|[<-|[]]].
    + apply filter_In in Hr. destruct Hr as [Hr _]. now apply Hbound.
    + simpl. now apply (wf_bookings_le _ Hwf).
Qed.

Lemma settled_init : settled init.
Proof.
  constructor; [constructor|].
  - apply wf_init.
  - intros r b [].
  - intros r [].
Qed.

Lemma settled_confirm_booking from_user chosen name phone now_book now_sched w :
  settled (w_db w) ->
  settled (w_db (snd (confirm_booking from_user chosen name phone
                                      now_book now_sched w))).
Proof.
  intros Hs. unfold confirm_booking. destruct chosen as [slot_id|]; simpl; auto.
  set (d1 := update_user_info from_user name phone (w_db w)).
  assert (Hs1 : settled d1).
  { apply (settled_extends (w_db w)); auto.
    - unfold d1, update_user_info. now apply extends_update_users.
    - apply wf_update_user_info. apply Hs. }
  pose proof (book_slot_returns from_user slot_id now_book d1) as Hret.
  assert (Hs2 : settled (snd (book_slot from_user slot_id now_book d1))).
  { apply (settled_extends d1); auto.
    - apply extends_book_slot.
    - apply wf_book_slot. apply Hs1. }
  destruct (book_slot from_user slot_id now_book d1) as [[bid|] d2];
    simpl in *; auto.
  destruct (Hret bid eq_refl) as [b [Hb [Eb Esl]]].
  unfold get_slot. destruct (slot_by_id d2 slot_id) as [sl|] eqn:Hsl; simpl; auto.
  apply slot_by_id_some in Hsl. destruct Hsl as [Hsl Eid].
  destruct (schedule_reminder bid from_user (s_date sl) (s_time sl) now_sched
              (mkWorld d2 (w_jobs w))) as [w'|e] eqn:Hsch; simpl; auto.
  apply schedule_reminder_ok in Hsch.
  destruct Hsch as [->|[T [Hp [Hge ->]]]]; simpl; auto.
  pose proof (wf_bookings_user _ (coh_wf _ (set_coherent _ Hs2)) b Hb) as Hu.
  apply in_map_iff in Hu. destruct Hu as [u [Eu Hu]].
  rewrite <- Eb. apply (settled_save_reminder d2 b u sl T); auto. congruence.
Qed.

Lemma settled_user_cancel_booking bid w :
  settled (w_db w) -> settled (w_db (snd (user_cancel_booking bid w))).
Proof.
  intros Hs. rewrite user_cancel_booking_db.
  assert (Hs1 : settled (snd (delete_reminder bid (w_db w)))).
  { apply (settled_extends (w_db w)); auto.
    - apply extends_delete_reminder.
    - apply wf_delete_reminder. apply Hs. }
  apply (settled_extends (snd (delete_reminder bid (w_db w)))); auto.
  - apply extends_cancel_booking.
  - apply wf_cancel_booking. apply Hs1.
Qed.

Lemma settled_add_times dt parts created s :
  settled s -> settled (snd (add_times dt parts created s)).
Proof.
  revert created s. induction parts as [|p rest IH]; intros created s Hs; simpl; auto.
  destruct (strptime_HM p) as [tm|]; auto.
  apply IH. apply (settled_extends s); auto.
  - apply extends_create_slot.
  - apply wf_create_slot. apply Hs.
Qed.

Lemma settled_restore_loop now now_of rows w s0 :
  settled (w_db w) ->
  users (w_db w) = users s0 -> slots (w_db w) = slots s0 ->
  bookings (w_db w) = bookings s0 ->
  (forall row, In row rows -> In row (get_all_reminders s0)) ->
  settled (w_db (snd (restore_loop now now_of rows w))).
Proof.
  revert w. induction rows as [|r rest IH]; intros w Hs Hu Hsl Hb Hrows; simpl; auto.
  assert (Hrest : forall row, In row rest -> In row (get_all_reminders s0))
    by (intros row H; apply Hrows; now right).
  destruct (negb (status_eqb (row_status r) active) || (row_run_at r <=? now)).
  - destruct (delete_reminder_frame (row_booking_id r) (w_db w)) as [F1 [F2 F3]].
    apply IH; simpl; auto; try congruence.
    apply (settled_extends (w_db w)); auto.
    + apply extends_delete_reminder.
    + apply wf_delete_reminder. apply Hs.
  - destruct (schedule_reminder _ _ _ _ _ w) as [w'|e] eqn:Hsch; simpl; auto.
    apply schedule_reminder_ok in Hsch.
    destruct Hsch as [->|[T [Hp [Hge ->]]]]; [now apply IH|].
    apply IH; simpl; auto.
    assert (Hin : In r (get_all_reminders s0)) by (apply Hrows; now left).
    apply in_get_all_reminders in Hin.
    destruct Hin as [rm [b [u [sl [_ [Hbin [Eb [Huin [Eu [Hslin [Esl ->]]]]]]]]]]].
    simpl in *. rewrite <- Eb.
    apply (settled_save_reminder (w_db w) b u sl T); auto; congruence.
Qed.

Lemma settled_startup now now_of s :
  settled s -> settled (w_db (snd (startup now now_of s))).
Proof.
  intros Hs. unfold startup, restore_reminders.
  apply (settled_restore_loop now now_of _ (mkWorld s []) s); auto.
Qed.

Lemma settled_handle e w : settled (w_db w) -> settled (w_db (handle e w)).
Proof.
  intros Hs. destruct e; cbn [handle w_db].
  - now apply settled_confirm_booking.
  - now apply settled_user_cancel_booking.
  - unfold admin_cancel_booking_do.
    destruct (get_booking_info booking_id (w_db w)); simpl; auto.
    now apply settled_user_cancel_booking.
  - unfold admin_add_times.
    destruct (negb (from_user =? admin_id)); simpl; auto.
    destruct admin_day as [dt|]; simpl; auto.
    pose proof (settled_add_times dt (time_parts text) 0 (w_db w) Hs) as H.
    destruct (add_times dt (time_parts text) 0 (w_db w)); simpl in *; auto.
  - unfold admin_close_day_finish.
    destruct (negb (from_user =? admin_id)); simpl; auto.
    apply (settled_extends (w_db w)); auto.
    + unfold close_day. apply extends_update_slots.
    + apply wf_close_day. apply Hs.
  - now apply settled_startup.
Qed.

Lemma live_settled w : live w -> settled (w_db w).
Proof.
  induction 1; [apply settled_init | now apply settled_handle].
Qed.

Lemma live_coherent w : live w -> coherent (w_db w).
Proof. intros H. apply set_coherent. now apply live_settled. Qed.

Lemma live_play_from w events : live w -> live (play_from w events).
Proof.
  revert w. induction events as [|e rest IH]; simpl; intros w Hw; auto.
  apply IH. now apply live_step.
Qed.

Lemma live_play events : live (play events).
Proof. apply live_play_from. apply live_init. Qed.

(** * The claims *)

(** ** C1: the available flag and active reservations *)

(** C1 (corrected).  In every state reached from the new database by
    operations taken from [allowed]: a slot that an active reservation
    references has its available flag off, and at most one active
    reservation references a slot.  When [allowed] leaves out close_day
    the flag of every slot is exactly the negation of "some active
    reservation references this slot". *)
Theorem slot_flag_invariant allowed s :
  reachable_by allowed s ->
  (forall sl, In sl (slots s) ->
     has_active_booking s (s_id sl) = true -> slot_available sl = false) /\
  (forall slot_id, (List.length (active_on_slot s slot_id) <= 1)%nat) /\
  ((forall o, allowed o = true -> not_close_day o = true) ->
   flag_matches_bookings s).
Proof.
  intros Hr. pose proof (reachable_by_wf _ _ Hr) as Hwf.
  split; [|split].
  - intros sl Hin Hact. unfold slot_available.
    rewrite (wf_active_flag _ Hwf sl Hin Hact). reflexivity.
  - intros slot_id. now apply active_on_slot_le_1.
  - intros Hall sl Hin. unfold slot_available.
    pose proof (reachable_taken_only_if_booked _ _ Hall Hr) as Ht.
    destruct (wf_slots_flag _ Hwf sl Hin) as [E|E]; rewrite E; simpl.
    + now rewrite (Ht sl Hin E).
    + destruct (has_active_booking s (s_id sl)) eqn:Ha; auto.
      rewrite (wf_active_flag _ Hwf sl Hin Ha) in E. discriminate.
Qed.

Lemma slot_flag_invariant_witness :
  let s := run [OpCreateSlot d0 t0; OpBookSlot 100 1 5; OpCancelBooking 1;
                OpBookSlot 200 1 6] in
  reachable_by not_close_day s /\ flag_matches_bookings s.
Proof.
  intros s.
  assert (Hr : reachable_by not_close_day s) by (apply reachable_by_run; reflexivity).
  split; [exact Hr|].
  apply (slot_flag_invariant not_close_day s Hr). auto.
Defined.

(** C1 as stated fails: after create_slot and close_day, two of the four
    operations it names, the slot is unavailable and nothing is booked. *)
Lemma closed_day_counterexample :
  let s := run [OpCreateSlot d0 t0; OpCloseDay d0] in
  reachable_by ledger_op s /\ ~ flag_matches_bookings s.
Proof.
  intros s. split.
  - apply reachable_by_run. reflexivity.
  - intros H. specialize (H (mkSlot 1 "2025-06-10" "14:00" 0)).
    assert (Hin : In (mkSlot 1 "2025-06-10" "14:00" 0) (slots s)) by (left; reflexivity).
    specialize (H Hin). discriminate H.
Qed.

(** ** C2: one active reservation per client *)

(** C2 (corrected).  In every state reached by store operations that
    run one after the other, each to its end, a client has at most one
    active reservation, and [book_slot] for a client who has one returns
    None and leaves the store as it is. *)
Theorem one_active_booking_per_client s :
  reachable s ->
  (forall tg_id, (List.length (active_bookings_of_tg s tg_id) <= 1)%nat) /\
  (forall tg_id slot_id now,
     active_bookings_of_tg s tg_id <> [] ->
     book_slot tg_id slot_id now s = (None, s)).
Proof.
  intros Hr. split.
  - intros tg. apply active_bookings_of_tg_le_1. now apply (reachable_by_wf any_op).
  - intros tg sid now H. unfold book_slot.
    destruct (active_bookings_of_tg s tg); [congruence | reflexivity].
Qed.

Lemma one_active_booking_per_client_witness :
  let s := run [OpCreateSlot d0 t0; OpCreateSlot d0 t1; OpBookSlot 100 1 5] in
  (List.length (active_bookings_of_tg s 100) <= 1)%nat /\
  book_slot 100 2 6 s = (None, s).
Proof.
  intros s.
  assert (Hr : reachable s) by (apply reachable_by_run; reflexivity).
  destruct (one_active_booking_per_client s Hr) as [H1 H2].
  split; [apply H1 | apply H2; discriminate].
Defined.

(** C2 as stated fails: [book_slot] keeps no lock between its check
    and its write.  A client calls it for slot 1 and, while that call
    waits after its check, calls it for slot 2; the second call runs to
    its end, the first goes on, both return an id, and the store holds
    two active reservations of the client. *)
Lemma overtaken_call_books_twice :
  let s := run [OpCreateSlot d0 t0; OpCreateSlot d0 t1] in
  let res := interleave overtaken [start 100 1 5; start 100 2 6] s in
  active_bookings_of_tg s 100 = [] /\
  map outcome (fst res) = [Some (Some 2); Some (Some 1)] /\
  active_bookings_of_tg (snd res) 100
  = [mkBooking 1 1 2 active 6; mkBooking 2 1 1 active 5] /\
  List.length (active_bookings_of_tg (snd res) 100) = 2%nat.
Proof. cbv zeta. repeat split; reflexivity. Qed.

(** Scenario B *)
Example scenario_B :
  let s := run [OpCreateSlot d0 t0; OpCreateSlot d0 t1; OpBookSlot 100 1 5] in
  option_map slot_available (slot_by_id s 2) = Some true /\
  book_slot 100 2 6 s = (None, s).
Proof. split; reflexivity. Qed.

(** ** C3: a reservation that succeeds *)

(** C3.  When the client has no active reservation and the slot exists
    with its flag on, [book_slot] returns the id of the one reservation
    it inserts (active, for this client and this slot) and turns the
    flag of that slot off; any later [book_slot] on the same slot
    returns None and changes neither slots nor bookings. *)
Theorem book_slot_succeeds s tg_id slot_id now sl :
  reachable s ->
  active_bookings_of_tg s tg_id = [] ->
  slot_by_id s slot_id = Some sl ->
  slot_available sl = true ->
  exists user_id s',
    book_slot tg_id slot_id now s = (Some (bookings_seq s + 1), s') /\
    (exists u, In u (users s') /\ u_id u = user_id /\ u_tg_id u = tg_id) /\
    bookings s' =
      bookings s ++ [mkBooking (bookings_seq s + 1) user_id slot_id active now] /\
    slots s' = map (fun x => if s_id x =? slot_id then set_available 0 x else x)
                   (slots s) /\
    slot_by_id s' slot_id = Some (set_available 0 sl) /\
    (forall tg_id' now',
        fst (book_slot tg_id' slot_id now' s') = None /\
        slots (snd (book_slot tg_id' slot_id now' s')) = slots s' /\
        bookings (snd (book_slot tg_id' slot_id now' s')) = bookings s').
Proof.
  intros Hr Hact Hslot Hav.
  pose proof (reachable_by_wf _ _ Hr) as Hwf.
  apply Z.eqb_eq in Hav.
  destruct (get_or_create_user tg_id s) as [uid s1] eqn:Hg.
  destruct (get_or_create_user_spec _ _ _ _ Hwf Hg)
    as [Hwf1 [Hsl [Hsq [Hb [Hbq [_ [_ [[u [Hu [Eu Et]]] [_ [_ Hfresh]]]]]]]]]].
  specialize (Hfresh Hact).
  assert (Hslot1 : slot_by_id s1 slot_id = Some sl)
    by now rewrite (slot_by_id_frame _ _ _ Hsl).
  exists uid, (insert_booking uid slot_id now (update_slot_available slot_id 0 s1)).
  assert (Hres : book_slot tg_id slot_id now s =
                 (Some (bookings_seq s + 1),
                  insert_booking uid slot_id now (update_slot_available slot_id 0 s1))).
  { rewrite book_slot_unfold, Hact, Hg. cbv zeta. simpl fst. simpl snd.
    rewrite Hslot1, Hav. simpl (1 =? 0). cbv iota.
    f_equal. unfold active_booking_of, insert_booking. simpl.
    rewrite find_app_fresh.
    - simpl. rewrite !Z.eqb_refl. simpl. now rewrite Hbq.
    - apply find_none_iff. intros b Hin. rewrite Hb in Hin.
      destruct (is_active b) eqn:Ha; [|apply andb_false_r].
      specialize (Hfresh b Hin Ha). apply Z.eqb_neq in Hfresh.
      now rewrite Hfresh. }
  split; [exact Hres|].
  split; [exists u; simpl; auto|].
  split; [simpl; now rewrite Hb, Hbq|].
  split; [simpl; now rewrite Hsl|].
  assert (Hnew : slot_by_id (insert_booking uid slot_id now
                               (update_slot_available slot_id 0 s1)) slot_id
                 = Some (set_available 0 sl)).
  { rewrite (slot_by_id_frame (update_slot_available slot_id 0 s1)); auto.
    now apply slot_by_id_update_slot_available. }
  split; [exact Hnew|].
  intros tg' now'.
  assert (Hnone : fst (book_slot tg' slot_id now'
                         (insert_booking uid slot_id now
                            (update_slot_available slot_id 0 s1))) = None).
  { apply book_slot_unavailable. unfold unavailable. now rewrite Hnew. }
  split; [exact Hnone|].
  destruct (book_slot_none _ _ _ _ Hnone) as [H1 [H2 _]]. auto.
Qed.

Lemma book_slot_succeeds_witness :
  let s := run [OpCreateSlot d0 t0] in
  fst (book_slot 100 1 5 s) = Some 1.
Proof.
  intros s.
  assert (Hr : reachable s) by (apply reachable_by_run; reflexivity).
  destruct (book_slot_succeeds s 100 1 5 (mkSlot 1 "2025-06-10" "14:00" 1) Hr
              eq_refl eq_refl eq_refl) as [uid [s' [H _]]].
  rewrite H. reflexivity.
Defined.

(** Scenario A *)
Example scenario_A :
  let s := run [OpCreateSlot d0 t0] in
  let '(x, s1) := book_slot 100 1 5 s in
  let '(y, s2) := book_slot 200 1 6 s1 in
  x = Some 1 /\ option_map slot_available (slot_by_id s1 1) = Some false /\
  map b_status (bookings s1) = [active] /\
  y = None /\ bookings s2 = bookings s1.
Proof. repeat split; reflexivity. Qed.

(** ** C4: the two causes of failure *)

(** C4 (corrected).  [book_slot] returns the same None when the client
    already has an active reservation and when the slot is missing or
    unavailable, and [confirm_booking] answers both with the one message
    [BookingFailed]. *)
Theorem reserve_failures_share_one_outcome
    from_user slot_id name phone now_book now_sched w :
  active_bookings_of_tg (w_db w) from_user <> [] \/ unavailable (w_db w) slot_id ->
  fst (book_slot from_user slot_id now_book (w_db w)) = None /\
  fst (confirm_booking from_user (Some slot_id) name phone now_book now_sched w)
    = Ok BookingFailed.
Proof.
  intros H. split; [now apply book_slot_fails|].
  unfold confirm_booking.
  assert (H1 : fst (book_slot from_user slot_id now_book
                      (update_user_info from_user name phone (w_db w))) = None).
  { apply book_slot_fails. destruct H as [H|H]; [left|right].
    - rewrite (active_bookings_of_tg_same_users (w_db w)); auto.
      apply update_user_info_keys.
    - unfold unavailable in *. now rewrite (slot_by_id_frame (w_db w)). }
  destruct (book_slot from_user slot_id now_book _) as [r d2].
  simpl in H1. subst r. reflexivity.
Qed.

Lemma reserve_failures_share_one_outcome_witness :
  let s := run [OpCreateSlot d0 t0; OpCreateSlot d0 t1; OpBookSlot 100 1 5] in
  fst (confirm_booking 100 (Some 2) "Ann" "555" 7 8 (mkWorld s [])) = Ok BookingFailed.
Proof.
  intros s.
  apply (reserve_failures_share_one_outcome 100 2 "Ann" "555" 7 8 (mkWorld s [])).
  left. discriminate.
Defined.

(** C4 as stated fails: a client who is already booked and a client
    whose slot is taken get an identical result and an identical
    message. *)
Lemma reserve_failures_indistinguishable :
  let s_booked := run [OpCreateSlot d0 t0; OpCreateSlot d0 t1; OpBookSlot 100 1 5] in
  let s_taken := run [OpCreateSlot d0 t0; OpBookSlot 200 1 5] in
  (* the client is already booked, the slot asked for is free *)
  active_bookings_of_tg s_booked 100 <> [] /\
  option_map slot_available (slot_by_id s_booked 2) = Some true /\
  (* the client is free, the slot asked for is taken *)
  active_bookings_of_tg s_taken 100 = [] /\
  option_map slot_available (slot_by_id s_taken 1) = Some false /\
  (* one result and one message for both *)
  fst (book_slot 100 2 7 s_booked) = fst (book_slot 100 1 7 s_taken) /\
  fst (confirm_booking 100 (Some 2) "Ann" "555" 7 8 (mkWorld s_booked [])) =
  fst (confirm_booking 100 (Some 1) "Ann" "555" 7 8 (mkWorld s_taken [])).
Proof.
  cbv zeta. repeat split; try reflexivity. discriminate.
Qed.

(** ** C5: cancellation *)

(** C5.  [cancel_booking] on an id that no active reservation carries
    returns None and leaves the store as it is.  On an active
    reservation whose slot exists it marks the reservation cancelled,
    turns the flag of its slot on and returns the date and time of that
    slot.  After [user_cancel_booking] no reminder record of the
    reservation is left. *)
Theorem cancel_booking_law s booking_id :
  reachable s ->
  ((forall b, In b (bookings s) -> b_id b = booking_id -> is_active b = false) ->
   cancel_booking booking_id s = (None, s)) /\
  (forall b sl,
     In b (bookings s) -> b_id b = booking_id -> is_active b = true ->
     slot_by_id s (b_slot_id b) = Some sl ->
     exists s',
       cancel_booking booking_id s = (Some (s_date sl, s_time sl), s') /\
       bookings s' = cancel_rows booking_id (bookings s) /\
       In (set_status cancelled b) (bookings s') /\
       slots s' = map (fun x => if s_id x =? b_slot_id b
                                then set_available 1 x else x) (slots s) /\
       slot_by_id s' (b_slot_id b) = Some (set_available 1 sl) /\
       users s' = users s /\ reminders s' = reminders s) /\
  (forall jobs,
     let w' := snd (user_cancel_booking booking_id (mkWorld s jobs)) in
     (forall r, In r (reminders (w_db w')) -> r_booking_id r <> booking_id) /\
     (forall b sl,
        In b (bookings s) -> b_id b = booking_id -> is_active b = true ->
        slot_by_id s (b_slot_id b) = Some sl ->
        fst (user_cancel_booking booking_id (mkWorld s jobs))
          = CancelDone (s_date sl) (s_time sl) /\
        slot_by_id (w_db w') (b_slot_id b) = Some (set_available 1 sl) /\
        In (set_status cancelled b) (bookings (w_db w')))).
Proof.
  intros Hr. pose proof (reachable_by_wf _ _ Hr) as Hwf.
  split; [|split].
  - intros H. unfold cancel_booking.
    destruct (find _ (bookings s)) as [row|] eqn:Hrow; auto.
    apply find_some in Hrow. destruct Hrow as [Hin Hrow].
    apply andb_true_iff in Hrow. destruct Hrow as [Eid Hact].
    apply Z.eqb_eq in Eid. rewrite (H row Hin Eid) in Hact. discriminate.
  - intros b sl Hin Eid Hact Hslot.
    exists (update_slot_available (b_slot_id b) 1
              (set_bookings s (cancel_rows booking_id (bookings s)) (bookings_seq s))).
    split; [apply cancel_booking_active; assumption|].
    simpl. repeat split; auto.
    + now apply cancel_rows_in.
    + apply slot_by_id_update_slot_available.
      now rewrite (slot_by_id_frame s).
  - intros jobs w'. split.
    + intros r Hin. unfold w' in Hin. rewrite user_cancel_booking_db in Hin.
      rewrite cancel_booking_reminders in Hin. simpl in Hin.
      now apply delete_reminder_gone in Hin.
    + intros b sl Hin Eid Hact Hslot.
      assert (Hwf1 : wf (snd (delete_reminder booking_id s)))
        by now apply wf_delete_reminder.
      destruct (delete_reminder_frame booking_id s) as [Hu [Hs Hb]].
      assert (Hc := cancel_booking_active (snd (delete_reminder booking_id s))
                      booking_id b sl Hwf1).
      rewrite Hb in Hc. specialize (Hc Hin Eid Hact).
      rewrite (slot_by_id_frame s) in Hc; auto. specialize (Hc Hslot).
      unfold w'. rewrite user_cancel_booking_db. simpl w_db.
      unfold user_cancel_booking. simpl w_db.
      destruct (delete_reminder booking_id s) as [found d1]. simpl in *.
      rewrite Hc. simpl. repeat split; auto.
      * apply slot_by_id_update_slot_available.
        now rewrite (slot_by_id_frame s).
      * now apply cancel_rows_in.
Qed.

Lemma cancel_booking_law_witness :
  let s := run [OpCreateSlot d0 t0; OpBookSlot 100 1 5] in
  cancel_booking 7 s = (None, s) /\
  fst (cancel_booking 1 s) = Some ("2025-06-10", "14:00").
Proof.
  intros s.
  assert (Hr : reachable s) by (apply reachable_by_run; reflexivity).
  destruct (cancel_booking_law s 7 Hr) as [H _].
  destruct (cancel_booking_law s 1 Hr) as [_ [H' _]].
  split.
  - apply H. intros b [<-|[]] E. discriminate E.
  - assert (Hin : In (mkBooking 1 1 1 active 5) (bookings s)) by (left; reflexivity).
    destruct (H' (mkBooking 1 1 1 active 5) (mkSlot 1 "2025-06-10" "14:00" 0)
                 Hin eq_refl eq_refl eq_refl) as [s' [E _]].
    rewrite E. reflexivity.
Defined.

(** Scenario C *)
Example scenario_C :
  let w := play [ EvAddTimes 7 7 (Some d0) "14:00";
                  EvConfirm 100 (Some 1) "Ann" "555"
                    (datetime_of 2025 6 1 9 0) (datetime_of 2025 6 1 9 0) ] in
  let '(reply, w') := user_cancel_booking 1 w in
  List.length (reminders (w_db w)) = 1%nat /\
  reply = CancelDone "2025-06-10" "14:00" /\
  option_map slot_available (slot_by_id (w_db w') 1) = Some true /\
  reminders (w_db w') = [] /\ w_jobs w' = [].
Proof. vm_compute. repeat split; reflexivity. Qed.

(** ** C6: the fire time of a reminder *)



(** Scenario E *)
Example reminder_two_hours_before :
  let T := datetime_of 2025 6 10 14 0 in
  schedule_reminder 1 100 "2025-06-10" "14:00" (T - 2 * 3600 * us_per_second)
                    (mkWorld init []) = Ok (mkWorld init []).
Proof. reflexivity. Qed.

Example reminder_two_days_before :
  let T := datetime_of 2025 6 10 14 0 in
  let w := mkWorld (run [OpCreateSlot d0 t0]) [] in
  let w' := snd (confirm_booking 100 (Some 1) "Ann" "555" 0
                                 (T - 48 * 3600 * us_per_second) w) in
  map r_run_at (reminders (w_db w')) = [T - hours24] /\
  map job_id (w_jobs w') = ["reminder_1"].
Proof. vm_compute. split; reflexivity. Qed.

(** ** C7: reconciliation at start-up *)

(** C7 (corrected).  On a coherent store (every store the handlers
    reach) the start-up pass ends without an exception.  A reminder
    record whose reservation is not active, or whose fire time is not
    after the clock reading that the pass takes before its loop, is
    deleted and has no job.  A record whose reservation is active and
    whose fire time is after that reading and after the reading that
    [schedule_reminder] takes for it is kept and has exactly one job,
    at its fire time.  A record of an active reservation whose fire
    time is after the first reading and not after the second stays in
    the store and has no job. *)
Theorem restore_reminders_reconciles s now now_of :
  coherent s ->
  exists w',
    startup now now_of s = (Ok tt, w') /\
    forall r b,
      In r (reminders s) -> In b (bookings s) -> b_id b = r_booking_id r ->
      (is_active b = false \/ r_run_at r <= now ->
         reminders_for (w_db w') (b_id b) = [] /\
         jobs_for (w_jobs w') (b_id b) = []) /\
      (is_active b = true -> now < r_run_at r ->
       now_of (b_id b) < r_run_at r ->
         (exists id, reminders_for (w_db w') (b_id b) =
            [mkReminder id (b_id b) (r_run_at r) (reminder_job_id (b_id b))]) /\
         (exists tg time_str, jobs_for (w_jobs w') (b_id b) =
            [mkJob (reminder_job_id (b_id b)) (r_run_at r) tg time_str])) /\
      (is_active b = true -> now < r_run_at r ->
       r_run_at r <= now_of (b_id b) ->
         reminders_for (w_db w') (b_id b) = reminders_for s (b_id b) /\
         In r (reminders_for (w_db w') (b_id b)) /\
         jobs_for (w_jobs w') (b_id b) = []).
Proof.
  intros Hc. pose proof (coh_wf _ Hc) as Hwf.
  destruct (restore_loop_spec now now_of (get_all_reminders s) (mkWorld s [])
              (get_all_reminders_keys s Hwf) (get_all_reminders_ok s Hc))
    as [w' [Hrun [_ Hrows]]].
  exists w'. split; [exact Hrun|].
  intros r b Hr Hb Eb.
  destruct (coh_parent _ Hc r b Hr Hb Eb)
    as [u [sl [T [Hu [Eu [Hsl [Esl _]]]]]]].
  set (row := mkRow (r_booking_id r) (r_run_at r) (b_status b) (u_tg_id u)
                    (s_date sl) (s_time sl)).
  assert (Hin : In row (get_all_reminders s)).
  { apply in_get_all_reminders. exists r, b, u, sl. tauto. }
  destruct (Hrows row Hin) as [H1 [H2 H3]]. simpl in H1, H2, H3. rewrite Eb.
  split; [|split].
  - intros H. apply H1. destruct H as [H|H]; [left|right]; auto.
    now apply is_active_false.
  - intros Ha Hlt Hlt'. apply is_active_true in Ha.
    destruct (H2 Ha Hlt Hlt') as [H4 H5].
    split; eauto.
  - intros Ha Hlt Hle. apply is_active_true in Ha.
    destruct (H3 Ha Hlt Hle) as [H4 H5].
    split; [exact H4|]. split; [|exact H5].
    rewrite H4. unfold reminders_for. apply filter_In.
    split; [exact Hr|]. now apply Z.eqb_eq.
Qed.

Lemma restore_reminders_reconciles_witness :
  let s := w_db (play demo_events) in
  let now := datetime_of 2025 6 9 15 0 in
  exists w',
    startup now (fun _ => now) s = (Ok tt, w') /\
    reminders_for (w_db w') 1 = [] /\ jobs_for (w_jobs w') 1 = [] /\
    List.length (reminders_for (w_db w') 2) = 1%nat /\
    List.length (jobs_for (w_jobs w') 2) = 1%nat.
Proof.
  intros s now.
  destruct (restore_reminders_reconciles s now (fun _ => now)
              (live_coherent _ (live_play demo_events)))
    as [w' [Hrun Hrec]].
  exists w'. split; [exact Hrun|].
  set (r1 := mkReminder 1 1 (datetime_of 2025 6 9 14 0) "reminder_1").
  set (b1 := mkBooking 1 1 1 active (datetime_of 2025 6 1 9 0)).
  set (r2 := mkReminder 2 2 (datetime_of 2025 6 9 16 30) "reminder_2").
  set (b2 := mkBooking 2 2 2 active (datetime_of 2025 6 1 9 5)).
  assert (Hr1 : In r1 (reminders s)) by (vm_compute; left; reflexivity).
  assert (Hb1 : In b1 (bookings s)) by (vm_compute; left; reflexivity).
  assert (Hr2 : In r2 (reminders s)) by (vm_compute; right; left; reflexivity).
  assert (Hb2 : In b2 (bookings s)) by (vm_compute; right; left; reflexivity).
  destruct (Hrec r1 b1 Hr1 Hb1 eq_refl) as [H1 _].
  destruct (Hrec r2 b2 Hr2 Hb2 eq_refl) as [_ [H2 _]].
  destruct H1 as [H1a H1b]; [right; vm_compute; discriminate|].
  destruct H2 as [[id Hr] [tg [tm Hj]]];
    [reflexivity | vm_compute; reflexivity | vm_compute; reflexivity |].
  simpl b_id in *. rewrite H1a, H1b, Hr, Hj. repeat split; reflexivity.
Defined.

(** C7 as stated fails: the pass reads the clock once before its loop
    and [schedule_reminder] reads it again for each record.  The record
    of reservation 2 (active, fire time 16:30) is met by a pass whose
    reading is one microsecond before 16:30 and by a second reading at
    16:30: its fire time is in the future for the pass, so it is not
    deleted, and not in the future for [schedule_reminder], so no job
    is registered. *)
Lemma restore_reminders_between_readings :
  let s := w_db (play demo_events) in
  let run_at := datetime_of 2025 6 9 16 30 in
  let res := startup (run_at - 1) (fun _ => run_at) s in
  In (mkBooking 2 2 2 active (datetime_of 2025 6 1 9 5)) (bookings s) /\
  reminders_for s 2 = [mkReminder 2 2 run_at "reminder_2"] /\
  fst res = Ok tt /\
  reminders_for (w_db (snd res)) 2 = [mkReminder 2 2 run_at "reminder_2"] /\
  jobs_for (w_jobs (snd res)) 2 = [] /\
  w_jobs (snd res) = [].
Proof. cbv zeta. repeat split; vm_compute; auto. Qed.

(** ** C8: concurrent reservations *)

(** C8 (corrected).  When the [book_slot] calls run one after the
    other, at most one of the calls for one slot succeeds, at most one
    of the calls of one client succeeds, and exactly one (the first)
    succeeds when the first caller is free and the slot is available. *)
Theorem sequential_reserve_exclusive calls s :
  (forall slot_id, Forall (fun c => call_slot c = slot_id) calls ->
     (successes (fst (sequential calls s)) <= 1)%nat) /\
  (forall tg_id, Forall (fun c => call_tg c = tg_id) calls ->
     (successes (fst (sequential calls s)) <= 1)%nat) /\
  (forall tg_id slot_id now rest sl,
     calls = (tg_id, slot_id, now) :: rest ->
     active_bookings_of_tg s tg_id = [] ->
     slot_by_id s slot_id = Some sl -> s_is_available sl <> 0 ->
     Forall (fun c => call_slot c = slot_id) rest \/
     Forall (fun c => call_tg c = tg_id) rest ->
     (exists bid, hd None (fst (sequential calls s)) = Some bid) /\
     successes (fst (sequential calls s)) = 1%nat).
Proof.
  split; [|split].
  - intros sid. apply sequential_same_slot.
  - intros tg. apply sequential_same_client.
  - intros tg sid now rest sl -> Ha Hs Hf Hrest.
    destruct (book_slot_free tg sid now s sl Ha Hs Hf) as [bid Hb].
    rewrite sequential_cons. simpl fst. simpl hd. rewrite Hb.
    split; [eauto|].
    unfold successes. simpl. f_equal.
    destruct Hrest as [Hrest|Hrest].
    + apply (sequential_unavailable sid); auto.
      eapply book_slot_success_unavailable; eauto.
    + apply (sequential_busy tg); auto.
      eapply book_slot_success_busy; eauto.
Qed.

Lemma sequential_reserve_exclusive_witness :
  let s := run [OpCreateSlot d0 t0] in
  successes (fst (sequential [(100, 1, 5); (200, 1, 6); (300, 1, 7)] s)) = 1%nat.
Proof.
  intros s.
  destruct (sequential_reserve_exclusive [(100, 1, 5); (200, 1, 6); (300, 1, 7)] s)
    as [_ [_ H]].
  apply (H 100 1 5 [(200, 1, 6); (300, 1, 7)] (mkSlot 1 "2025-06-10" "14:00" 1));
    try reflexivity.
  - discriminate.
  - left. repeat constructor.
Defined.

(** C8 as stated fails: when both calls run their checks before either
    writes, both succeed, for two clients on one slot and for one client
    on two slots. *)
Lemma interleaved_reserve_double_books :
  let s := run [OpCreateSlot d0 t0; OpCreateSlot d0 t1] in
  let same_slot := interleave checks_first [start 100 1 5; start 200 1 6] s in
  let same_client := interleave checks_first [start 100 1 5; start 100 2 6] s in
  map outcome (fst same_slot) = [Some (Some 1); Some (Some 2)] /\
  List.length (active_on_slot (snd same_slot) 1) = 2%nat /\
  map outcome (fst same_client) = [Some (Some 1); Some (Some 2)] /\
  List.length (active_bookings_of_tg (snd same_client) 100) = 2%nat.
Proof. cbv zeta. repeat split; reflexivity. Qed.

(** ** C9: a day of slots *)

(** C9.  For the administrator [admin_add_times] reports the number of
    entries that [strptime] reads as "%H:%M" and appends one available
    slot of the chosen day for each of them, in order; the other
    entries are passed over.  For "10:00", "bad", "12:30", and for the
    message "10:00, bad, 12:30", two slots are created. *)
Theorem admin_add_times_law admin_id dt text s :
  let parts := time_parts text in
  let res := admin_add_times admin_id admin_id (Some dt) text s in
  fst res = SlotsCreated (Z.of_nat (List.length (filter parses parts))) dt /\
  slots (snd res) = slots s ++ new_slots (slots_seq s) dt (parsed_times parts) /\
  List.length (new_slots (slots_seq s) dt (parsed_times parts))
    = List.length (filter parses parts) /\
  (forall sl, In sl (new_slots (slots_seq s) dt (parsed_times parts)) ->
     s_is_available sl = 1 /\ s_date sl = isoformat dt) /\
  bookings (snd res) = bookings s /\
  fst (add_times (mkDate 2025 6 11) ["10:00"; "bad"; "12:30"] 0 init) = 2 /\
  slots (snd (add_times (mkDate 2025 6 11) ["10:00"; "bad"; "12:30"] 0 init))
    = [mkSlot 1 "2025-06-11" "10:00" 1; mkSlot 2 "2025-06-11" "12:30" 1] /\
  admin_add_times admin_id admin_id (Some (mkDate 2025 6 11))
                  "10:00, bad, 12:30" init
  = (SlotsCreated 2 (mkDate 2025 6 11),
     mkDb [] 0
          [mkSlot 1 "2025-06-11" "10:00" 1; mkSlot 2 "2025-06-11" "12:30" 1] 2
          [] 0 [] 0).
Proof.
  intros parts res. unfold res, admin_add_times.
  rewrite Z.eqb_refl. simpl negb. cbv iota.
  destruct (add_times_spec dt parts 0 s) as [H1 [H2 [H3 [H4 H5]]]].
  destruct (add_times dt (time_parts text) 0 s) as [created s'] eqn:E.
  fold parts in E. rewrite E in *. simpl in *.
  rewrite parsed_times_length in H1.
  repeat split; auto.
  - now rewrite H1.
  - rewrite <- parsed_times_length. apply new_slots_length.
  - now apply new_slots_available in H.
  - now apply new_slots_available in H.
Qed.

Example scenario_D :
  admin_add_times 7 7 (Some (mkDate 2025 6 11)) "10:00, bad, 12:30" init =
  (SlotsCreated 2 (mkDate 2025 6 11),
   mkDb [] 0
        [mkSlot 1 "2025-06-11" "10:00" 1; mkSlot 2 "2025-06-11" "12:30" 1] 2
        [] 0 [] 0).
Proof. reflexivity. Qed.

(** The decimal digits of every script are digits for [strptime]; the
    store receives the text that [strftime] writes. *)
Example scenario_D_other_digits :
  admin_add_times 7 7 (Some (mkDate 2025 6 11)) "٥:٥, 12:30" init =
  (SlotsCreated 2 (mkDate 2025 6 11),
   mkDb [] 0
        [mkSlot 1 "2025-06-11" "05:05" 1; mkSlot 2 "2025-06-11" "12:30" 1] 2
        [] 0 [] 0).
Proof. reflexivity. Qed.

(** ** C10: contact data when the reservation fails *)

(** C10 (code defect).  A first-time client confirms a slot that has
    just been taken: no slot and no booking changes, a client row is
    created, and the name and phone entered are stored nowhere. *)
Theorem confirm_booking_drops_new_contact :
  let s := run [OpCreateSlot d0 t0; OpBookSlot 200 1 5] in
  user_by_tg s 100 = None /\
  confirm_booking 100 (Some 1) "Ann" "555" 7 8 (mkWorld s []) =
    (Ok BookingFailed,
     mkWorld (mkDb (users s ++ [mkUser 2 100 None None None]) 2
                   (slots s) (slots_seq s) (bookings s) (bookings_seq s)
                   (reminders s) (reminders_seq s)) []).
Proof. cbv zeta. split; reflexivity. Qed.

(** * Further properties *)

(** ** Clients *)

Lemma map_no_match {A} (c : A -> bool) (g : A -> A) (l : list A) :
  (forall x, In x l -> c x = false) ->
  map (fun x => if c x then g x else x) l = l.
Proof.
  induction l as [|a l IH]; intros H; [reflexivity|].
  cbn [map]. rewrite (H a (or_introl eq_refl)).
  f_equal. apply IH. intros x Hx. apply H. now right.
Qed.

Lemma find_update {A} (p c : A -> bool) (g : A -> A) (l : list A) :
  (forall x, p (g x) = p x) ->
  find p (map (fun x => if c x then g x else x) l) =
  option_map (fun x => if c x then g x else x) (find p l).
Proof.
  intros Hg. induction l as [|a l IH]; [reflexivity|].
  cbn [map find]. destruct (c a) eqn:Ec.
  - rewrite Hg. destruct (p a); [cbn; now rewrite Ec | exact IH].
  - destruct (p a); [cbn; now rewrite Ec | exact IH].
Qed.

Lemma set_users_same (s : db) : set_users s (users s) (users_seq s) = s.
Proof. now destruct s. Qed.

Lemma user_by_tg_new (tg : Z) (s : db) :
  user_by_tg s tg = None ->
  user_by_tg (snd (get_or_create_user tg s)) tg =
  Some (mkUser (users_seq s + 1) tg None None None).
Proof.
  intros Hn. rewrite (get_or_create_user_fresh _ _ Hn). cbn [snd].
  unfold user_by_tg in *. cbn [users set_users].
  rewrite (find_app_fresh _ _ _ Hn). cbn [u_tg_id]. now rewrite Z.eqb_refl.
Qed.

(** X1: [get_or_create_user] called again for the same client returns the
    same id and changes nothing; the row it creates is found by the
    lookup, and a client who has a row gets no second one. *)
Theorem get_or_create_user_twice (tg : Z) (s : db) :
  let uid := fst (get_or_create_user tg s) in
  let s1 := snd (get_or_create_user tg s) in
  get_or_create_user tg s1 = (uid, s1) /\
  (exists row, user_by_tg s1 tg = Some row /\ u_id row = uid) /\
  (user_by_tg s tg <> None -> s1 = s) /\
  (user_by_tg s tg = None ->
   users s1 = users s ++ [mkUser (users_seq s + 1) tg None None None] /\
   uid = users_seq s + 1).
Proof.
  cbv zeta. destruct (user_by_tg s tg) as [row|] eqn:Hu.
  - rewrite (get_or_create_user_found _ _ _ Hu). cbn [fst snd].
    split; [|split; [|split]].
    + apply get_or_create_user_found, Hu.
    + now exists row.
    + reflexivity.
    + discriminate.
  - pose proof (user_by_tg_new _ _ Hu) as Hnew.
    rewrite (get_or_create_user_fresh _ _ Hu) in *. cbn [fst snd] in *.
    split; [|split; [|split]].
    + now rewrite (get_or_create_user_found _ _ _ Hnew).
    + eexists. split; [exact Hnew | reflexivity].
    + intros H; now elim H.
    + intros _. split; reflexivity.
Qed.

(** X2: [update_user_info] for a client without a row changes nothing
    (UPDATE ... WHERE tg_id = ? matches no row); for a client with a row
    the name and phone are then read back, and the rows of the other
    clients stay as they are. *)
Theorem update_user_info_law (tg : Z) (name phone : string) (s : db) :
  (user_by_tg s tg = None -> update_user_info tg name phone s = s) /\
  (forall row, user_by_tg s tg = Some row ->
     user_by_tg (update_user_info tg name phone s) tg =
     Some (mkUser (u_id row) tg (Some name) (Some phone)
                  (u_last_menu_message_id row))) /\
  (forall tg', tg' <> tg ->
     user_by_tg (update_user_info tg name phone s) tg' = user_by_tg s tg').
Proof.
  split; [|split].
  - intros Hn. unfold update_user_info.
    rewrite map_no_match; [apply set_users_same|].
    intros u Hu. apply Z.eqb_neq. eapply user_by_tg_none; eauto.
  - intros row Hr. unfold user_by_tg, update_user_info in *.
    cbn [users set_users].
    rewrite (find_update (fun u => u_tg_id u =? tg) (fun u => u_tg_id u =? tg)
               (fun u => mkUser (u_id u) (u_tg_id u) (Some name) (Some phone)
                                (u_last_menu_message_id u)))
      by reflexivity.
    rewrite Hr. cbn [option_map].
    destruct (find_some _ _ Hr) as [_ Ht]. rewrite Ht.
    apply Z.eqb_eq in Ht. now rewrite Ht.
  - intros tg' Hne. unfold user_by_tg, update_user_info.
    cbn [users set_users].
    rewrite (find_update (fun u => u_tg_id u =? tg') (fun u => u_tg_id u =? tg)
               (fun u => mkUser (u_id u) (u_tg_id u) (Some name) (Some phone)
                                (u_last_menu_message_id u)))
      by reflexivity.
    destruct (find _ (users s)) as [u|] eqn:Hf; [|reflexivity].
    cbn [option_map]. destruct (find_some _ _ Hf) as [_ Ht].
    apply Z.eqb_eq in Ht.
    destruct (u_tg_id u =? tg) eqn:E; [apply Z.eqb_eq in E; congruence | reflexivity].
Qed.

(** X3: [set_last_menu_message_id] followed by [get_last_menu_message_id]
    gives the id back when the client has a row; without a row the
    write is lost and the read gives None.  Other clients, and a later
    [update_user_info], do not change the value. *)
Theorem last_menu_message_id_round_trip (tg message_id : Z) (s : db) :
  (user_by_tg s tg <> None ->
   get_last_menu_message_id tg (set_last_menu_message_id tg message_id s)
   = Some message_id) /\
  (user_by_tg s tg = None ->
   set_last_menu_message_id tg message_id s = s /\
   get_last_menu_message_id tg s = None) /\
  (forall tg', tg' <> tg ->
   get_last_menu_message_id tg' (set_last_menu_message_id tg message_id s)
   = get_last_menu_message_id tg' s) /\
  (forall name phone,
   get_last_menu_message_id tg (update_user_info tg name phone s)
   = get_last_menu_message_id tg s).
Proof.
  split; [|split; [|split]].
  - intros Hs. unfold get_last_menu_message_id, user_by_tg, set_last_menu_message_id in *.
    cbn [users set_users].
    rewrite (find_update (fun u => u_tg_id u =? tg) (fun u => u_tg_id u =? tg)
               (fun u => mkUser (u_id u) (u_tg_id u) (u_name u) (u_phone u)
                                (Some message_id)))
      by reflexivity.
    destruct (find _ (users s)) as [u|] eqn:Hf; [|now elim Hs].
    cbn [option_map]. destruct (find_some _ _ Hf) as [_ Ht]. now rewrite Ht.
  - intros Hn. split.
    + unfold set_last_menu_message_id.
      rewrite map_no_match; [apply set_users_same|].
      intros u Hu. apply Z.eqb_neq. eapply user_by_tg_none; eauto.
    + unfold get_last_menu_message_id. now rewrite Hn.
  - intros tg' Hne. unfold get_last_menu_message_id, user_by_tg, set_last_menu_message_id.
    cbn [users set_users].
    rewrite (find_update (fun u => u_tg_id u =? tg') (fun u => u_tg_id u =? tg)
               (fun u => mkUser (u_id u) (u_tg_id u) (u_name u) (u_phone u)
                                (Some message_id)))
      by reflexivity.
    destruct (find _ (users s)) as [u|] eqn:Hf; [|reflexivity].
    cbn [option_map]. destruct (find_some _ _ Hf) as [_ Ht].
    apply Z.eqb_eq in Ht.
    destruct (u_tg_id u =? tg) eqn:E; [apply Z.eqb_eq in E; congruence | reflexivity].
  - intros name phone. unfold get_last_menu_message_id, user_by_tg, update_user_info.
    cbn [users set_users].
    rewrite (find_update (fun u => u_tg_id u =? tg) (fun u => u_tg_id u =? tg)
               (fun u => mkUser (u_id u) (u_tg_id u) (Some name) (Some phone)
                                (u_last_menu_message_id u)))
      by reflexivity.
    destruct (find _ (users s)) as [u|] eqn:Hf; [|reflexivity].
    cbn [option_map]. now destruct (u_tg_id u =? tg).
Qed.

Lemma update_user_info_noop (tg : Z) (name phone : string) (s : db) :
  user_by_tg s tg = None -> update_user_info tg name phone s = s.
Proof.
  intros Hn. unfold update_user_info.
  rewrite map_no_match; [apply set_users_same|].
  intros u Hu. apply Z.eqb_neq. eapply user_by_tg_none; eauto.
Qed.

(** ** Text order and ORDER BY *)


Lemma ascii_compare_refl (a : ascii) : Ascii.compare a a = Eq.
Proof. unfold Ascii.compare. apply N.compare_refl. Qed.

Lemma string_compare_trans (c : comparison) (s1 s2 s3 : string) :
  String.compare s1 s2 = c -> String.compare s2 s3 = c ->
  String.compare s1 s3 = c.
Proof.
  revert s2 s3. induction s1 as [|a s1 IH]; intros [|b s2] [|d s3];
    cbn [String.compare]; try congruence.
  unfold Ascii.compare.
  destruct (N.compare_spec (N_of_ascii a) (N_of_ascii b)) as [E1|L1|G1];
  destruct (N.compare_spec (N_of_ascii b) (N_of_ascii d)) as [E2|L2|G2];
  intros H1 H2; subst; try congruence.
  - rewrite E1, E2, N.compare_refl. eapply IH; eauto.
  - rewrite E1. now apply N.compare_lt_iff in L2 as ->.
  - rewrite E1. now apply N.compare_gt_iff in G2 as ->.
  - rewrite <- E2. now apply N.compare_lt_iff in L1 as ->.
  - assert (N_of_ascii a < N_of_ascii d)%N as L by lia.
    now apply N.compare_lt_iff in L as ->.
  - rewrite <- E2. now apply N.compare_gt_iff in G1 as ->.
  - assert (N_of_ascii d < N_of_ascii a)%N as L by lia.
    now apply N.compare_gt_iff in L as ->.
Qed.

Lemma string_compare_eq (s1 s2 : string) :
  String.compare s1 s2 = Eq -> s1 = s2.
Proof. apply String.compare_eq_iff. Qed.

Lemma text_le_trans (a b c : string) : text_le a b -> text_le b c -> text_le a c.
Proof.
  unfold text_le, String.leb. intros H1 H2.
  destruct (String.compare a b) eqn:E1; try discriminate;
  destruct (String.compare b c) eqn:E2; try discriminate.
  - apply string_compare_eq in E1. subst. now rewrite E2.
  - apply string_compare_eq in E1. subst. now rewrite E2.
  - apply string_compare_eq in E2. subst. now rewrite E1.
  - now rewrite (string_compare_trans Lt _ _ _ E1 E2).
Qed.


Section OrderBy.
Context {A : Type} (key : A -> string).

Lemma insert_by_perm (x : A) (l : list A) :
  Permutation (insert_by key x l) (x :: l).
Proof.
  induction l as [|y l IH]; cbn [insert_by]; [reflexivity|].
  destruct (String.leb (key x) (key y)); [reflexivity|].
  rewrite IH. apply perm_swap.
Qed.

Lemma order_by_perm (l : list A) : Permutation (order_by key l) l.
Proof.
  induction l as [|x l IH]; cbn [order_by]; [reflexivity|].
  rewrite insert_by_perm. now constructor.
Qed.

Lemma order_by_in (l : list A) (x : A) : In x (order_by key l) <-> In x l.
Proof.
  split; apply Permutation_in;
    [apply order_by_perm | apply Permutation_sym, order_by_perm].
Qed.

Lemma order_by_nil (l : list A) : order_by key l = [] <-> l = [].
Proof.
  split; intros H.
  - apply Permutation_nil. rewrite <- H. apply order_by_perm.
  - now subst.
Qed.

Lemma insert_by_sorted (x : A) (l : list A) :
  sorted_by key l -> sorted_by key (insert_by key x l).
Proof.
  unfold sorted_by. induction l as [|y l IH]; intros Hs; cbn [insert_by].
  - constructor; constructor.
  - apply StronglySorted_inv in Hs. destruct Hs as [Hl Hy].
    destruct (String.leb (key x) (key y)) eqn:E.
    + constructor; [now constructor|].
      constructor; [exact E|].
      eapply Forall_impl; [|exact Hy].
      intros z Hz. eapply text_le_trans; eauto.
    + constructor; [now apply IH|].
      apply Forall_forall. intros z Hz.
      apply (Permutation_in _ (insert_by_perm x l)) in Hz.
      destruct Hz as [<-|Hz].
      * destruct (String.leb_total (key x) (key y)) as [H|H]; [congruence|exact H].
      * rewrite Forall_forall in Hy. now apply Hy.
Qed.

Lemma order_by_sorted (l : list A) : sorted_by key (order_by key l).
Proof.
  induction l as [|x l IH]; cbn [order_by].
  - constructor.
  - now apply insert_by_sorted.
Qed.

Lemma order_by_NoDup {B} (f : A -> B) (l : list A) :
  NoDup (map f l) -> NoDup (map f (order_by key l)).
Proof.
  intros H. eapply Permutation_NoDup; [|exact H].
  apply Permutation_map, Permutation_sym, order_by_perm.
Qed.

End OrderBy.

(** ** The slots that are offered *)

Lemma set_slots_same (s : db) : set_slots s (slots s) (slots_seq s) = s.
Proof. now destruct s. Qed.

Lemma in_get_available_times (d : date) (s : db) (sl : slot) :
  In sl (get_available_times d s) <->
  In sl (slots s) /\ s_date sl = isoformat d /\ s_is_available sl = 1.
Proof.
  unfold get_available_times. rewrite order_by_in, filter_In.
  rewrite andb_true_iff, String.eqb_eq, Z.eqb_eq. tauto.
Qed.

(** X4: [get_available_times] returns exactly the rows of the date whose
    flag is 1 (a permutation of them), in the order of their time text;
    on a consistent store no slot id appears twice in the answer and
    none of the slots has an active reservation. *)
Theorem get_available_times_law (d : date) (s : db) :
  sorted_by s_time (get_available_times d s) /\
  Permutation (get_available_times d s)
    (filter (fun sl => String.eqb (s_date sl) (isoformat d)
                       && (s_is_available sl =? 1)) (slots s)) /\
  (forall sl, In sl (get_available_times d s) <->
     In sl (slots s) /\ s_date sl = isoformat d /\ s_is_available sl = 1) /\
  (wf s -> NoDup (map s_id (get_available_times d s)) /\
           forall sl, In sl (get_available_times d s) ->
                      has_active_booking s (s_id sl) = false).
Proof.
  split; [apply order_by_sorted|].
  split; [apply order_by_perm|].
  split; [apply in_get_available_times|].
  intros Hwf. split.
  - apply order_by_NoDup, NoDup_map_filter, (wf_slots_id s Hwf).
  - intros sl Hin. apply in_get_available_times in Hin.
    destruct Hin as (Hin & _ & Hav).
    destruct (has_active_booking s (s_id sl)) eqn:E; [|reflexivity].
    pose proof (wf_active_flag s Hwf sl Hin E). lia.
Qed.

Lemma close_day_twice (d : date) (s : db) :
  close_day d (close_day d s) = close_day d s.
Proof.
  unfold close_day, set_slots.
  cbn [users users_seq slots slots_seq bookings bookings_seq reminders
       reminders_seq].
  f_equal. rewrite map_map. apply map_ext. intros sl.
  destruct (String.eqb (s_date sl) (isoformat d)) eqn:E.
  - cbn [set_available s_date]. now rewrite E.
  - now rewrite E.
Qed.

Lemma close_day_empty (d : date) (s : db) :
  get_available_times d (close_day d s) = [].
Proof.
  unfold get_available_times. apply order_by_nil.
  apply filter_nil_iff. intros sl Hin.
  unfold close_day in Hin. cbn [slots set_slots] in Hin.
  apply in_map_iff in Hin. destruct Hin as (x & <- & _).
  destruct (String.eqb (s_date x) (isoformat d)) eqn:E.
  - cbn [set_available s_date s_is_available]. now rewrite E.
  - now rewrite E.
Qed.

(** X5: after [close_day] no time of that day is offered; closing twice
    is closing once; the offers of other dates, the clients, the
    reservations, the reminders and the id, date and time of every slot
    are unchanged. *)
Theorem close_day_law (d : date) (s : db) :
  get_available_times d (close_day d s) = [] /\
  close_day d (close_day d s) = close_day d s /\
  (forall d', isoformat d' <> isoformat d ->
     get_available_times d' (close_day d s) = get_available_times d' s) /\
  users (close_day d s) = users s /\
  bookings (close_day d s) = bookings s /\
  reminders (close_day d s) = reminders s /\
  map (fun sl => (s_id sl, s_date sl, s_time sl)) (slots (close_day d s))
  = map (fun sl => (s_id sl, s_date sl, s_time sl)) (slots s).
Proof.
  split; [apply close_day_empty|].
  split; [apply close_day_twice|split; [|repeat split]].
  - intros d' Hne. unfold get_available_times, close_day.
    cbn [slots set_slots]. f_equal.
    induction (slots s) as [|x l IH]; [reflexivity|].
    cbn [map filter]. rewrite IH.
    destruct (String.eqb (s_date x) (isoformat d)) eqn:E; [|reflexivity].
    cbn [set_available s_date s_is_available].
    apply String.eqb_eq in E.
    assert (String.eqb (s_date x) (isoformat d') = false) as ->
      by (apply String.eqb_neq; congruence).
    reflexivity.
  - unfold close_day. cbn [slots set_slots]. rewrite map_map.
    apply map_ext. intros sl. now destruct (String.eqb _ _).
Qed.

(** ** Slots that are cancelled, deleted and created *)

Lemma slot_by_id_none (s : db) (sid : Z) :
  slot_by_id s sid = None <-> (forall sl, In sl (slots s) -> s_id sl <> sid).
Proof.
  unfold slot_by_id. rewrite find_none_iff.
  split; intros H sl Hin; specialize (H sl Hin); now apply Z.eqb_neq.
Qed.

Lemma slot_by_id_in (s : db) (sl : slot) :
  NoDup (map s_id (slots s)) -> In sl (slots s) ->
  slot_by_id s (s_id sl) = Some sl.
Proof.
  intros Hnd Hin. destruct (slot_by_id s (s_id sl)) as [x|] eqn:E.
  - apply slot_by_id_some in E. destruct E as [Hx Hid].
    f_equal. eapply NoDup_map_eq; eauto.
  - rewrite slot_by_id_none in E. now elim (E sl Hin).
Qed.

Lemma slot_by_id_update_none (sid sid' v : Z) (s : db) :
  slot_by_id s sid = None ->
  slot_by_id (update_slot_available sid' v s) sid = None.
Proof.
  rewrite !slot_by_id_none. intros H sl Hin.
  unfold update_slot_available in Hin. cbn [slots set_slots] in Hin.
  apply in_map_iff in Hin. destruct Hin as (x & <- & Hx).
  specialize (H x Hx). now destruct (s_id x =? sid').
Qed.

Lemma slot_by_id_close_day (d : date) (s : db) (sid : Z) (sl : slot) :
  slot_by_id s sid = Some sl ->
  slot_by_id (close_day d s) sid =
  Some (if String.eqb (s_date sl) (isoformat d) then set_available 0 sl else sl).
Proof.
  unfold slot_by_id, close_day. cbn [slots set_slots]. intros H.
  rewrite (find_update (fun x => s_id x =? sid)
             (fun x => String.eqb (s_date x) (isoformat d))
             (set_available 0)) by reflexivity.
  now rewrite H.
Qed.

(** X6: a slot under an active reservation is not offered;
    [cancel_booking] of that reservation puts it back among the times
    of its date, also when the day was closed in between. *)
Theorem cancel_booking_reopens_slot (s : db) (b : booking) (sl : slot)
    (d : date) :
  wf s -> In b (bookings s) -> is_active b = true ->
  slot_by_id s (b_slot_id b) = Some sl -> s_date sl = isoformat d ->
  ~ In (s_id sl) (map s_id (get_available_times d s)) /\
  In (set_available 1 sl)
     (get_available_times d (snd (cancel_booking (b_id b) s))) /\
  In (set_available 1 sl)
     (get_available_times d (snd (cancel_booking (b_id b) (close_day d s)))).
Proof.
  intros Hwf Hb Hact Hsl Hd.
  destruct (slot_by_id_some _ _ _ Hsl) as [Hin Hid].
  assert (Hopen : forall s0 sl0, wf s0 -> In b (bookings s0) ->
            slot_by_id s0 (b_slot_id b) = Some sl0 -> s_date sl0 = isoformat d ->
            In (set_available 1 sl0)
               (get_available_times d (snd (cancel_booking (b_id b) s0)))).
  { intros s0 sl0 Hwf0 Hb0 Hsl0 Hd0.
    rewrite (cancel_booking_active s0 (b_id b) b sl0 Hwf0 Hb0 eq_refl Hact Hsl0).
    cbn [snd]. apply in_get_available_times. split; [|split].
    - apply slot_by_id_some with (slot_id := b_slot_id b).
      apply slot_by_id_update_slot_available.
      rewrite <- Hsl0. now apply slot_by_id_frame.
    - exact Hd0.
    - reflexivity. }
  split; [|split].
  - intros Hm. apply in_map_iff in Hm. destruct Hm as (x & Hx & Hxin).
    apply in_get_available_times in Hxin. destruct Hxin as (Hxin & _ & Hav).
    assert (x = sl) by (eapply NoDup_map_eq; eauto; apply (wf_slots_id s Hwf)).
    subst x.
    assert (has_active_booking s (s_id sl) = true) as Hbk.
    { apply has_active_booking_true. exists b. now rewrite Hid. }
    pose proof (wf_active_flag s Hwf sl Hin Hbk). lia.
  - now apply Hopen.
  - replace (set_available 1 sl)
      with (set_available 1 (if String.eqb (s_date sl) (isoformat d)
                             then set_available 0 sl else sl))
      by now destruct (String.eqb _ _).
    apply Hopen.
    + now apply wf_close_day.
    + exact Hb.
    + now apply slot_by_id_close_day.
    + now destruct (String.eqb _ _).
Qed.

Lemma cancel_booking_reopens_slot_witness :
  let s := snd (book_slot 100 1 0 (create_slot d0 t0 init)) in
  In (set_available 1 (mkSlot 1 (isoformat d0) (strftime_HM t0) 0))
     (get_available_times d0 (snd (cancel_booking 1 (close_day d0 s)))).
Proof.
  cbv zeta.
  refine (proj2 (proj2 (cancel_booking_reopens_slot
            (snd (book_slot 100 1 0 (create_slot d0 t0 init)))
            (mkBooking 1 1 1 active 0)
            (mkSlot 1 (isoformat d0) (strftime_HM t0) 0) d0 _ _ _ _ _))).
  - apply wf_book_slot, wf_create_slot, wf_init.
  - vm_compute. now left.
  - reflexivity.
  - reflexivity.
  - reflexivity.
Defined.

Lemma flat_map_filter_update {A B} (p c : A -> bool) (g : A -> A)
    (h : A -> list B) (l : list A) :
  (forall x, p (g x) = p x) -> (forall x, h (g x) = h x) ->
  flat_map h (filter p (map (fun x => if c x then g x else x) l)) =
  flat_map h (filter p l).
Proof.
  intros Hp Hh. induction l as [|a l IH]; [reflexivity|].
  cbn [map filter]. destruct (c a).
  - rewrite Hp. destruct (p a); cbn [flat_map]; [rewrite Hh, IH|]; auto.
  - destruct (p a); cbn [flat_map]; [rewrite IH|]; auto.
Qed.

(** Closing a day leaves the reservations of the day on the list. *)
Lemma get_bookings_for_day_close_day (d d' : date) (s : db) :
  get_bookings_for_day d' (close_day d s) = get_bookings_for_day d' s.
Proof.
  unfold get_bookings_for_day, close_day.
  cbn [users slots bookings set_slots]. f_equal.
  apply flat_map_ext. intros b.
  apply flat_map_filter_update; reflexivity.
Qed.

(** ** [delete_slot] *)

Lemma get_slot_delete_slot (sid sid' : Z) (s : db) :
  get_slot sid' (delete_slot sid s) =
  if sid' =? sid then None else get_slot sid' s.
Proof.
  unfold get_slot, slot_by_id, delete_slot. cbn [slots set_slots].
  induction (slots s) as [|x l IH]; [now destruct (sid' =? sid)|].
  cbn [filter find]. destruct (s_id x =? sid) eqn:E1; cbn [negb].
  - rewrite IH. apply Z.eqb_eq in E1.
    destruct (sid' =? sid) eqn:E2; [reflexivity|].
    apply Z.eqb_neq in E2.
    assert ((s_id x =? sid') = false) as -> by (apply Z.eqb_neq; lia).
    reflexivity.
  - cbn [find]. destruct (s_id x =? sid') eqn:E2.
    + apply Z.eqb_eq in E2. apply Z.eqb_neq in E1.
      assert ((sid' =? sid) = false) as -> by (apply Z.eqb_neq; lia).
      reflexivity.
    + exact IH.
Qed.

(** X7: after [delete_slot] the slot is not found and not offered, the
    other slots are found as before, and the id is not handed out
    again: the next [create_slot] takes the next AUTOINCREMENT value. *)
Theorem delete_slot_law (sid : Z) (s : db) :
  get_slot sid (delete_slot sid s) = None /\
  (forall sid', sid' <> sid ->
     get_slot sid' (delete_slot sid s) = get_slot sid' s) /\
  (forall d, ~ In sid (map s_id (get_available_times d (delete_slot sid s)))) /\
  (wf s -> sid <= slots_seq s ->
   forall d t,
     get_slot sid (create_slot d t (delete_slot sid s)) = None /\
     get_slot (slots_seq s + 1) (create_slot d t (delete_slot sid s))
     = Some (mkSlot (slots_seq s + 1) (isoformat d) (strftime_HM t) 1)).
Proof.
  split; [|split; [|split]].
  - rewrite get_slot_delete_slot. now rewrite Z.eqb_refl.
  - intros sid' Hne. rewrite get_slot_delete_slot.
    now apply Z.eqb_neq in Hne as ->.
  - intros d Hin. apply in_map_iff in Hin. destruct Hin as (x & Hx & Hin).
    apply in_get_available_times in Hin. destruct Hin as (Hin & _).
    unfold delete_slot in Hin. cbn [slots set_slots] in Hin.
    apply filter_In in Hin. destruct Hin as [_ Hne].
    apply negb_true_iff, Z.eqb_neq in Hne. contradiction.
  - intros Hwf Hle d t.
    assert (Hnone : forall k, slots_seq s < k \/ k = sid ->
              find (fun sl => s_id sl =? k)
                   (filter (fun sl => negb (s_id sl =? sid)) (slots s)) = None).
    { intros k Hk. apply find_none_iff. intros x Hx.
      apply filter_In in Hx. destruct Hx as [Hx Hne].
      apply negb_true_iff, Z.eqb_neq in Hne.
      pose proof (wf_slots_le s Hwf x Hx). apply Z.eqb_neq. lia. }
    unfold get_slot, slot_by_id, create_slot, delete_slot.
    cbn [slots slots_seq set_slots]. split.
    + rewrite find_app_fresh by (apply Hnone; now right).
      cbn [s_id]. now assert ((slots_seq s + 1 =? sid) = false) as ->
        by (apply Z.eqb_neq; lia).
    + rewrite find_app_fresh by (apply Hnone; left; lia).
      cbn [s_id]. now rewrite Z.eqb_refl.
Qed.

Lemma active_bookings_of_tg_frame (s s' : db) (tg : Z) :
  users s' = users s -> bookings s' = bookings s ->
  active_bookings_of_tg s' tg = active_bookings_of_tg s tg.
Proof. unfold active_bookings_of_tg. now intros -> ->. Qed.

Lemma active_bookings_of_tg_single (s : db) (tg : Z) (b : booking) :
  wf s -> In b (active_bookings_of_tg s tg) ->
  active_bookings_of_tg s tg = [b].
Proof.
  intros Hwf Hin. pose proof (active_bookings_of_tg_le_1 s tg Hwf) as Hle.
  destruct (active_bookings_of_tg s tg) as [|x [|y l]]; cbn in *.
  - contradiction.
  - destruct Hin as [->|[]]. reflexivity.
  - lia.
Qed.

Lemma find_active_booking (s : db) (b : booking) :
  wf s -> In b (bookings s) -> is_active b = true ->
  find (fun x => (b_id x =? b_id b) && is_active x) (bookings s) = Some b.
Proof.
  intros Hwf Hin Hact.
  destruct (find _ (bookings s)) as [x|] eqn:E.
  - apply find_some in E. destruct E as [Hx Hc].
    apply andb_true_iff in Hc. destruct Hc as [Hid _]. apply Z.eqb_eq in Hid.
    f_equal. eapply NoDup_map_eq; eauto. apply (wf_bookings_id s Hwf).
  - rewrite find_none_iff in E. specialize (E b Hin).
    now rewrite Z.eqb_refl, Hact in E.
Qed.

(** X8: [delete_slot] does not look at reservations (the DELETE is
    unconditional, and the connection never turns on SQLite's
    enforcement of FOREIGN KEY).  After the slot of an active
    reservation is deleted the reservation stays active: the client
    is shown no reservation ([get_active_booking_by_tg] is None), every
    [book_slot] of the client fails, and [cancel_booking] marks the
    reservation cancelled yet returns None. *)
Theorem delete_slot_keeps_reservation (s : db) (b : booking) (tg : Z) :
  wf s -> In b (active_bookings_of_tg s tg) ->
  let s' := delete_slot (b_slot_id b) s in
  get_active_booking_by_tg tg s' = None /\
  (forall slot_id now, book_slot tg slot_id now s' = (None, s')) /\
  In b (bookings s') /\
  fst (cancel_booking (b_id b) s') = None /\
  In (set_status cancelled b) (bookings (snd (cancel_booking (b_id b) s'))).
Proof.
  intros Hwf Hin s'.
  assert (Hwf' : wf s') by now apply wf_delete_slot.
  assert (Hsame : active_bookings_of_tg s' tg = [b]).
  { rewrite (active_bookings_of_tg_frame s s') by reflexivity.
    now apply active_bookings_of_tg_single. }
  assert (Hgone : slot_by_id s' (b_slot_id b) = None).
  { pose proof (get_slot_delete_slot (b_slot_id b) (b_slot_id b) s) as H.
    now rewrite Z.eqb_refl in H. }
  apply active_bookings_of_tg_in in Hin. destruct Hin as (Hb & Hact & _).
  split; [|split; [|split; [|split]]].
  - unfold get_active_booking_by_tg. rewrite Hsame. cbn [flat_map].
    now rewrite Hgone.
  - intros slot_id now. apply book_slot_busy. now rewrite Hsame.
  - exact Hb.
  - rewrite cancel_booking_unfold.
    rewrite (find_active_booking s' b Hwf' Hb Hact). cbv zeta. cbn [fst].
    rewrite slot_by_id_update_none; [reflexivity|].
    rewrite <- Hgone. now apply slot_by_id_frame.
  - rewrite cancel_booking_unfold.
    rewrite (find_active_booking s' b Hwf' Hb Hact). cbv zeta. cbn [snd].
    unfold update_slot_available. cbn [bookings set_slots set_bookings].
    now apply cancel_rows_in.
Qed.

Lemma delete_slot_keeps_reservation_witness :
  let s := snd (book_slot 100 1 0 (create_slot d0 t0 init)) in
  get_active_booking_by_tg 100 (delete_slot 1 s) = None /\
  fst (cancel_booking 1 (delete_slot 1 s)) = None.
Proof.
  cbv zeta.
  pose proof (delete_slot_keeps_reservation
                (snd (book_slot 100 1 0 (create_slot d0 t0 init)))
                (mkBooking 1 1 1 active 0) 100) as H.
  cbv zeta in H.
  assert (Hwf : wf (snd (book_slot 100 1 0 (create_slot d0 t0 init))))
    by (apply wf_book_slot, wf_create_slot, wf_init).
  assert (Hin : In (mkBooking 1 1 1 active 0)
                   (active_bookings_of_tg
                      (snd (book_slot 100 1 0 (create_slot d0 t0 init))) 100))
    by (vm_compute; now left).
  destruct (H Hwf Hin) as (H1 & _ & _ & H4 & _).
  split; [exact H1 | exact H4].
Defined.

(** ** [create_slot] *)

Lemma get_slot_create_slot (d : date) (t : time) (s : db) (sid : Z) :
  wf s ->
  get_slot sid (create_slot d t s) =
  if sid =? slots_seq s + 1
  then Some (mkSlot (slots_seq s + 1) (isoformat d) (strftime_HM t) 1)
  else get_slot sid s.
Proof.
  intros Hwf. unfold get_slot, slot_by_id, create_slot. cbn [slots set_slots].
  destruct (find (fun sl => s_id sl =? sid) (slots s)) as [x|] eqn:E.
  - destruct (find_some _ _ E) as [Hx Hid]. apply Z.eqb_eq in Hid.
    pose proof (wf_slots_le s Hwf x Hx).
    assert ((sid =? slots_seq s + 1) = false) as -> by (apply Z.eqb_neq; lia).
    clear Hx Hid H. revert E. induction (slots s) as [|y l IH]; [discriminate|].
    cbn [find app]. destruct (s_id y =? sid); [auto|exact IH].
  - rewrite (find_app_fresh _ _ _ E). cbn [s_id].
    rewrite (Z.eqb_sym (slots_seq s + 1) sid). now destruct (sid =? _).
Qed.

Lemma filter_app_one {A} (p : A -> bool) (l : list A) (x : A) :
  filter p (l ++ [x]) = filter p l ++ (if p x then [x] else []).
Proof. rewrite filter_app. cbn [filter]. now destruct (p x). Qed.

(** X9: [create_slot] adds an available slot under the next id, which
    [get_slot] then finds, leaving the others in place; nothing rejects
    a date and time that already exist: created twice, the same time is
    offered twice. *)
Theorem create_slot_law (d : date) (t : time) (s : db) :
  wf s ->
  let new := mkSlot (slots_seq s + 1) (isoformat d) (strftime_HM t) 1 in
  get_slot (slots_seq s + 1) (create_slot d t s) = Some new /\
  (forall sid sl, get_slot sid s = Some sl ->
                  get_slot sid (create_slot d t s) = Some sl) /\
  In new (get_available_times d (create_slot d t s)) /\
  List.length (get_available_times d (create_slot d t (create_slot d t s)))
  = (2 + List.length (get_available_times d s))%nat.
Proof.
  intros Hwf new. split; [|split; [|split]].
  - rewrite get_slot_create_slot by exact Hwf. now rewrite Z.eqb_refl.
  - intros sid sl Hsl. rewrite get_slot_create_slot by exact Hwf.
    destruct (slot_by_id_some _ _ _ Hsl) as [Hin Hid].
    pose proof (wf_slots_le s Hwf sl Hin).
    now assert ((sid =? slots_seq s + 1) = false) as -> by (apply Z.eqb_neq; lia).
  - apply in_get_available_times. split; [|split; reflexivity].
    unfold create_slot. cbn [slots set_slots]. apply in_or_app. right. now left.
  - unfold get_available_times.
    rewrite !(Permutation_length (order_by_perm _ _)).
    unfold create_slot. cbn [slots slots_seq set_slots].
    rewrite !filter_app_one. cbn [s_date s_is_available].
    rewrite String.eqb_refl. cbn [andb Z.eqb Pos.eqb].
    rewrite !length_app. cbn [List.length]. lia.
Qed.

Lemma create_slot_law_witness :
  get_slot 1 (create_slot d0 t0 init)
  = Some (mkSlot 1 (isoformat d0) (strftime_HM t0) 1).
Proof. exact (proj1 (create_slot_law d0 t0 init wf_init)). Defined.

(** ** Reminder records *)

Lemma find_filter_hd {A} (p : A -> bool) (l : list A) :
  find p l = hd_error (filter p l).
Proof.
  induction l as [|x l IH]; [reflexivity|].
  cbn [find filter]. now destruct (p x).
Qed.

Lemma delete_reminder_missing (bid : Z) (s : db) :
  reminders_for s bid = [] -> delete_reminder bid s = (None, s).
Proof.
  unfold reminders_for, delete_reminder. intros H.
  now rewrite find_filter_hd, H.
Qed.

Lemma delete_reminder_saved (bid run_at : Z) (job : string) (s : db) :
  fst (delete_reminder bid (save_reminder bid run_at job s)) = Some job.
Proof.
  unfold delete_reminder. rewrite find_filter_hd.
  change (filter (fun r => r_booking_id r =? bid)
            (reminders (save_reminder bid run_at job s)))
    with (reminders_for (save_reminder bid run_at job s) bid).
  now rewrite reminders_for_save.
Qed.

(** X10: [save_reminder] keeps one record per reservation (a second save
    replaces the first), [delete_reminder] returns the job id that was
    saved and leaves no record of the reservation, records of other
    reservations are untouched, and deleting what is not there returns
    None and changes nothing. *)
Theorem reminder_save_delete (bid run_at : Z) (job : string) (s : db) :
  reminders_for (save_reminder bid run_at job s) bid
  = [mkReminder (reminders_seq s + 1) bid run_at job] /\
  (forall run_at' job',
     reminders_for (save_reminder bid run_at' job'
                      (save_reminder bid run_at job s)) bid
     = [mkReminder (reminders_seq s + 2) bid run_at' job']) /\
  fst (delete_reminder bid (save_reminder bid run_at job s)) = Some job /\
  reminders_for (snd (delete_reminder bid (save_reminder bid run_at job s))) bid
  = [] /\
  (forall bid', bid' <> bid ->
     reminders_for (snd (delete_reminder bid (save_reminder bid run_at job s)))
                   bid'
     = reminders_for s bid') /\
  (reminders_for s bid = [] -> delete_reminder bid s = (None, s)).
Proof.
  split; [apply reminders_for_save|].
  split.
  { intros run_at' job'. rewrite reminders_for_save.
    unfold save_reminder. cbn [reminders_seq set_reminders].
    do 2 f_equal. lia. }
  split; [apply delete_reminder_saved|].
  split; [apply reminders_for_delete|].
  split; [|apply delete_reminder_missing].
  intros bid' Hne.
  rewrite reminders_for_delete_other by exact Hne.
  now apply reminders_for_save_other.
Qed.

(** ** The table of settings *)

Lemma find_app_some {A} (p : A -> bool) (l l' : list A) (x : A) :
  find p l = Some x -> find p (l ++ l') = Some x.
Proof.
  induction l as [|y l IH]; [discriminate|].
  cbn [find app]. destruct (p y); [auto|exact IH].
Qed.

Lemma find_key_update (key k : string) (value : string) (t : settings) :
  find (fun kv => String.eqb (fst kv) k)
       (map (fun kv => if String.eqb (fst kv) key then (key, value) else kv) t)
  = option_map (fun kv => if String.eqb (fst kv) key then (key, value) else kv)
               (find (fun kv => String.eqb (fst kv) k) t).
Proof.
  induction t as [|[a b] t IH]; [reflexivity|].
  cbn [map find fst]. destruct (String.eqb a key) eqn:E.
  - cbn [fst]. apply String.eqb_eq in E. subst a.
    destruct (String.eqb key k) eqn:E2.
    + cbn [option_map fst]. now rewrite String.eqb_refl.
    + exact IH.
  - cbn [fst]. destruct (String.eqb a k) eqn:E2.
    + cbn [option_map fst]. now rewrite E.
    + exact IH.
Qed.

Lemma find_existsb {A} (p : A -> bool) (l : list A) :
  existsb p l = match find p l with Some _ => true | None => false end.
Proof.
  induction l as [|x l IH]; [reflexivity|].
  cbn [existsb find]. now destruct (p x).
Qed.

(** X11: [set_setting] then [get_setting] gives the value back; other keys
    keep their values; a second [set_setting] overwrites the first; keys
    stay unique; a key that was never set reads as None. *)
Theorem setting_round_trip (key value : string) (t : settings) :
  get_setting key (set_setting key value t) = Some value /\
  (forall k, k <> key ->
     get_setting k (set_setting key value t) = get_setting k t) /\
  (forall value',
     set_setting key value' (set_setting key value t) = set_setting key value' t) /\
  (NoDup (map fst t) -> NoDup (map fst (set_setting key value t))) /\
  (get_setting key t = None <-> ~ In key (map fst t)).
Proof.
  assert (Hfst : forall v,
            map fst (map (fun kv : string * string =>
                            if String.eqb (fst kv) key then (key, v) else kv) t)
            = map fst t).
  { intros v. rewrite map_map. apply map_ext. intros [a b]. cbn [fst].
    destruct (String.eqb a key) eqn:E; [|reflexivity].
    apply String.eqb_eq in E. now subst. }
  assert (Hex : forall l, existsb (fun kv : string * string =>
                                     String.eqb (fst kv) key) l = true
                          <-> In key (map fst l)).
  { intros l. rewrite existsb_exists, in_map_iff.
    split; intros (x & H1 & H2); exists x.
    - apply String.eqb_eq in H2. now split.
    - split; [exact H2 | now apply String.eqb_eq]. }
  split; [|split; [|split; [|split]]].
  - unfold get_setting, set_setting. rewrite find_existsb.
    destruct (find _ t) as [[a b]|] eqn:E.
    + rewrite find_key_update, E. cbn [option_map fst].
      destruct (find_some _ _ E) as [_ Ha]. cbn [fst] in Ha. now rewrite Ha.
    + rewrite (find_app_fresh _ _ _ E). cbn [fst]. now rewrite String.eqb_refl.
  - intros k Hne. unfold get_setting, set_setting.
    destruct (existsb _ t) eqn:Ee.
    + rewrite find_key_update.
      destruct (find (fun kv => String.eqb (fst kv) k) t) as [[a b]|] eqn:E;
        [|reflexivity].
      cbn [option_map fst]. destruct (find_some _ _ E) as [_ Ha].
      cbn [fst] in Ha. apply String.eqb_eq in Ha. subst a.
      now apply String.eqb_neq in Hne as ->.
    + destruct (find (fun kv => String.eqb (fst kv) k) t) as [[a b]|] eqn:E.
      * now rewrite (find_app_some _ _ _ _ E).
      * rewrite (find_app_fresh _ _ _ E). cbn [fst].
        apply not_eq_sym, String.eqb_neq in Hne. now rewrite Hne.
  - intros value'. unfold set_setting at 1 3.
    destruct (existsb _ t) eqn:Ee.
    + assert (existsb (fun kv => String.eqb (fst kv) key)
                (set_setting key value t) = true) as ->.
      { apply Hex. unfold set_setting. rewrite Ee, Hfst. now apply Hex. }
      unfold set_setting. rewrite Ee, map_map. apply map_ext.
      intros [a b]. cbn [fst]. destruct (String.eqb a key) eqn:E.
      * cbn [fst]. now rewrite String.eqb_refl.
      * cbn [fst]. now rewrite E.
    + assert (existsb (fun kv => String.eqb (fst kv) key)
                (set_setting key value t) = true) as ->.
      { apply Hex. unfold set_setting. rewrite Ee, map_app. cbn.
        apply in_or_app. right. now left. }
      unfold set_setting. rewrite Ee, map_app. cbn [map fst].
      rewrite String.eqb_refl. f_equal.
      apply map_no_match with (g := fun _ => (key, value')).
      intros x Hx. destruct (String.eqb (fst x) key) eqn:E; [|reflexivity].
      assert (existsb (fun kv => String.eqb (fst kv) key) t = true)
        by (apply existsb_exists; eauto).
      congruence.
  - intros Hnd. unfold set_setting. destruct (existsb _ t) eqn:Ee.
    + now rewrite Hfst.
    + rewrite map_app. cbn [map fst].
      apply (Permutation_NoDup (l := key :: map fst t)).
      * apply Permutation_cons_append.
      * constructor; [|exact Hnd]. intros Hin. apply Hex in Hin. congruence.
  - unfold get_setting. rewrite <- Hex, find_existsb.
    destruct (find _ t); split; intros H; try discriminate; try reflexivity.
    now elim H.
Qed.

Lemma get_active_booking_by_tg_none (tg : Z) (s : db) :
  active_bookings_of_tg s tg = [] -> get_active_booking_by_tg tg s = None.
Proof. unfold get_active_booking_by_tg. now intros ->. Qed.

(** ** The reservation that a client sees *)

Lemma book_slot_success (tg sid now : Z) (s : db) (bid : Z) :
  fst (book_slot tg sid now s) = Some bid ->
  exists row,
    active_bookings_of_tg s tg = [] /\
    slot_by_id s sid = Some row /\
    s_is_available row <> 0 /\
    snd (book_slot tg sid now s)
    = insert_booking (fst (get_or_create_user tg s)) sid now
        (update_slot_available sid 0 (snd (get_or_create_user tg s))) /\
    option_map b_id
      (active_booking_of (snd (book_slot tg sid now s))
         (fst (get_or_create_user tg s)) sid) = Some bid.
Proof.
  rewrite book_slot_unfold. cbv zeta.
  destruct (active_bookings_of_tg s tg); [|discriminate].
  pose proof (get_or_create_user_frame tg s) as (Hsl & _).
  rewrite (slot_by_id_frame s _ sid Hsl).
  destruct (slot_by_id s sid) as [row|]; [|discriminate].
  destruct (s_is_available row =? 0) eqn:E; [discriminate|].
  cbn [fst snd]. intros H. exists row. apply Z.eqb_neq in E. auto.
Qed.

(** What a successful [book_slot] leaves behind. *)
Lemma book_slot_success_state (tg sid now : Z) (s : db) (bid : Z) :
  wf s -> fst (book_slot tg sid now s) = Some bid ->
  exists uid sl,
    slot_by_id s sid = Some sl /\ s_is_available sl = 1 /\
    bid = bookings_seq s + 1 /\
    bookings (snd (book_slot tg sid now s))
    = bookings s ++ [mkBooking bid uid sid active now] /\
    active_bookings_of_tg (snd (book_slot tg sid now s)) tg
    = [mkBooking bid uid sid active now] /\
    slot_by_id (snd (book_slot tg sid now s)) sid = Some (set_available 0 sl).
Proof.
  intros Hwf Hok.
  destruct (book_slot_success _ _ _ _ _ Hok) as (row & Hfree & Hrow & Hav & Hs' & Hid).
  pose proof (wf_book_slot tg sid now s Hwf) as Hwf'.
  destruct (get_or_create_user tg s) as [uid s1] eqn:Hu.
  cbn [fst snd] in Hs', Hid.
  destruct (get_or_create_user_spec tg s uid s1 Hwf Hu)
    as (Hwf1 & Hsl & _ & Hbk & Hseq & _ & _ & (u & Hu1 & Hu2 & Hu3) & _ & _ & Hnew).
  set (new := mkBooking (bookings_seq s + 1) uid sid active now).
  assert (Hbks : bookings (snd (book_slot tg sid now s)) = bookings s ++ [new]).
  { rewrite Hs'. unfold insert_booking, update_slot_available.
    cbn [bookings bookings_seq set_bookings set_slots]. now rewrite Hbk, Hseq. }
  assert (Husers : users (snd (book_slot tg sid now s)) = users s1).
  { rewrite Hs'. reflexivity. }
  assert (Hbid : bid = bookings_seq s + 1).
  { destruct (active_booking_of _ uid sid) as [b|] eqn:Hb; [|discriminate].
    cbn [option_map] in Hid. injection Hid as <-.
    apply find_some in Hb. destruct Hb as [Hb Hc]. rewrite Hbks in Hb.
    apply andb_true_iff in Hc. destruct Hc as [Hc Hact].
    apply andb_true_iff in Hc. destruct Hc as [Hc1 _]. apply Z.eqb_eq in Hc1.
    apply in_app_or in Hb. destruct Hb as [Hb|[<-|[]]]; [|reflexivity].
    now elim (Hnew Hfree b Hb Hact). }
  subst bid. fold new.
  assert (Hin : In new (active_bookings_of_tg (snd (book_slot tg sid now s)) tg)).
  { apply active_bookings_of_tg_in. split; [|split].
    - rewrite Hbks. apply in_or_app. right. now left.
    - reflexivity.
    - exists u. rewrite Husers. auto. }
  destruct (wf_slots_flag s Hwf row (proj1 (slot_by_id_some _ _ _ Hrow)))
    as [H0|H1]; [contradiction|].
  exists uid, row. repeat (split; [assumption || reflexivity|]).
  split; [now apply active_bookings_of_tg_single|].
  rewrite Hs'.
  rewrite (slot_by_id_frame (update_slot_available sid 0 s1)) by reflexivity.
  apply slot_by_id_update_slot_available.
  now rewrite (slot_by_id_frame s s1 sid Hsl).
Qed.

Lemma active_bookings_of_tg_cancelled (s : db) (tg : Z) (b : booking) :
  wf s -> active_bookings_of_tg s tg = [b] ->
  active_bookings_of_tg (snd (cancel_booking (b_id b) s)) tg = [].
Proof.
  intros Hwf Hone.
  assert (Hin : In b (active_bookings_of_tg s tg)) by (rewrite Hone; now left).
  apply active_bookings_of_tg_in in Hin. destruct Hin as (Hb & Hact & _).
  rewrite cancel_booking_unfold, (find_active_booking s b Hwf Hb Hact).
  cbv zeta. cbn [snd].
  match goal with
  | |- ?X = [] => destruct X as [|x l] eqn:E; [reflexivity|];
                  assert (Hx : In x X) by (rewrite E; now left)
  end.
  apply active_bookings_of_tg_in in Hx. destruct Hx as (Hxb & Hxa & Hxu).
  unfold update_slot_available in Hxb, Hxu.
  cbn [users bookings set_bookings set_slots] in Hxb, Hxu.
  destruct (in_active_cancel_rows _ _ _ Hxb Hxa) as [Hxs Hne].
  assert (In x (active_bookings_of_tg s tg))
    by (apply active_bookings_of_tg_in; auto).
  rewrite Hone in H. destruct H as [->|[]]. now elim Hne.
Qed.

(** X12: after a successful [book_slot], [get_active_booking_by_tg] shows
    the client that reservation with the date and time of its slot, and
    after [cancel_booking] of it the client is shown none. *)
Theorem my_booking_after_book_slot (tg sid now : Z) (s : db) (bid : Z) :
  wf s -> fst (book_slot tg sid now s) = Some bid ->
  let s' := snd (book_slot tg sid now s) in
  (exists uid sl,
     slot_by_id s sid = Some sl /\
     get_active_booking_by_tg tg s'
     = Some (mkBooking bid uid sid active now, s_date sl, s_time sl)) /\
  get_active_booking_by_tg tg (snd (cancel_booking bid s')) = None.
Proof.
  intros Hwf Hok s'.
  destruct (book_slot_success_state _ _ _ _ _ Hwf Hok)
    as (uid & sl & Hsl & _ & _ & _ & Hone & Hsl').
  fold s' in Hone, Hsl'. split.
  - exists uid, sl. split; [exact Hsl|].
    unfold get_active_booking_by_tg. rewrite Hone. cbn [flat_map b_slot_id].
    now rewrite Hsl'.
  - apply get_active_booking_by_tg_none.
    apply (active_bookings_of_tg_cancelled s' tg
             (mkBooking bid uid sid active now)); [|exact Hone].
    now apply wf_book_slot.
Qed.

Lemma my_booking_after_book_slot_witness :
  get_active_booking_by_tg 100
    (snd (cancel_booking 1 (snd (book_slot 100 1 0 (create_slot d0 t0 init)))))
  = None.
Proof.
  refine (proj2 (my_booking_after_book_slot 100 1 0 (create_slot d0 t0 init) 1
                   _ _)).
  - apply wf_create_slot, wf_init.
  - reflexivity.
Defined.

(** X13: once a reservation is cancelled its slot can be reserved again,
    by the same client (who gets the next reservation id) or by any
    client who had no active reservation. *)
Theorem cancel_then_book_again (tg sid now now' : Z) (s : db) (bid : Z) :
  wf s -> fst (book_slot tg sid now s) = Some bid ->
  let s1 := snd (cancel_booking bid (snd (book_slot tg sid now s))) in
  fst (book_slot tg sid now' s1) = Some (bid + 1) /\
  (forall tg', active_bookings_of_tg s tg' = [] ->
     exists bid', fst (book_slot tg' sid now' s1) = Some bid').
Proof.
  intros Hwf Hok s1.
  pose proof (wf_book_slot tg sid now s Hwf) as Hwf'.
  destruct (book_slot_success_state _ _ _ _ _ Hwf Hok)
    as (uid & sl & Hsl & _ & Hbid & Hbks & Hone & Hsl').
  set (s' := snd (book_slot tg sid now s)) in *.
  set (new := mkBooking bid uid sid active now) in *.
  assert (Hnew : In new (bookings s'))
    by (rewrite Hbks; apply in_or_app; right; now left).
  pose proof (cancel_booking_active s' bid new (set_available 0 sl) Hwf' Hnew
                eq_refl eq_refl Hsl') as Hc.
  assert (Hs1 : s1 = update_slot_available sid 1
                       (set_bookings s' (cancel_rows bid (bookings s'))
                          (bookings_seq s')))
    by (unfold s1; now rewrite Hc).
  assert (Hwf1 : wf s1) by now apply wf_cancel_booking.
  assert (Hslot1 : slot_by_id s1 sid = Some (set_available 1 (set_available 0 sl))).
  { rewrite Hs1. apply slot_by_id_update_slot_available.
    now rewrite (slot_by_id_frame s').  }
  assert (Hfree1 : active_bookings_of_tg s1 tg = [])
    by (apply (active_bookings_of_tg_cancelled s' tg new Hwf' Hone)).
  assert (Hopen : s_is_available (set_available 1 (set_available 0 sl)) <> 0)
    by (cbn; lia).
  split.
  - destruct (book_slot_free tg sid now' s1 (set_available 1 (set_available 0 sl))
                Hfree1 Hslot1 Hopen) as (bid' & Hb').
    rewrite Hb'. f_equal.
    destruct (book_slot_success_state _ _ _ _ _ Hwf1 Hb') as (? & ? & _ & _ & -> & _).
    rewrite Hs1. unfold update_slot_available.
    cbn [bookings_seq set_slots set_bookings].
    destruct (book_slot_success _ _ _ _ _ Hok) as (? & _ & _ & _ & Hst & _).
    fold s' in Hst. rewrite Hst. unfold insert_booking, update_slot_available.
    cbn [bookings_seq set_slots set_bookings].
    pose proof (get_or_create_user_frame tg s) as (_ & _ & _ & Hseq & _).
    rewrite Hseq. lia.
  - intros tg' Hfree.
    apply (book_slot_free tg' sid now' s1 (set_available 1 (set_available 0 sl)));
      [|exact Hslot1|exact Hopen].
    destruct (active_bookings_of_tg s1 tg') as [|x l] eqn:E; [reflexivity|].
    assert (Hx : In x (active_bookings_of_tg s1 tg')) by (rewrite E; now left).
    apply active_bookings_of_tg_in in Hx.
    destruct Hx as (Hxb & Hxa & (u & Hu1 & Hu2 & Hu3)).
    rewrite Hs1 in Hxb, Hu1. unfold update_slot_available in Hxb, Hu1.
    cbn [users bookings set_bookings set_slots] in Hxb, Hu1.
    destruct (in_active_cancel_rows _ _ _ Hxb Hxa) as [Hxs Hne].
    rewrite Hbks in Hxs. apply in_app_or in Hxs.
    destruct Hxs as [Hxs|[<-|[]]]; [|now elim Hne].
    destruct (Z.eq_dec tg' tg) as [->|Hd].
    + assert (In x (active_bookings_of_tg s' tg)).
      { apply active_bookings_of_tg_in. split; [|split; [exact Hxa|]].
        - rewrite Hbks. apply in_or_app. now left.
        - exists u. auto. }
      rewrite Hone in H. destruct H as [<-|[]]. now elim Hne.
    + assert (In x (active_bookings_of_tg s tg')).
      { apply active_bookings_of_tg_in. split; [exact Hxs|split; [exact Hxa|]].
        exists u. split; [|auto].
        destruct (book_slot_success _ _ _ _ _ Hok) as (? & _ & _ & _ & Hst & _).
        fold s' in Hst. rewrite Hst in Hu1.
        unfold insert_booking, update_slot_available in Hu1.
        cbn [users set_slots set_bookings] in Hu1.
        destruct (get_or_create_user tg s) as [uid0 s0] eqn:Hg.
        destruct (get_or_create_user_spec tg s uid0 s0 Hwf Hg)
          as (_ & _ & _ & _ & _ & _ & _ & _ & _ & Hold & _).
        apply Hold; [exact Hu1|congruence]. }
      rewrite Hfree in H. contradiction.
Qed.

Lemma cancel_then_book_again_witness :
  fst (book_slot 100 1 5
         (snd (cancel_booking 1
                 (snd (book_slot 100 1 0 (create_slot d0 t0 init))))))
  = Some 2.
Proof.
  refine (proj1 (cancel_then_book_again 100 1 0 5 (create_slot d0 t0 init) 1
                   _ _)).
  - apply wf_create_slot, wf_init.
  - reflexivity.
Defined.

(** ** Cancelling twice *)

Lemma cancel_rows_no_active (bid : Z) (bs : list booking) :
  find (fun b => (b_id b =? bid) && is_active b) (cancel_rows bid bs) = None.
Proof.
  apply find_none_iff. intros b Hb.
  unfold cancel_rows in Hb. apply in_map_iff in Hb. destruct Hb as (x & <- & _).
  destruct (b_id x =? bid) eqn:E.
  - cbn [set_status b_id is_active b_status status_eqb]. now rewrite andb_false_r.
  - now rewrite E.
Qed.

Lemma cancel_booking_twice (bid : Z) (s : db) :
  cancel_booking bid (snd (cancel_booking bid s))
  = (None, snd (cancel_booking bid s)).
Proof.
  rewrite (cancel_booking_unfold bid s).
  destruct (find _ (bookings s)) as [row|] eqn:E; cbv zeta; cbn [snd].
  - rewrite cancel_booking_unfold. unfold update_slot_available.
    cbn [bookings set_slots set_bookings].
    now rewrite cancel_rows_no_active.
  - rewrite cancel_booking_unfold. now rewrite E.
Qed.

Lemma user_cancel_booking_unfold (bid : Z) (w : world) :
  user_cancel_booking bid w =
  (match fst (cancel_booking bid (snd (delete_reminder bid (w_db w)))) with
   | None => NotFoundOrCancelled
   | Some (date_str, time_str) => CancelDone date_str time_str
   end,
   mkWorld (snd (cancel_booking bid (snd (delete_reminder bid (w_db w)))))
           (drop_job (fst (delete_reminder bid (w_db w))) (w_jobs w))).
Proof.
  unfold user_cancel_booking.
  destruct (delete_reminder bid (w_db w)) as [found d1]. cbn [fst snd].
  destruct (cancel_booking bid d1) as [[[a b]|] d2]; reflexivity.
Qed.

(** X14: [user_cancel_booking] a second time answers "already cancelled
    or not found" and changes neither the store nor the jobs. *)
Theorem user_cancel_booking_twice (bid : Z) (w : world) :
  user_cancel_booking bid (snd (user_cancel_booking bid w))
  = (NotFoundOrCancelled, snd (user_cancel_booking bid w)).
Proof.
  rewrite (user_cancel_booking_unfold bid w). cbn [snd].
  set (d1 := snd (delete_reminder bid (w_db w))).
  set (d2 := snd (cancel_booking bid d1)).
  set (jobs := drop_job _ _).
  rewrite user_cancel_booking_unfold. cbn [w_db w_jobs].
  assert (Hrem : reminders_for d2 bid = []).
  { unfold reminders_for, d2. rewrite cancel_booking_reminders.
    apply reminders_for_delete. }
  rewrite (delete_reminder_missing _ _ Hrem). cbn [fst snd drop_job].
  unfold d2. now rewrite cancel_booking_twice.
Qed.

(** ** A reservation that fails *)

Lemma active_bookings_of_tg_no_user (s : db) (tg : Z) :
  user_by_tg s tg = None -> active_bookings_of_tg s tg = [].
Proof.
  intros Hn. unfold active_bookings_of_tg. apply filter_nil_iff. intros b _.
  apply andb_false_iff. right.
  apply not_true_is_false. intros H. apply existsb_exists in H.
  destruct H as (u & Hu & Hc). apply andb_true_iff in Hc.
  destruct Hc as [_ Ht]. apply Z.eqb_eq in Ht.
  now apply (user_by_tg_none s tg u Hn Hu).
Qed.

(** X15: a [book_slot] that returns None leaves slots, reservations and
    reminders as they were; for a client who already has a row the
    whole store is unchanged, but for a new client the failed call has
    still inserted the client's row, with no name and no phone. *)
Theorem book_slot_failure_effects (tg sid now : Z) (s : db) :
  fst (book_slot tg sid now s) = None ->
  let s' := snd (book_slot tg sid now s) in
  slots s' = slots s /\ bookings s' = bookings s /\
  reminders s' = reminders s /\
  (user_by_tg s tg <> None -> s' = s) /\
  (user_by_tg s tg = None ->
   users s' = users s ++ [mkUser (users_seq s + 1) tg None None None] /\
   user_by_tg s' tg = Some (mkUser (users_seq s + 1) tg None None None)).
Proof.
  intros Hnone s'.
  destruct (book_slot_none _ _ _ _ Hnone) as (H1 & H2 & H3).
  fold s' in H1, H2, H3.
  split; [exact H1|]. split; [exact H2|]. split; [exact H3|].
  assert (Hs' : active_bookings_of_tg s tg <> [] /\ s' = s \/
                active_bookings_of_tg s tg = [] /\
                s' = snd (get_or_create_user tg s)).
  { unfold s'. revert Hnone. rewrite book_slot_unfold. cbv zeta.
    destruct (active_bookings_of_tg s tg); [|left; split; [discriminate|reflexivity]].
    right. split; [reflexivity|].
    destruct (slot_by_id _ sid) as [row|]; [|reflexivity].
    destruct (s_is_available row =? 0); [reflexivity|].
    cbn [fst] in Hnone.
    destruct (active_booking_of_inserted (fst (get_or_create_user tg s)) sid now
                (update_slot_available sid 0 (snd (get_or_create_user tg s))))
      as (b & Hb).
    rewrite Hb in Hnone. discriminate. }
  split.
  - intros Hu. destruct Hs' as [[_ ->]|[_ ->]]; [reflexivity|].
    destruct (user_by_tg s tg) as [row|] eqn:E; [|now elim Hu].
    now rewrite (get_or_create_user_found _ _ _ E).
  - intros Hu. destruct Hs' as [[Hbusy _]|[_ ->]].
    + now elim Hbusy; apply active_bookings_of_tg_no_user.
    + split; [|now apply user_by_tg_new].
      now rewrite (get_or_create_user_fresh _ _ Hu).
Qed.

Lemma book_slot_failure_effects_witness :
  user_by_tg (snd (book_slot 100 7 0 init)) 100
  = Some (mkUser 1 100 None None None).
Proof.
  refine (proj2 (proj2 (proj2 (proj2 (proj2
            (book_slot_failure_effects 100 7 0 init _)))) _)); reflexivity.
Defined.

(** ** The administrator's list of a day *)

Lemma in_get_bookings_for_day (d : date) (s : db) (row : day_row) :
  In row (get_bookings_for_day d s) <->
  exists b sl u,
    In b (bookings s) /\ is_active b = true /\
    In sl (slots s) /\ s_id sl = b_slot_id b /\ s_date sl = isoformat d /\
    In u (users s) /\ u_id u = b_user_id b /\
    row = mkDayRow (b_id b) (s_time sl) (u_name u) (u_phone u) (u_tg_id u).
Proof.
  unfold get_bookings_for_day. rewrite order_by_in, in_flat_map. split.
  - intros (b & Hb & Hrow). apply filter_In in Hb. destruct Hb as [Hb Hact].
    apply in_flat_map in Hrow. destruct Hrow as (sl & Hsl & Hrow).
    apply filter_In in Hsl. destruct Hsl as [Hsl Hc].
    apply andb_true_iff in Hc. destruct Hc as [Hid Hd].
    apply Z.eqb_eq in Hid. apply String.eqb_eq in Hd.
    apply in_flat_map in Hrow. destruct Hrow as (u & Hu & Hrow).
    apply filter_In in Hu. destruct Hu as [Hu Huid]. apply Z.eqb_eq in Huid.
    destruct Hrow as [<-|[]]. exists b, sl, u. auto 10.
  - intros (b & sl & u & Hb & Hact & Hsl & Hid & Hd & Hu & Huid & ->).
    exists b. split; [apply filter_In; auto|].
    apply in_flat_map. exists sl. split.
    + apply filter_In. split; [exact Hsl|].
      apply andb_true_iff. split; [now apply Z.eqb_eq | now apply String.eqb_eq].
    + apply in_flat_map. exists u. split; [|now left].
      apply filter_In. split; [exact Hu | now apply Z.eqb_eq].
Qed.

Lemma filter_length_le {A} (p : A -> bool) (l : list A) :
  (List.length (filter p l) <= List.length l)%nat.
Proof.
  induction l as [|x l IH]; [apply le_n|].
  cbn [filter]. destruct (p x); cbn [List.length]; lia.
Qed.

(** X16: on a consistent store [get_bookings_for_day] lists every active
    reservation on a slot of the date, once, in the order of the time
    text, and nothing else; the listed slots all carry flag 0; closing
    a day does not change the list. *)
Theorem get_bookings_for_day_law (d : date) (s : db) :
  wf s ->
  sorted_by dr_time (get_bookings_for_day d s) /\
  NoDup (map dr_booking_id (get_bookings_for_day d s)) /\
  (forall b sl,
     In b (bookings s) -> is_active b = true ->
     slot_by_id s (b_slot_id b) = Some sl -> s_date sl = isoformat d ->
     exists u, In u (users s) /\ u_id u = b_user_id b /\
               In (mkDayRow (b_id b) (s_time sl) (u_name u) (u_phone u)
                            (u_tg_id u))
                  (get_bookings_for_day d s)) /\
  (forall row, In row (get_bookings_for_day d s) ->
     exists b sl,
       In b (bookings s) /\ is_active b = true /\ b_id b = dr_booking_id row /\
       slot_by_id s (b_slot_id b) = Some sl /\ s_date sl = isoformat d /\
       s_time sl = dr_time row /\ s_is_available sl = 0) /\
  (forall d', get_bookings_for_day d (close_day d' s) = get_bookings_for_day d s).
Proof.
  intros Hwf.
  split; [apply order_by_sorted|].
  split; [|split; [|split]].
  - unfold get_bookings_for_day. apply order_by_NoDup.
    apply NoDup_flat_map_keys with (ka := b_id).
    + apply NoDup_map_filter, (wf_bookings_id s Hwf).
    + intros b. apply flat_map_le_1.
      * rewrite filter_andb.
        etransitivity; [apply filter_length_le|].
        apply filter_key_le_1, (wf_slots_id s Hwf).
      * intros sl. apply flat_map_le_1.
        -- apply filter_key_le_1, (wf_users_id s Hwf).
        -- intros u. apply le_n.
    + intros b row Hrow.
      apply in_flat_map in Hrow. destruct Hrow as (sl & _ & Hrow).
      apply in_flat_map in Hrow. destruct Hrow as (u & _ & [<-|[]]).
      reflexivity.
  - intros b sl Hb Hact Hsl Hd.
    destruct (slot_by_id_some _ _ _ Hsl) as [Hin Hid].
    pose proof (wf_bookings_user s Hwf b Hb) as Hu.
    apply in_map_iff in Hu. destruct Hu as (u & Huid & Hu).
    exists u. split; [exact Hu|]. split; [exact Huid|].
    apply in_get_bookings_for_day. exists b, sl, u. auto 10.
  - intros row Hrow. apply in_get_bookings_for_day in Hrow.
    destruct Hrow as (b & sl & u & Hb & Hact & Hsl & Hid & Hd & Hu & Huid & ->).
    exists b, sl. cbn [dr_booking_id dr_time].
    repeat (split; [assumption || reflexivity|]).
    split; [rewrite <- Hid; apply slot_by_id_in; [apply (wf_slots_id s Hwf)|exact Hsl]|].
    split; [exact Hd|]. split; [reflexivity|].
    apply (wf_active_flag s Hwf sl Hsl).
    apply has_active_booking_true. exists b. auto.
  - intros d'. apply get_bookings_for_day_close_day.
Qed.

Lemma get_bookings_for_day_law_witness :
  NoDup (map dr_booking_id
           (get_bookings_for_day d0
              (snd (book_slot 100 1 0 (create_slot d0 t0 init))))).
Proof.
  refine (proj1 (proj2 (get_bookings_for_day_law d0 _ _))).
  apply wf_book_slot, wf_create_slot, wf_init.
Defined.

(** ** A client's first reservation *)

Lemma schedule_reminder_frame (bid tg : Z) (d t : string) (now : Z)
    (w w' : world) :
  schedule_reminder bid tg d t now w = Ok w' ->
  users (w_db w') = users (w_db w) /\ slots (w_db w') = slots (w_db w) /\
  bookings (w_db w') = bookings (w_db w).
Proof.
  intros H. apply schedule_reminder_ok in H.
  destruct H as [->|(T & _ & _ & ->)]; repeat split; reflexivity.
Qed.

Lemma confirm_booking_tables (from_user sid : Z) (name phone : string)
    (now_book now_sched : Z) (w : world) :
  let d2 := snd (book_slot from_user sid now_book
                   (update_user_info from_user name phone (w_db w))) in
  let w' := snd (confirm_booking from_user (Some sid) name phone now_book
                   now_sched w) in
  users (w_db w') = users d2 /\ slots (w_db w') = slots d2 /\
  bookings (w_db w') = bookings d2.
Proof.
  cbv zeta. unfold confirm_booking.
  destruct (book_slot from_user sid now_book _) as [[bid|] d2]; cbn [snd];
    [|repeat split; reflexivity].
  destruct (get_slot sid d2) as [sl|]; [|repeat split; reflexivity].
  destruct (schedule_reminder _ _ _ _ _ _) as [w'|e] eqn:E;
    [|repeat split; reflexivity].
  cbn [snd]. apply schedule_reminder_frame in E. exact E.
Qed.

(** X17: [confirm_booking] writes the name and phone before [book_slot]
    creates the row of a new client.  So when a client without a row
    confirms an available slot, the reservation is made, but the
    client's row has no name and no phone, and [get_bookings_for_day]
    lists the reservation without them. *)
Theorem first_reservation_has_no_contact (from_user sid : Z)
    (name phone : string) (now_book now_sched : Z) (w : world)
    (sl : slot) (d : date) :
  wf (w_db w) -> user_by_tg (w_db w) from_user = None ->
  slot_by_id (w_db w) sid = Some sl -> s_is_available sl = 1 ->
  s_date sl = isoformat d ->
  let w' := snd (confirm_booking from_user (Some sid) name phone now_book
                   now_sched w) in
  user_by_tg (w_db w') from_user
  = Some (mkUser (users_seq (w_db w) + 1) from_user None None None) /\
  In (mkDayRow (bookings_seq (w_db w) + 1) (s_time sl) None None from_user)
     (get_bookings_for_day d (w_db w')).
Proof.
  intros Hwf Hnew Hsl Hav Hd w'.
  pose proof (confirm_booking_tables from_user sid name phone now_book
                now_sched w) as Ht. cbv zeta in Ht. fold w' in Ht.
  destruct Ht as (Hus & Hsls & Hbks).
  assert (Hd1 : update_user_info from_user name phone (w_db w) = w_db w)
    by (apply (update_user_info_noop _ _ _ _ Hnew)).
  rewrite Hd1 in Hus, Hsls, Hbks.
  set (s := w_db w) in *.
  assert (Hfree : active_bookings_of_tg s from_user = [])
    by now apply active_bookings_of_tg_no_user.
  assert (Hopen : s_is_available sl <> 0) by lia.
  destruct (book_slot_free from_user sid now_book s sl Hfree Hsl Hopen)
    as (bid & Hok).
  destruct (book_slot_success_state _ _ _ _ _ Hwf Hok)
    as (uid & sl' & Hsl' & _ & Hbid & Hbk2 & _ & Hslot2).
  assert (sl' = sl) by congruence. subst sl'.
  destruct (book_slot_success _ _ _ _ _ Hok) as (_ & _ & _ & _ & Hst & _).
  assert (Husers2 : users (snd (book_slot from_user sid now_book s))
                    = users s ++ [mkUser (users_seq s + 1) from_user None None None]).
  { rewrite Hst. unfold insert_booking, update_slot_available.
    cbn [users set_slots set_bookings].
    now rewrite (get_or_create_user_fresh _ _ Hnew). }
  assert (Huid : uid = users_seq s + 1).
  { assert (Hb : In (mkBooking bid uid sid active now_book)
                    (bookings (snd (book_slot from_user sid now_book s))))
      by (rewrite Hbk2; apply in_or_app; right; now left).
    rewrite Hst in Hb. unfold insert_booking, update_slot_available in Hb.
    cbn [bookings bookings_seq set_slots set_bookings] in Hb.
    rewrite (get_or_create_user_fresh _ _ Hnew) in Hb. cbn [fst snd] in Hb.
    cbn [bookings bookings_seq set_users] in Hb.
    apply in_app_or in Hb. destruct Hb as [Hb|[Hb|[]]].
    - pose proof (wf_bookings_le s Hwf _ Hb) as Hle. cbn [b_id] in Hle. lia.
    - congruence. }
  split.
  - unfold user_by_tg. rewrite Hus, Husers2.
    rewrite find_app_fresh by exact Hnew. cbn [u_tg_id]. now rewrite Z.eqb_refl.
  - apply in_get_bookings_for_day.
    exists (mkBooking bid uid sid active now_book), (set_available 0 sl),
           (mkUser (users_seq s + 1) from_user None None None).
    rewrite Hbks, Hsls, Hus, Hbk2, Husers2. cbn [b_id b_user_id b_slot_id].
    split; [apply in_or_app; right; now left|].
    split; [reflexivity|].
    split; [apply (proj1 (slot_by_id_some _ _ _ Hslot2))|].
    split; [cbn; apply (proj2 (slot_by_id_some _ _ _ Hsl))|].
    split; [exact Hd|].
    split; [apply in_or_app; right; now left|].
    split; [cbn; congruence|].
    cbn. now rewrite Hbid.
Qed.

Lemma first_reservation_has_no_contact_witness :
  user_by_tg
    (w_db (snd (confirm_booking 100 (Some 1) "Ann" "555" 0 0
                  (mkWorld (create_slot d0 t0 init) []))))
    100
  = Some (mkUser 1 100 None None None).
Proof.
  refine (proj1 (first_reservation_has_no_contact 100 1 "Ann" "555" 0 0
                   (mkWorld (create_slot d0 t0 init) [])
                   (mkSlot 1 (isoformat d0) (strftime_HM t0) 1) d0 _ _ _ _ _)).
  - apply wf_create_slot, wf_init.
  - reflexivity.
  - reflexivity.
  - reflexivity.
  - reflexivity.
Defined.

(** ** [strip] *)

Lemma append_nil_r (s : string) : (s ++ EmptyString)%string = s.
Proof. induction s as [|c s IH]; [reflexivity|]. cbn. now rewrite IH. Qed.

Lemma append_assoc (a b c : string) :
  ((a ++ b) ++ c)%string = (a ++ (b ++ c))%string.
Proof. induction a as [|x a IH]; [reflexivity|]. cbn. now rewrite IH. Qed.

Lemma chars_ascii (c : ascii) (r : string) :
  code c < 128 -> chars (String c r) = (code c, String c EmptyString) :: chars r.
Proof.
  intros H. rewrite chars_step. cbn [head_char]. cbv zeta.
  now apply Z.ltb_lt in H as ->.
Qed.

Lemma chars_empty : chars EmptyString = [].
Proof. reflexivity. Qed.

(** The bytes of the characters are the text, and no character is
    without bytes. *)
Lemma text_of_chars (s : string) : text_of (chars s) = s.
Proof.
  remember (String.length s) as n eqn:Hn.
  assert (Hle : (String.length s <= n)%nat) by lia. clear Hn.
  revert s Hle. induction n as [|n IH]; intros s Hle.
  - destruct s; [reflexivity|cbn in Hle; lia].
  - rewrite chars_step.
    destruct (head_char s) as [[[c b] rest]|] eqn:E.
    + apply head_char_bytes in E. destruct E as (Hs & _ & Hlt).
      cbn [text_of fold_right snd]. fold (text_of (chars rest)).
      rewrite IH by lia. now rewrite Hs.
    + destruct s as [|c0 r0]; [reflexivity|]. exfalso. revert E.
      cbn [head_char]. cbv zeta.
      destruct (code c0 <? 128); [discriminate|].
      destruct (continuation r0) as [[[x1 c1] r1]|]; [|discriminate].
      destruct (code c0 <? 224); [destruct (128 <=? _); discriminate|].
      destruct (continuation r1) as [[[x2 c2] r2]|]; [|discriminate].
      destruct (code c0 <? 240); [destruct (_ && _); discriminate|].
      destruct (continuation r2) as [[[x3 c3] r3]|]; [|discriminate].
      destruct (_ && _); discriminate.
Qed.

Lemma chars_bytes (s : string) (c : Z) (b : string) :
  In (c, b) (chars s) -> b <> EmptyString.
Proof.
  remember (String.length s) as n eqn:Hn.
  assert (Hle : (String.length s <= n)%nat) by lia. clear Hn.
  revert s Hle. induction n as [|n IH]; intros s Hle; rewrite chars_step.
  - destruct s; [intros []|cbn in Hle; lia].
  - destruct (head_char s) as [[[c' b'] rest]|] eqn:E; [|intros []].
    apply head_char_bytes in E. destruct E as (_ & Hb & Hlt).
    intros [[= <- <-]|Hin]; [exact Hb|]. apply (IH rest); [lia|exact Hin].
Qed.

Lemma text_of_app (a b : list (Z * string)) :
  text_of (a ++ b) = (text_of a ++ text_of b)%string.
Proof.
  induction a as [|[c x] a IH]; [reflexivity|].
  cbn [app text_of fold_right snd]. fold (text_of (a ++ b)). fold (text_of a).
  now rewrite IH, append_assoc.
Qed.

Lemma text_of_empty (cs : list (Z * string)) :
  (forall c b, In (c, b) cs -> b <> EmptyString) ->
  text_of cs = EmptyString -> cs = [].
Proof.
  destruct cs as [|[c b] cs]; [reflexivity|]. intros Hb.
  cbn [text_of fold_right snd]. intros He.
  destruct b; [now elim (Hb c EmptyString (or_introl eq_refl))|discriminate].
Qed.

Lemma all_space_app (a b : list (Z * string)) :
  all_space (a ++ b) = all_space a && all_space b.
Proof. apply forallb_app. Qed.

Lemma drop_spaces_spec (cs : list (Z * string)) :
  exists a, cs = a ++ drop_spaces cs /\ all_space a = true /\
            (drop_spaces cs = [] \/ starts_solid (drop_spaces cs) = true).
Proof.
  induction cs as [|[c b] cs (a & Ha & Hsp & Hd)].
  - exists []. repeat split. now left.
  - cbn [drop_spaces]. destruct (is_space c) eqn:E.
    + exists ((c, b) :: a). cbn [app all_space forallb fst].
      fold (all_space a). rewrite E, Hsp. split; [now rewrite <- Ha|]. split; auto.
    + exists []. repeat split. right. cbn. now rewrite E.
Qed.

Lemma drop_spaces_solid (cs : list (Z * string)) :
  starts_solid cs = true -> drop_spaces cs = cs.
Proof.
  destruct cs as [|[c b] cs]; [discriminate|]. cbn.
  now destruct (is_space c).
Qed.

Lemma drop_spaces_blank (cs : list (Z * string)) :
  all_space cs = true -> drop_spaces cs = [].
Proof.
  induction cs as [|[c b] cs IH]; [reflexivity|].
  cbn. intros H. apply andb_true_iff in H. destruct H as [-> H]. auto.
Qed.

Lemma starts_solid_app (a b : list (Z * string)) :
  a <> [] -> starts_solid (a ++ b) = starts_solid a.
Proof. destruct a as [|[c x] a]; [congruence|reflexivity]. Qed.

(** [strip] keeps the characters from the first to the last that is no
    white space. *)
Lemma strip_spec (s : string) :
  exists a mid b,
    chars s = a ++ mid ++ b /\ all_space a = true /\ all_space b = true /\
    strip s = text_of mid /\
    (mid = [] \/ starts_solid mid = true /\ starts_solid (rev mid) = true).
Proof.
  unfold strip.
  destruct (drop_spaces_spec (chars s)) as (a & Ha & Hsa & Hda).
  set (m := drop_spaces (chars s)) in *.
  destruct (drop_spaces_spec (rev m)) as (b & Hb & Hsb & Hdb).
  set (v := drop_spaces (rev m)) in *.
  exists a, (rev v), (rev b).
  assert (Hm : m = rev v ++ rev b).
  { rewrite <- rev_app_distr, <- Hb. now rewrite rev_involutive. }
  split; [now rewrite <- Hm|]. split; [exact Hsa|]. split.
  { unfold all_space. rewrite forallb_forall. intros x Hx.
    apply in_rev in Hx. unfold all_space in Hsb.
    rewrite forallb_forall in Hsb. now apply Hsb. }
  split; [reflexivity|].
  rewrite rev_involutive.
  destruct Hdb as [Hv|Hv]; [left; now rewrite Hv|]. right. split; [|exact Hv].
  assert (Hne : rev v <> []).
  { intros H. apply (f_equal (@rev _)) in H. rewrite rev_involutive in H.
    rewrite H in Hv. discriminate. }
  destruct Hda as [Hd|Hd].
  - rewrite Hd in Hm. symmetry in Hm. apply app_eq_nil in Hm. tauto.
  - rewrite Hm in Hd. now rewrite starts_solid_app in Hd.
Qed.

Lemma strip_fixed (s : string) :
  starts_solid (chars s) = true -> starts_solid (rev (chars s)) = true ->
  strip s = s.
Proof.
  intros Hf Hl. unfold strip.
  rewrite (drop_spaces_solid _ Hf), (drop_spaces_solid _ Hl), rev_involutive.
  apply text_of_chars.
Qed.

Lemma strip_blank (s : string) :
  all_space (chars s) = true -> strip s = EmptyString.
Proof.
  intros H. unfold strip. now rewrite (drop_spaces_blank _ H).
Qed.

Lemma strip_empty (s : string) :
  strip s = EmptyString -> all_space (chars s) = true.
Proof.
  intros He. destruct (strip_spec s) as (a & mid & b & Hs & Ha & Hb & Hv & _).
  rewrite He in Hv. symmetry in Hv. apply text_of_empty in Hv.
  - subst mid. rewrite Hs. cbn [app]. now rewrite all_space_app, Ha, Hb.
  - intros c x Hin. apply (chars_bytes s c x). rewrite Hs.
    apply in_or_app. right. apply in_or_app. now left.
Qed.

Example strip_white_space :
  strip (nbsp ++ " 10.06.2025" ++ wide_space ++ nbsp)%string = "10.06.2025" /\
  strip (nbsp ++ wide_space ++ " ")%string = EmptyString /\
  strip "a b" = "a b".
Proof. repeat split; reflexivity. Qed.

Example required_env_no_break_space :
  _required_env "BOT_TOKEN" (fun _ => Some nbsp) = None /\
  _required_env "BOT_TOKEN" (fun _ => Some (nbsp ++ "123:abc" ++ nbsp)%string)
  = Some "123:abc".
Proof. split; reflexivity. Qed.

(** X18: [_required_env] returns the characters of the variable from
    the first to the last that is no white space, those before and
    after being white space; the text it returns is never empty; it
    fails exactly when the variable is not set or holds white space
    only. *)
Theorem required_env_law (name : string) (env : string -> option string) :
  (forall v, _required_env name env = Some v ->
     v <> EmptyString /\
     exists raw a mid b,
       env name = Some raw /\ chars raw = a ++ mid ++ b /\
       all_space a = true /\ all_space b = true /\ v = text_of mid /\
       starts_solid mid = true /\ starts_solid (rev mid) = true) /\
  (_required_env name env = None <->
   env name = None \/
   exists raw, env name = Some raw /\ all_space (chars raw) = true).
Proof.
  unfold _required_env. split.
  - intros v. destruct (String.eqb _ EmptyString) eqn:E; [discriminate|].
    intros [= <-]. apply String.eqb_neq in E.
    destruct (env name) as [raw|]; [|now elim E].
    split; [exact E|].
    destruct (strip_spec raw) as (a & mid & b & Hs & Ha & Hb & Hv & Hm).
    exists raw, a, mid, b. repeat split; try assumption.
    + destruct Hm as [->|[H _]]; [|exact H]. now elim E.
    + destruct Hm as [->|[_ H]]; [|exact H]. now elim E.
  - destruct (env name) as [raw|].
    + destruct (String.eqb (strip raw) EmptyString) eqn:E.
      * apply String.eqb_eq in E. split; [|reflexivity].
        intros _. right. exists raw. split; [reflexivity|].
        now apply strip_empty.
      * apply String.eqb_neq in E. split; [discriminate|].
        intros [H|(r & [= <-] & Hr)]; [discriminate|].
        elim E. now apply strip_blank.
    + cbn. split; [now left|reflexivity].
Qed.

(** ** The list of times that the administrator sends *)

Lemma has_char_app (c : ascii) (a b : string) :
  has_char c (a ++ b) = has_char c a || has_char c b.
Proof.
  induction a as [|x a IH]; [reflexivity|].
  cbn. now rewrite IH, orb_assoc.
Qed.

Lemma remove_blanks_app (a b : string) :
  remove_blanks (a ++ b) = (remove_blanks a ++ remove_blanks b)%string.
Proof.
  induction a as [|x a IH]; [reflexivity|].
  cbn [append remove_blanks].
  destruct (Ascii.eqb x " "); [exact IH|]. cbn [append]. now rewrite IH.
Qed.

Lemma remove_blanks_clean (s : string) : has_char " " (remove_blanks s) = false.
Proof.
  induction s as [|x s IH]; [reflexivity|].
  cbn [remove_blanks]. destruct (Ascii.eqb x " ") eqn:E; [exact IH|].
  cbn [has_char]. rewrite Ascii.eqb_sym, E. exact IH.
Qed.

Lemma split_commas_aux_app (a b cur : string) :
  split_commas_aux (a ++ String "," b) cur
  = split_commas_aux a cur ++ split_commas_aux b EmptyString.
Proof.
  revert cur. induction a as [|x a IH]; intros cur; [reflexivity|].
  cbn [append split_commas_aux]. destruct (Ascii.eqb x ",").
  - cbn [app]. now rewrite IH.
  - apply IH.
Qed.

Lemma split_commas_aux_clean (c : ascii) (s cur p : string) :
  (has_char c s = false \/ c = ","%char) -> has_char c cur = false ->
  In p (split_commas_aux s cur) -> has_char c p = false.
Proof.
  revert cur. induction s as [|x s IH]; intros cur Hs Hcur Hp.
  - destruct Hp as [<-|[]]. exact Hcur.
  - cbn [split_commas_aux] in Hp.
    assert (Hs' : has_char c s = false \/ c = ","%char).
    { destruct Hs as [Hs|Hs]; [left|now right].
      cbn [has_char] in Hs. now apply orb_false_iff in Hs. }
    destruct (Ascii.eqb x ",") eqn:E.
    + destruct Hp as [<-|Hp]; [exact Hcur|].
      now apply (IH EmptyString).
    + apply (IH (cur ++ String x EmptyString)%string); [exact Hs'| |exact Hp].
      rewrite has_char_app, Hcur. cbn [has_char orb]. rewrite orb_false_r.
      destruct Hs as [Hs | ->].
      * cbn [has_char] in Hs. now apply orb_false_iff in Hs.
      * now rewrite Ascii.eqb_sym.
Qed.

(** X19: the entries that [admin_add_times] reads from the message are
    never empty and contain neither a comma nor a blank; blanks in the
    message are ignored wherever they stand, and a message "a,b" gives
    the entries of a followed by those of b. *)
Theorem time_parts_law (text : string) :
  (forall p, In p (time_parts text) ->
     p <> EmptyString /\ has_char "," p = false /\ has_char " " p = false) /\
  (forall a b, time_parts (a ++ " " ++ b) = time_parts (a ++ b)) /\
  (forall a b, time_parts (a ++ "," ++ b) = time_parts a ++ time_parts b).
Proof.
  split; [|split].
  - intros p Hp. unfold time_parts in Hp. apply filter_In in Hp.
    destruct Hp as [Hp Hne]. apply negb_true_iff, String.eqb_neq in Hne.
    split; [exact Hne|]. split.
    + apply (split_commas_aux_clean "," (remove_blanks text) EmptyString p);
        [now right|reflexivity|exact Hp].
    + apply (split_commas_aux_clean " " (remove_blanks text) EmptyString p);
        [left; apply remove_blanks_clean|reflexivity|exact Hp].
  - intros a b. unfold time_parts. now rewrite !remove_blanks_app.
  - intros a b. unfold time_parts, split_commas.
    rewrite remove_blanks_app.
    change (remove_blanks ("," ++ b))
      with (String ","%char (remove_blanks b)).
    rewrite split_commas_aux_app. apply filter_app.
Qed.

(** ** Callback data *)

Lemma append_inj_l (a b c : string) : (a ++ b)%string = (a ++ c)%string -> b = c.
Proof.
  induction a as [|x a IH]; [auto|]. cbn [append]. intros [= H]. auto.
Qed.

Lemma split_once_aux_spec (a b cur : string) :
  has_char ":" a = false ->
  split_once_aux (a ++ String ":" b) cur = [(cur ++ a)%string; b] /\
  split_once_aux a cur = [(cur ++ a)%string].
Proof.
  revert cur. induction a as [|x a IH]; intros cur Ha.
  - cbn. now rewrite append_nil_r.
  - cbn [has_char] in Ha. apply orb_false_iff in Ha. destruct Ha as [Hx Ha].
    cbn [append split_once_aux]. rewrite Ascii.eqb_sym, Hx.
    destruct (IH (cur ++ String x EmptyString)%string Ha) as [H1 H2].
    rewrite H1, H2, append_assoc. now split.
Qed.

Lemma split_once_colon (a b : string) :
  has_char ":" a = false -> split_once (a ++ String ":" b) = [a; b].
Proof.
  intros Ha. unfold split_once.
  now rewrite (proj1 (split_once_aux_spec a b EmptyString Ha)).
Qed.

(** ** Keyboards *)

Lemma fill_rows_spec (width : nat) (items : list button) :
  forall buttons row,
    (List.length row < width)%nat ->
    exists full r,
      fill_rows width items buttons row = (buttons ++ full, r) /\
      List.concat full ++ r = row ++ items /\
      Forall (fun x => List.length x = width) full /\
      (List.length r < width)%nat.
Proof.
  induction items as [|b items IH]; intros buttons row Hlt.
  - exists [], row. cbn. rewrite !app_nil_r. auto.
  - cbn [fill_rows]. destruct (Nat.eqb (List.length (row ++ [b])) width) eqn:E.
    + apply Nat.eqb_eq in E.
      destruct (IH (buttons ++ [row ++ [b]]) []) as (full & r & Hf & Hc & Hall & Hr);
        [cbn; lia|].
      exists ((row ++ [b]) :: full), r. rewrite Hf, <- app_assoc.
      split; [reflexivity|]. split.
      * cbn [List.concat]. rewrite <- !app_assoc, Hc. reflexivity.
      * split; [now constructor|exact Hr].
    + apply Nat.eqb_neq in E. rewrite length_app in *. cbn [List.length] in *.
      destruct (IH buttons (row ++ [b])) as (full & r & Hf & Hc & Hall & Hr);
        [rewrite length_app; cbn; lia|].
      exists full, r. rewrite Hf. split; [reflexivity|].
      split; [now rewrite Hc, <- app_assoc|]. auto.
Qed.

Lemma keyboard_spec (width : nat) (items : list button) (back : button) :
  (0 < width)%nat ->
  let rows := close_rows (fill_rows width items [] []) back in
  List.concat rows = items ++ [back] /\
  keyboard_shape width back rows /\
  Forall (fun r => (1 <= List.length r <= width)%nat) rows.
Proof.
  intros Hw rows.
  destruct (fill_rows_spec width items [] []) as (full & r & Hf & Hc & Hall & Hr);
    [exact Hw|].
  unfold rows. rewrite Hf. cbn [app] in *. unfold close_rows.
  assert (Hfull : Forall (fun r => (1 <= List.length r <= width)%nat) full).
  { eapply Forall_impl; [|exact Hall]. intros x Hx. cbv beta in *. lia. }
  destruct r as [|x r].
  - rewrite app_nil_r in Hc. split; [|split].
    + now rewrite concat_app, Hc.
    + exists full, []. auto.
    + apply Forall_app. split; [exact Hfull|].
      constructor; [cbn [List.length]; lia|constructor].
  - split; [|split].
    + rewrite !concat_app. cbn [List.concat]. rewrite !app_nil_r. now rewrite Hc.
    + exists full, [x :: r]. rewrite <- app_assoc. split; [reflexivity|].
      split; [exact Hall|]. right. exists (x :: r). split; [reflexivity|].
      cbn [List.length] in *. lia.
    + rewrite <- app_assoc. apply Forall_app. split; [exact Hfull|].
      cbn [List.length] in Hr.
      constructor; [cbn [List.length]; lia|].
      constructor; [cbn [List.length]; lia|constructor].
Qed.

(** X20: [booking_times_keyboard] shows the times in the order given,
    three to a row (one shorter row at the end if need be), then the
    row of the back button; a button carries the time as its text and
    "book_time:<slot id>" as its data, and different slots get different
    data. *)
Theorem booking_times_keyboard_law (date_str : string)
    (times : list (Z * string)) :
  let back := mkButton back_label "back_to_days" in
  let rows := booking_times_keyboard date_str times in
  List.concat rows = map time_button times ++ [back] /\
  keyboard_shape 3 back rows /\
  Forall (fun r => (1 <= List.length r <= 3)%nat) rows /\
  (forall t, In t times ->
     btn_text (time_button t) = snd t /\
     split_once (btn_callback_data (time_button t)) = ["book_time"; str (fst t)]) /\
  (NoDup (map fst times) ->
   NoDup (map btn_callback_data (map time_button times))).
Proof.
  cbv zeta. unfold booking_times_keyboard.
  destruct (keyboard_spec 3 (map time_button times)
              (mkButton back_label "back_to_days")) as (H1 & H2 & H3); [lia|].
  split; [exact H1|]. split; [exact H2|]. split; [exact H3|]. split.
  - intros t _. split; [reflexivity|].
    unfold time_button. cbn [btn_callback_data].
    now apply (split_once_colon "book_time" (str (fst t))).
  - intros Hnd. clear H1 H2 H3. rewrite map_map. cbn [time_button btn_callback_data].
    induction times as [|t times IH]; [constructor|].
    cbn [map] in *. apply NoDup_cons_iff in Hnd. destruct Hnd as [Hn Hnd].
    constructor; [|now apply IH].
    intros Hin. apply in_map_iff in Hin. destruct Hin as (t' & Heq & Ht').
    apply Hn. apply in_map_iff. exists t'. split; [|exact Ht'].
    apply append_inj_l in Heq. now apply str_inj.
Qed.

(** ** Dates and their text *)

Example toordinal_date_max : toordinal (mkDate 9999 12 31) = max_ordinal.
Proof. reflexivity. Qed.

Example weekday_tuesday : weekday d0 = 1.
Proof. reflexivity. Qed.

Example fromisoformat_d0 : fromisoformat "2025-06-10" = Some d0.
Proof. reflexivity. Qed.

Example fromisoformat_no_day_30_of_february : fromisoformat "2025-02-30" = None.
Proof. reflexivity. Qed.

Example strptime_dmY_d0 : strptime_dmY "10.06.2025" = Some d0.
Proof. reflexivity. Qed.

Example strptime_dmY_short : strptime_dmY "1.6.2025" = Some (mkDate 2025 6 1).
Proof. reflexivity. Qed.

Example strptime_dmY_iso : strptime_dmY "2025-06-10" = None.
Proof. reflexivity. Qed.

Lemma valid_range (d : date) :
  valid d = true ->
  1 <= year d <= 9999 /\ 1 <= month d <= 12 /\ 1 <= day d <= 31.
Proof.
  unfold valid, valid_date. rewrite !andb_true_iff, !Z.leb_le. intros Hv.
  assert (days_in_month (year d) (month d) <= 31).
  { unfold days_in_month.
    destruct (month d =? 2); [destruct (is_leap _); lia|].
    destruct (_ || _); lia. }
  lia.
Qed.

Lemma two_digits (n : Z) : 0 <= n <= 99 -> 10 * ((n / 10) mod 10) + n mod 10 = n.
Proof. intros H. Z.div_mod_to_equations. lia. Qed.

Lemma fromisoformat_isoformat (d : date) :
  valid d = true -> fromisoformat (isoformat d) = Some d.
Proof.
  intros Hv. destruct (valid_range d Hv) as (Hy & Hm & Hd).
  unfold fromisoformat.
  rewrite (full_match_hd _ _ (year d, month d, day d)).
  - unfold valid in Hv. rewrite Hv. now destruct d.
  - unfold regex_iso, isoformat, pad4, pad2. cbn [append].
    rewrite (bind_single _ _ _ _ _ (iso_year_pad4 (year d) _ ltac:(lia))).
    rewrite (bind_single _ _ _ _ _ (lit_same "-" _)).
    rewrite (bind_single _ _ _ _ _ (two_09 _ _ _)).
    rewrite (bind_single _ _ _ _ _ (lit_same "-" _)).
    rewrite (bind_single _ _ _ _ _ (two_09 _ _ _)).
    unfold ret. cbn [hd_error].
    now rewrite !two_digits by lia.
Qed.

Lemma isoformat_inj (d d' : date) :
  valid d = true -> valid d' = true -> isoformat d = isoformat d' -> d = d'.
Proof.
  intros Hv Hv' He. apply fromisoformat_isoformat in Hv, Hv'.
  rewrite He in Hv. congruence.
Qed.

Lemma dir_d_dot_pad2 {B} (k : Z -> matcher B) r d :
  1 <= d <= 31 ->
  bind dir_d (fun v => bind (lit ".") (fun _ => k v))
       (String (digit (d / 10)) (String (digit d) (String "." r)))
  = k d r.
Proof.
  revert d. apply Z_range_cases. small_cases 31 by run_matcher.
Qed.

Lemma dir_m_dot_pad2 {B} (k : Z -> matcher B) r m :
  1 <= m <= 12 ->
  bind dir_m (fun v => bind (lit ".") (fun _ => k v))
       (String (digit (m / 10)) (String (digit m) (String "." r)))
  = k m r.
Proof.
  revert m. apply Z_range_cases. small_cases 12 by run_matcher.
Qed.

Lemma strptime_dmY_format (d : date) :
  valid d = true -> strptime_dmY (format_dmY d) = Some d.
Proof.
  intros Hv. destruct (valid_range d Hv) as (Hy & Hm & Hd).
  unfold strptime_dmY.
  rewrite (full_match_hd _ _ (year d, month d, day d)).
  - unfold valid in Hv. rewrite Hv. now destruct d.
  - unfold regex_dmY, format_dmY, pad4, pad2. cbn [append].
    rewrite dir_d_dot_pad2 by lia.
    rewrite dir_m_dot_pad2 by lia.
    rewrite (bind_single _ _ _ _ _ (dir_Y_pad4 (year d) _ ltac:(lia))).
    reflexivity.
Qed.

Lemma strptime_dmY_valid (text : string) (d : date) :
  strptime_dmY text = Some d -> valid d = true.
Proof.
  unfold strptime_dmY.
  destruct (full_match regex_dmY text) as [[[y m] dd]|]; [|discriminate].
  destruct (valid_date y m dd) eqn:E; [|discriminate].
  intros [= <-]. exact E.
Qed.

Lemma code_digit (n : Z) : code (digit n) = 48 + n mod 10.
Proof.
  unfold digit. pose proof (Z.mod_pos_bound n 10 ltac:(lia)) as Hk.
  set (k := n mod 10) in *.
  assert (E : k = 0 \/ k = 1 \/ k = 2 \/ k = 3 \/ k = 4 \/ k = 5 \/ k = 6 \/
              k = 7 \/ k = 8 \/ k = 9) by lia.
  repeat (destruct E as [E|E]; [rewrite E; reflexivity|]).
  rewrite E. reflexivity.
Qed.

Lemma digit_not_space (n : Z) : is_space (code (digit n)) = false.
Proof.
  rewrite code_digit. pose proof (Z.mod_pos_bound n 10 ltac:(lia)) as Hk.
  unfold is_space.
  repeat match goal with
         | |- context [?a <=? ?b] => destruct (Z.leb_spec a b); try lia
         | |- context [?a =? ?b] => destruct (Z.eqb_spec a b); try lia
         end.
  all: reflexivity.
Qed.

Lemma chars_digit (n : Z) (r : string) :
  chars (String (digit n) r)
  = (code (digit n), String (digit n) EmptyString) :: chars r.
Proof.
  apply chars_ascii. rewrite code_digit.
  pose proof (Z.mod_pos_bound n 10 ltac:(lia)). lia.
Qed.

Lemma strip_format_dmY (d : date) : strip (format_dmY d) = format_dmY d.
Proof.
  assert (Hdot : forall r, chars (String "." r)
                           = (46, String "." EmptyString) :: chars r)
    by (intros r; now apply chars_ascii).
  apply strip_fixed; unfold format_dmY, pad4, pad2; cbn [append];
    repeat (rewrite chars_digit || rewrite Hdot); rewrite chars_empty.
  - cbn [starts_solid]. now rewrite digit_not_space.
  - cbn [rev app starts_solid]. now rewrite digit_not_space.
Qed.

Example admin_add_day_date_white_space :
  admin_add_day_date 7 7 (nbsp ++ "10.06.2025" ++ nbsp)%string
  = DayAccepted "2025-06-10" /\
  admin_add_day_date 7 7 "1٠.06.٢٠٢٥" = DayAccepted "2025-06-10" /\
  admin_add_day_date 7 7 "٣1.01.2025" = DayBadFormat.
Proof. repeat split; reflexivity. Qed.

(** X21: [admin_add_day_date] refuses anyone but the administrator; the
    day it accepts is the [isoformat] of the calendar date that
    [strptime] read from the stripped message, which [fromisoformat]
    reads back as the same date; the text DD.MM.YYYY of any calendar
    date is accepted. *)
Theorem admin_add_day_date_law (from_user admin_id : Z) (text : string) :
  (from_user <> admin_id ->
   admin_add_day_date from_user admin_id text = DayNoRights) /\
  (forall admin_day,
     admin_add_day_date from_user admin_id text = DayAccepted admin_day ->
     from_user = admin_id /\
     exists d, strptime_dmY (strip text) = Some d /\ valid d = true /\
               admin_day = isoformat d /\ fromisoformat admin_day = Some d) /\
  (forall d, valid d = true ->
     admin_add_day_date admin_id admin_id (format_dmY d)
     = DayAccepted (isoformat d)).
Proof.
  unfold admin_add_day_date. split; [|split].
  - intros Hne. now apply Z.eqb_neq in Hne as ->.
  - intros admin_day. destruct (from_user =? admin_id) eqn:E; [|discriminate].
    cbn [negb]. apply Z.eqb_eq in E.
    destruct (strptime_dmY (strip text)) as [d|] eqn:Hd; [|discriminate].
    intros [= <-]. split; [exact E|]. exists d.
    pose proof (strptime_dmY_valid _ _ Hd) as Hv.
    split; [reflexivity|]. split; [exact Hv|]. split; [reflexivity|].
    now apply fromisoformat_isoformat.
  - intros d Hv. rewrite Z.eqb_refl. cbn [negb].
    now rewrite strip_format_dmY, strptime_dmY_format.
Qed.

(** ** The dates and times in the store *)

Lemma slot_texts_step (o : op) (s : db) (P : slot -> Prop) :
  (forall sl, P sl -> P (set_available 0 sl) /\ P (set_available 1 sl)) ->
  (forall d t, o = OpCreateSlot d t ->
     P (mkSlot (slots_seq s + 1) (isoformat d) (strftime_HM t) 1)) ->
  (forall sl, In sl (slots s) -> P sl) ->
  forall sl, In sl (slots (apply_op o s)) -> P sl.
Proof.
  intros Hset Hnew Hold sl Hin.
  assert (Hupd : forall sid v s0, (v = 0 \/ v = 1) ->
            (forall x, In x (slots s0) -> P x) ->
            forall x, In x (slots (update_slot_available sid v s0)) -> P x).
  { intros sid v s0 Hv H0 x Hx. unfold update_slot_available in Hx.
    cbn [slots set_slots] in Hx. apply in_map_iff in Hx.
    destruct Hx as (y & <- & Hy). destruct (s_id y =? sid); [|auto].
    destruct Hv as [-> | ->]; now apply Hset, H0. }
  destruct o; cbn [apply_op] in Hin.
  - unfold create_slot in Hin. cbn [slots set_slots] in Hin.
    apply in_app_or in Hin. destruct Hin as [Hin|[<-|[]]]; [auto|].
    now apply (Hnew d t).
  - unfold delete_slot in Hin. cbn [slots set_slots] in Hin.
    apply filter_In in Hin. now apply Hold.
  - unfold close_day in Hin. cbn [slots set_slots] in Hin.
    apply in_map_iff in Hin. destruct Hin as (y & <- & Hy).
    destruct (String.eqb _ _); [now apply Hset, Hold|auto].
  - rewrite book_slot_unfold in Hin. cbv zeta in Hin.
    pose proof (get_or_create_user_frame tg_id s) as (Hsl & _).
    destruct (active_bookings_of_tg s tg_id); [|now apply Hold].
    destruct (slot_by_id _ slot_id) as [row|];
      [|cbn [snd] in Hin; rewrite Hsl in Hin; now apply Hold].
    destruct (s_is_available row =? 0);
      [cbn [snd] in Hin; rewrite Hsl in Hin; now apply Hold|].
    cbn [snd] in Hin. unfold insert_booking in Hin.
    cbn [slots set_bookings] in Hin.
    apply (Hupd slot_id 0 (snd (get_or_create_user tg_id s))); auto.
    intros x Hx. rewrite Hsl in Hx. now apply Hold.
  - rewrite cancel_booking_unfold in Hin.
    destruct (find _ (bookings s)) as [row|]; [|now apply Hold].
    cbv zeta in Hin. cbn [snd] in Hin.
    apply (Hupd (b_slot_id row) 1
             (set_bookings s (cancel_rows booking_id (bookings s))
                (bookings_seq s))); auto.
  - now apply Hold.
  - now apply Hold.
  - now apply Hold.
  - unfold delete_reminder in Hin.
    destruct (find _ (reminders s)); now apply Hold.
Qed.

Lemma typed_slots (s : db) :
  reachable_by typed_op s ->
  forall sl, In sl (slots s) ->
    exists d t, valid d = true /\ time_of_day t = true /\
                s_date sl = isoformat d /\ s_time sl = strftime_HM t.
Proof.
  induction 1 as [|s o Hr IH Hty]; [intros sl []|].
  apply slot_texts_step.
  - intros sl (d & t & H). split; exists d, t; exact H.
  - intros d t ->. cbn [typed_op] in Hty. apply andb_true_iff in Hty.
    exists d, t. cbn. tauto.
  - exact IH.
Qed.

Lemma typed_slot_dates_valid (s : db) :
  reachable_by typed_op s -> slot_dates_valid s.
Proof.
  intros Hr sl Hin. destruct (typed_slots s Hr sl Hin) as (d & _ & Hv & _ & Hd & _).
  now exists d.
Qed.

Lemma time_of_day_range (t : time) :
  time_of_day t = true -> 0 <= hour t <= 23 /\ 0 <= minute t <= 59.
Proof.
  unfold time_of_day. rewrite !andb_true_iff, !Z.leb_le. lia.
Qed.

(** X22: in every store reached by operations whose [create_slot] is
    given a calendar date and a time of day, every slot carries the
    [isoformat] of one calendar date and the HH:MM of one time of day,
    which [fromisoformat], [strptime] with "%H:%M" and the [strptime] of
    [schedule_reminder] read back; no operation rewrites them. *)
Theorem slot_texts_stay_readable (s : db) :
  reachable_by typed_op s ->
  forall sl, In sl (slots s) ->
    exists d t,
      valid d = true /\ time_of_day t = true /\
      s_date sl = isoformat d /\ s_time sl = strftime_HM t /\
      fromisoformat (s_date sl) = Some d /\
      strptime_HM (s_time sl) = Some t /\
      slot_datetime (s_date sl) (s_time sl)
      = Some (datetime_of (year d) (month d) (day d) (hour t) (minute t)) /\
      (forall d', valid d' = true -> s_date sl = isoformat d' -> d' = d).
Proof.
  intros Hr sl Hin. destruct (typed_slots s Hr sl Hin) as (d & t & Hv & Ht & Hd & Htm).
  exists d, t. rewrite Hd, Htm.
  destruct (time_of_day_range t Ht) as [Hh Hmi].
  repeat (split; [assumption || reflexivity|]).
  split; [now apply fromisoformat_isoformat|].
  split; [now apply strptime_HM_reads_back|].
  split; [now apply slot_text_reads_back|].
  intros d' Hv' He. now apply isoformat_inj.
Qed.

Lemma slot_texts_stay_readable_witness :
  exists d t,
    valid d = true /\ time_of_day t = true /\
    s_date (mkSlot 1 (isoformat d0) (strftime_HM t0) 1) = isoformat d /\
    s_time (mkSlot 1 (isoformat d0) (strftime_HM t0) 1) = strftime_HM t /\
    fromisoformat (s_date (mkSlot 1 (isoformat d0) (strftime_HM t0) 1)) = Some d /\
    strptime_HM (s_time (mkSlot 1 (isoformat d0) (strftime_HM t0) 1)) = Some t /\
    slot_datetime (s_date (mkSlot 1 (isoformat d0) (strftime_HM t0) 1))
                  (s_time (mkSlot 1 (isoformat d0) (strftime_HM t0) 1))
    = Some (datetime_of (year d) (month d) (day d) (hour t) (minute t)) /\
    (forall d', valid d' = true ->
       s_date (mkSlot 1 (isoformat d0) (strftime_HM t0) 1) = isoformat d' -> d' = d).
Proof.
  apply (slot_texts_stay_readable (apply_op (OpCreateSlot d0 t0) init)).
  - apply reach_step; [apply reach_init|reflexivity].
  - now left.
Defined.

(** ** The days that are offered *)

Example get_available_days_week :
  get_available_days monday
    (create_slot (mkDate 2025 6 14) t0 (create_slot d0 t1 (create_slot d0 t0 init)))
  = Ok ["2025-06-10"].
Proof. reflexivity. Qed.

Lemma distinct_in (l : list string) (x : string) :
  In x (distinct l) <-> In x l.
Proof.
  induction l as [|y l IH]; [tauto|].
  cbn [distinct]. destruct (existsb (String.eqb y) l) eqn:E.
  - rewrite IH. cbn [In]. split; [tauto|]. intros [<-|H]; [|exact H].
    apply existsb_exists in E. destruct E as (z & Hz & Hyz).
    apply String.eqb_eq in Hyz. now subst.
  - cbn [In]. now rewrite IH.
Qed.

Lemma distinct_NoDup (l : list string) : NoDup (distinct l).
Proof.
  induction l as [|y l IH]; [constructor|].
  cbn [distinct]. destruct (existsb (String.eqb y) l) eqn:E; [exact IH|].
  constructor; [|exact IH].
  rewrite distinct_in. intros Hin.
  assert (existsb (String.eqb y) l = true); [|congruence].
  apply existsb_exists. exists y. split; [exact Hin|apply String.eqb_refl].
Qed.

Lemma in_available_dates (s : db) (x : string) :
  In x (available_dates s) <->
  exists sl, In sl (slots s) /\ s_is_available sl = 1 /\ s_date sl = x.
Proof.
  unfold available_dates. rewrite order_by_in, distinct_in, in_map_iff.
  split; intros (sl & H1 & H2); exists sl.
  - apply filter_In in H2. destruct H2 as [H2 H3]. apply Z.eqb_eq in H3. auto.
  - destruct H2 as [H2 H3]. split; [exact H3|].
    apply filter_In. split; [exact H1|now apply Z.eqb_eq].
Qed.

Lemma available_dates_NoDup (s : db) : NoDup (available_dates s).
Proof.
  unfold available_dates.
  rewrite <- (map_id (order_by _ _)). apply order_by_NoDup.
  rewrite map_id. apply distinct_NoDup.
Qed.

Lemma sorted_by_filter {A} (key : A -> string) (p : A -> bool) (l : list A) :
  sorted_by key l -> sorted_by key (filter p l).
Proof.
  unfold sorted_by. induction 1 as [|x l Hs IH Hx]; [constructor|].
  cbn [filter]. destruct (p x); [|exact IH].
  constructor; [exact IH|].
  rewrite Forall_forall in *. intros y Hy. apply filter_In in Hy.
  now apply Hx.
Qed.

Lemma days_loop_spec (today limit : Z) (rows days : list string) :
  (forall r, In r rows -> exists d, valid d = true /\ r = isoformat d) ->
  days_loop today limit rows days
  = Ok (days ++ filter (in_window today limit) rows).
Proof.
  revert days. induction rows as [|r rows IH]; intros days Hrows.
  - cbn. now rewrite app_nil_r.
  - cbn [days_loop filter]. unfold in_window at 1.
    destruct (Hrows r (or_introl eq_refl)) as (d & Hv & ->).
    rewrite (fromisoformat_isoformat d Hv).
    destruct (_ && _).
    + rewrite IH by (intros x Hx; apply Hrows; now right).
      now rewrite <- app_assoc.
    + apply IH. intros x Hx. apply Hrows. now right.
Qed.

Lemma get_available_days_ok (today : date) (s : db) :
  slot_dates_valid s -> toordinal today + 31 <= max_ordinal ->
  get_available_days today s
  = Ok (filter (in_window (toordinal today) (toordinal today + 31))
               (available_dates s)).
Proof.
  intros Hs Hmax. unfold get_available_days.
  assert ((max_ordinal <? toordinal today + 31) = false) as ->
    by (apply Z.ltb_ge; lia).
  rewrite days_loop_spec; [reflexivity|].
  intros r Hr. apply in_available_dates in Hr.
  destruct Hr as (sl & Hin & _ & <-). now apply Hs.
Qed.

Lemma in_offered_days (today : date) (s : db) (day_str : string) :
  slot_dates_valid s ->
  In day_str (filter (in_window (toordinal today) (toordinal today + 31))
                     (available_dates s)) <->
  exists d sl,
    valid d = true /\ day_str = isoformat d /\
    In sl (slots s) /\ s_is_available sl = 1 /\ s_date sl = day_str /\
    toordinal today <= toordinal d <= toordinal today + 31 /\
    weekday d < 5.
Proof.
  intros Hs. rewrite filter_In, in_available_dates. split.
  - intros ((sl & Hin & Hav & Hd) & Hw).
    destruct (Hs sl Hin) as (d & Hv & Hd').
    exists d, sl. rewrite <- Hd, Hd' in Hw. unfold in_window in Hw.
    rewrite (fromisoformat_isoformat d Hv) in Hw.
    rewrite !andb_true_iff, !Z.leb_le, Z.ltb_lt in Hw.
    repeat split; try tauto; congruence.
  - intros (d & sl & Hv & -> & Hin & Hav & Hd & Hw & Hwd).
    split; [now exists sl|].
    unfold in_window. rewrite (fromisoformat_isoformat d Hv).
    rewrite !andb_true_iff, !Z.leb_le, Z.ltb_lt. lia.
Qed.

Lemma slot_dates_valid_demo : slot_dates_valid (create_slot d0 t0 init).
Proof.
  intros sl [<-|[]]. exists d0. split; reflexivity.
Qed.

(** X23: when every slot carries the [isoformat] of a calendar date,
    [get_available_days] raises OverflowError when today is within
    31 days of the last date; otherwise it returns, without repeats and
    in the order of the text, exactly the dates that have a slot with
    flag 1, lie between today and today + 31 days (both included) and
    are not a Saturday or a Sunday. *)
Theorem get_available_days_law (today : date) (s : db) :
  slot_dates_valid s ->
  (max_ordinal < toordinal today + 31 ->
   get_available_days today s = Raise OverflowError) /\
  (toordinal today + 31 <= max_ordinal ->
   exists days,
     get_available_days today s = Ok days /\
     NoDup days /\ sorted_by (fun x => x) days /\
     forall day_str,
       In day_str days <->
       exists d sl,
         valid d = true /\ day_str = isoformat d /\
         In sl (slots s) /\ s_is_available sl = 1 /\ s_date sl = day_str /\
         toordinal today <= toordinal d <= toordinal today + 31 /\
         weekday d < 5).
Proof.
  intros Hs. split.
  - intros Hmax. unfold get_available_days.
    now apply Z.ltb_lt in Hmax as ->.
  - intros Hmax. eexists. split; [now apply get_available_days_ok|].
    split; [apply NoDup_filter, available_dates_NoDup|].
    split; [apply sorted_by_filter, order_by_sorted|].
    intros day_str. now apply in_offered_days.
Qed.

Lemma get_available_days_law_witness :
  exists days,
    get_available_days monday (create_slot d0 t0 init) = Ok days /\
    NoDup days /\ sorted_by (fun x => x) days /\
    forall day_str,
      In day_str days <->
      exists d sl,
        valid d = true /\ day_str = isoformat d /\
        In sl (slots (create_slot d0 t0 init)) /\ s_is_available sl = 1 /\
        s_date sl = day_str /\
        toordinal monday <= toordinal d <= toordinal monday + 31 /\
        weekday d < 5.
Proof.
  apply (proj2 (get_available_days_law monday (create_slot d0 t0 init)
                  slot_dates_valid_demo)).
  vm_compute. discriminate.
Defined.

(** ** From the days that are offered to the times of a day *)

Lemma day_buttons_ok (days : list string) :
  (forall r, In r days -> exists d, valid d = true /\ r = isoformat d) ->
  exists bs,
    day_buttons days = Ok bs /\
    map btn_callback_data bs = map (fun r => ("book_day:" ++ r)%string) days /\
    Forall2 (fun r b => exists d, valid d = true /\ r = isoformat d /\
                                  btn_text b = strftime_dm d) days bs.
Proof.
  induction days as [|r days IH]; intros H.
  - exists []. repeat split. constructor.
  - destruct (H r (or_introl eq_refl)) as (d & Hv & ->).
    destruct IH as (bs & Hbs & Hcb & Hall); [intros x Hx; apply H; now right|].
    cbn [day_buttons]. rewrite (fromisoformat_isoformat d Hv), Hbs.
    eexists. split; [reflexivity|]. split.
    + cbn [map btn_callback_data]. now rewrite Hcb.
    + constructor; [|exact Hall]. exists d. auto.
Qed.

Lemma split_once_book_day (x : string) :
  split_once ("book_day:" ++ x) = ["book_day"; x].
Proof. exact (split_once_colon "book_day" x eq_refl). Qed.

Lemma choose_day_offered (d : date) (s : db) (sl : slot) :
  valid d = true -> In sl (slots s) -> s_is_available sl = 1 ->
  s_date sl = isoformat d ->
  exists row rows,
    get_available_times d s = row :: rows /\
    choose_day ("book_day:" ++ isoformat d) s
    = Ok (ChooseTime (isoformat d)
            (booking_times_keyboard (isoformat d)
               (map (fun x => (s_id x, s_time x)) (row :: rows)))).
Proof.
  intros Hv Hin Hav Hd. unfold choose_day.
  rewrite split_once_book_day.
  rewrite (fromisoformat_isoformat d Hv).
  destruct (get_available_times d s) as [|row rows] eqn:E.
  - assert (In sl (get_available_times d s))
      by (apply in_get_available_times; auto).
    rewrite E in H. contradiction.
  - exists row, rows. split; reflexivity.
Qed.

(** X24: when every slot carries the [isoformat] of a calendar date,
    every day that [get_available_days] returns gets a button of
    [booking_days_keyboard] (four to a row, then the back button) whose
    data [choose_day] reads back as that day, and on the same store
    [choose_day] then shows at least one time: it does not raise and
    does not answer "no free time". *)
Theorem offered_day_has_times (today : date) (s : db) (days : list string) :
  slot_dates_valid s -> get_available_days today s = Ok days ->
  (exists bs,
     booking_days_keyboard days
     = Ok (close_rows (fill_rows 4 bs [] []) (mkButton back_label "back_to_menu")) /\
     map btn_callback_data bs = map (fun r => ("book_day:" ++ r)%string) days /\
     keyboard_shape 4 (mkButton back_label "back_to_menu")
       (close_rows (fill_rows 4 bs [] []) (mkButton back_label "back_to_menu"))) /\
  (forall day_str, In day_str days ->
     exists d row rows,
       fromisoformat day_str = Some d /\
       get_available_times d s = row :: rows /\
       choose_day ("book_day:" ++ day_str) s
       = Ok (ChooseTime day_str
               (booking_times_keyboard day_str
                  (map (fun x => (s_id x, s_time x)) (row :: rows))))).
Proof.
  intros Hs Hdays.
  assert (Hmax : toordinal today + 31 <= max_ordinal).
  { unfold get_available_days in Hdays.
    destruct (max_ordinal <? toordinal today + 31) eqn:E; [discriminate|].
    now apply Z.ltb_ge in E. }
  rewrite (get_available_days_ok today s Hs Hmax) in Hdays.
  injection Hdays as <-.
  split.
  - destruct (day_buttons_ok
                (filter (in_window (toordinal today) (toordinal today + 31))
                        (available_dates s))) as (bs & Hbs & Hcb & _).
    { intros r Hr. apply (in_offered_days today s r Hs) in Hr.
      destruct Hr as (d & _ & Hv & -> & _). now exists d. }
    exists bs. unfold booking_days_keyboard. rewrite Hbs.
    split; [reflexivity|]. split; [exact Hcb|].
    apply (keyboard_spec 4 bs). lia.
  - intros day_str Hin. apply (in_offered_days today s day_str Hs) in Hin.
    destruct Hin as (d & sl & Hv & -> & Hsl & Hav & Hd & _).
    destruct (choose_day_offered d s sl Hv Hsl Hav Hd) as (row & rows & H1 & H2).
    exists d, row, rows. split; [now apply fromisoformat_isoformat|]. auto.
Qed.

Lemma offered_day_has_times_witness :
  exists d row rows,
    fromisoformat "2025-06-10" = Some d /\
    get_available_times d (create_slot d0 t0 init) = row :: rows /\
    choose_day ("book_day:" ++ "2025-06-10") (create_slot d0 t0 init)
    = Ok (ChooseTime "2025-06-10"
            (booking_times_keyboard "2025-06-10"
               (map (fun x => (s_id x, s_time x)) (row :: rows)))).
Proof.
  apply (proj2 (offered_day_has_times monday (create_slot d0 t0 init)
                  ["2025-06-10"] slot_dates_valid_demo eq_refl)).
  now left.
Defined.

(** ** The order of the text is the order of time *)

Lemma digit_compare (a b : Z) :
  Ascii.compare (digit a) (digit b) = Z.compare (a mod 10) (b mod 10).
Proof.
  unfold digit.
  pose proof (Z.mod_pos_bound a 10 ltac:(lia)) as Ha.
  pose proof (Z.mod_pos_bound b 10 ltac:(lia)) as Hb.
  set (x := a mod 10) in *. set (y := b mod 10) in *.
  assert (Ex : x = 0 \/ x = 1 \/ x = 2 \/ x = 3 \/ x = 4 \/ x = 5 \/ x = 6 \/
               x = 7 \/ x = 8 \/ x = 9) by lia.
  assert (Ey : y = 0 \/ y = 1 \/ y = 2 \/ y = 3 \/ y = 4 \/ y = 5 \/ y = 6 \/
               y = 7 \/ y = 8 \/ y = 9) by lia.
  clear Ha Hb.
  repeat (destruct Ex as [Ex|Ex]; [rewrite Ex; clear Ex;
    repeat (destruct Ey as [Ey|Ey]; [rewrite Ey; reflexivity|]);
    rewrite Ey; reflexivity|]).
  rewrite Ex; clear Ex.
  repeat (destruct Ey as [Ey|Ey]; [rewrite Ey; reflexivity|]).
  rewrite Ey; reflexivity.
Qed.

Lemma pad2_compare (a b : Z) (r r' : string) :
  0 <= a <= 99 -> 0 <= b <= 99 ->
  String.compare (pad2 a ++ r) (pad2 b ++ r')
  = match a ?= b with
    | Eq => String.compare r r'
    | c => c
    end.
Proof.
  intros Ha Hb. unfold pad2. cbn [append String.compare].
  rewrite !digit_compare.
  destruct (Z.compare_spec ((a / 10) mod 10) ((b / 10) mod 10));
  destruct (Z.compare_spec (a mod 10) (b mod 10));
  destruct (Z.compare_spec a b); try reflexivity;
    exfalso; Z.div_mod_to_equations; lia.
Qed.

Lemma digit_ext (a b : Z) : a mod 10 = b mod 10 -> digit a = digit b.
Proof. unfold digit. now intros ->. Qed.

Lemma pad4_split (y : Z) (r : string) :
  0 <= y <= 9999 ->
  (pad4 y ++ r)%string = (pad2 (y / 100) ++ (pad2 (y mod 100) ++ r))%string.
Proof.
  intros Hy. unfold pad4, pad2. cbn [append].
  rewrite (digit_ext (y / 1000) (y / 100 / 10))
    by (Z.div_mod_to_equations; lia).
  rewrite (digit_ext (y / 10) (y mod 100 / 10))
    by (Z.div_mod_to_equations; lia).
  rewrite (digit_ext y (y mod 100)) by (Z.div_mod_to_equations; lia).
  reflexivity.
Qed.

Lemma pad4_compare (a b : Z) (r r' : string) :
  0 <= a <= 9999 -> 0 <= b <= 9999 ->
  String.compare (pad4 a ++ r) (pad4 b ++ r')
  = match a ?= b with
    | Eq => String.compare r r'
    | c => c
    end.
Proof.
  intros Ha Hb. rewrite !pad4_split by assumption.
  rewrite pad2_compare by (Z.div_mod_to_equations; lia).
  rewrite pad2_compare by (Z.div_mod_to_equations; lia).
  destruct (Z.compare_spec (a / 100) (b / 100));
  destruct (Z.compare_spec (a mod 100) (b mod 100));
  destruct (Z.compare_spec a b); try reflexivity;
    exfalso; Z.div_mod_to_equations; lia.
Qed.

Lemma compare_same_head (c : ascii) (r r' : string) :
  String.compare (String c r) (String c r') = String.compare r r'.
Proof. cbn [String.compare]. now rewrite ascii_compare_refl. Qed.

Lemma strftime_HM_compare (t t' : time) :
  time_of_day t = true -> time_of_day t' = true ->
  String.compare (strftime_HM t) (strftime_HM t')
  = (minute_of_day t ?= minute_of_day t').
Proof.
  unfold time_of_day, minute_of_day.
  rewrite !andb_true_iff, !Z.leb_le. intros Ht Ht'.
  unfold strftime_HM.
  rewrite pad2_compare by lia.
  change (":" ++ pad2 (minute t))%string with (String ":"%char (pad2 (minute t))).
  change (":" ++ pad2 (minute t'))%string with (String ":"%char (pad2 (minute t'))).
  rewrite compare_same_head.
  rewrite <- (append_nil_r (pad2 (minute t))), <- (append_nil_r (pad2 (minute t'))).
  rewrite pad2_compare by lia. cbn [String.compare].
  destruct (Z.compare_spec (hour t) (hour t'));
  destruct (Z.compare_spec (minute t) (minute t'));
  destruct (Z.compare_spec (60 * hour t + minute t) (60 * hour t' + minute t'));
    try reflexivity; exfalso; lia.
Qed.

(** *** The calendar *)

Lemma days_before_year_succ (y : Z) :
  days_before_year (y + 1)
  = days_before_year y + 365 + (if is_leap y then 1 else 0).
Proof.
  unfold days_before_year, is_leap.
  replace (y + 1 - 1) with y by lia.
  destruct (y mod 4 =? 0) eqn:E4; destruct (y mod 100 =? 0) eqn:E100;
    destruct (y mod 400 =? 0) eqn:E400; cbn [negb andb orb];
    rewrite ?Z.eqb_eq, ?Z.eqb_neq in *;
    Z.div_mod_to_equations; lia.
Qed.

Lemma days_before_year_mono (y y' : Z) :
  y <= y' -> days_before_year y <= days_before_year y'.
Proof.
  intros H. unfold days_before_year. Z.div_mod_to_equations. lia.
Qed.

Lemma days_in_month_bounds (y m : Z) : 28 <= days_in_month y m <= 31.
Proof.
  unfold days_in_month.
  destruct (m =? 2); [destruct (is_leap y); lia|].
  destruct (_ || _); lia.
Qed.

Lemma days_before_month_succ (y m : Z) :
  1 <= m ->
  days_before_month y (m + 1) = days_before_month y m + days_in_month y m.
Proof.
  intros Hm. unfold days_before_month.
  replace (Z.to_nat (m + 1 - 1)) with (S (Z.to_nat (m - 1))) by lia.
  cbn [days_before_month_nat]. do 2 f_equal. lia.
Qed.

Lemma days_before_month_mono (y m m' : Z) :
  1 <= m <= m' -> days_before_month y m <= days_before_month y m'.
Proof.
  intros H. replace m' with (m + Z.of_nat (Z.to_nat (m' - m))) by lia.
  induction (Z.to_nat (m' - m)) as [|k IH].
  - rewrite Z.add_0_r. lia.
  - replace (m + Z.of_nat (S k)) with (m + Z.of_nat k + 1) by lia.
    rewrite days_before_month_succ by lia.
    pose proof (days_in_month_bounds y (m + Z.of_nat k)). lia.
Qed.

Lemma days_before_month_13 (y : Z) :
  days_before_month y 13 = 365 + (if is_leap y then 1 else 0).
Proof.
  unfold days_before_month. change (Z.to_nat (13 - 1)) with 12%nat.
  cbn [days_before_month_nat]. unfold days_in_month. cbn.
  destruct (is_leap y); reflexivity.
Qed.

Lemma toordinal_lt_year (d d' : date) :
  valid d = true -> valid d' = true -> year d < year d' ->
  toordinal d < toordinal d'.
Proof.
  intros Hv Hv' Hy.
  destruct (valid_range d Hv) as (_ & Hm & _).
  destruct (valid_range d' Hv') as (_ & Hm' & Hd').
  unfold valid, valid_date in Hv. rewrite !andb_true_iff, !Z.leb_le in Hv.
  unfold toordinal, ymd2ord.
  pose proof (days_before_year_mono (year d + 1) (year d') ltac:(lia)).
  pose proof (days_before_year_succ (year d)).
  pose proof (days_before_month_succ (year d) (month d) ltac:(lia)).
  pose proof (days_before_month_mono (year d) (month d + 1) 13 ltac:(lia)).
  pose proof (days_before_month_13 (year d)).
  pose proof (days_before_month_mono (year d') 1 (month d') ltac:(lia)).
  assert (days_before_month (year d') 1 = 0) by reflexivity.
  lia.
Qed.

Lemma toordinal_lt_month (d d' : date) :
  valid d = true -> valid d' = true ->
  year d = year d' -> month d < month d' ->
  toordinal d < toordinal d'.
Proof.
  intros Hv Hv' Hy Hmm.
  destruct (valid_range d Hv) as (_ & Hm & _).
  destruct (valid_range d' Hv') as (_ & Hm' & Hd').
  unfold valid, valid_date in Hv. rewrite !andb_true_iff, !Z.leb_le in Hv.
  unfold toordinal, ymd2ord. rewrite <- Hy.
  pose proof (days_before_month_succ (year d) (month d) ltac:(lia)).
  pose proof (days_before_month_mono (year d) (month d + 1) (month d') ltac:(lia)).
  lia.
Qed.

(** The ordinal of a calendar date grows with (year, month, day). *)
Lemma toordinal_compare (d d' : date) :
  valid d = true -> valid d' = true ->
  (toordinal d ?= toordinal d')
  = match year d ?= year d' with
    | Eq => match month d ?= month d' with
            | Eq => day d ?= day d'
            | c => c
            end
    | c => c
    end.
Proof.
  intros Hv Hv'.
  destruct (Z.compare_spec (year d) (year d')) as [Hy|Hy|Hy].
  - destruct (Z.compare_spec (month d) (month d')) as [Hm|Hm|Hm].
    + unfold toordinal, ymd2ord. rewrite Hy, Hm.
      destruct (Z.compare_spec (day d) (day d'));
        [apply Z.compare_eq_iff|apply Z.compare_lt_iff|apply Z.compare_gt_iff];
        lia.
    + apply Z.compare_lt_iff. now apply toordinal_lt_month.
    + apply Z.compare_gt_iff. now apply toordinal_lt_month.
  - apply Z.compare_lt_iff. now apply toordinal_lt_year.
  - apply Z.compare_gt_iff. now apply toordinal_lt_year.
Qed.

Lemma isoformat_compare (d d' : date) :
  valid d = true -> valid d' = true ->
  String.compare (isoformat d) (isoformat d') = (toordinal d ?= toordinal d').
Proof.
  intros Hv Hv'. rewrite (toordinal_compare d d' Hv Hv').
  destruct (valid_range d Hv) as (Hy & Hm & Hd).
  destruct (valid_range d' Hv') as (Hy' & Hm' & Hd').
  unfold isoformat.
  rewrite pad4_compare by lia.
  destruct (year d ?= year d'); try reflexivity.
  change ("-" ++ pad2 (month d) ++ "-" ++ pad2 (day d))%string
    with (String "-"%char (pad2 (month d) ++ String "-"%char (pad2 (day d)))).
  change ("-" ++ pad2 (month d') ++ "-" ++ pad2 (day d'))%string
    with (String "-"%char (pad2 (month d') ++ String "-"%char (pad2 (day d')))).
  rewrite compare_same_head, pad2_compare by lia.
  destruct (month d ?= month d'); try reflexivity.
  rewrite compare_same_head.
  rewrite <- (append_nil_r (pad2 (day d))), <- (append_nil_r (pad2 (day d'))).
  rewrite pad2_compare by lia.
  now destruct (day d ?= day d').
Qed.

Lemma text_le_compare (a b : string) (x y : Z) :
  String.compare a b = (x ?= y) -> (text_le a b <-> x <= y).
Proof.
  unfold text_le, String.leb. intros ->.
  destruct (Z.compare_spec x y); split; intros; try lia; try reflexivity;
    discriminate.
Qed.

Lemma toordinal_inj (d d' : date) :
  valid d = true -> valid d' = true -> toordinal d = toordinal d' -> d = d'.
Proof.
  intros Hv Hv' He. apply isoformat_inj; try assumption.
  apply String.compare_eq_iff. rewrite isoformat_compare by assumption.
  now apply Z.compare_eq_iff.
Qed.

Lemma StronglySorted_weaken {A} (R R' : A -> A -> Prop) (l : list A) :
  (forall x y, In x l -> In y l -> R x y -> R' x y) ->
  StronglySorted R l -> StronglySorted R' l.
Proof.
  intros H Hs. induction Hs as [|x l Hs IH Hx]; [constructor|].
  constructor.
  - apply IH. intros a b Ha Hb. apply H; now right.
  - rewrite Forall_forall in *. intros y Hy.
    apply H; [now left|now right|now apply Hx].
Qed.

Lemma StronglySorted_NoDup_strict {A} (R : A -> A -> Prop) (l : list A) :
  NoDup l -> StronglySorted R l ->
  StronglySorted (fun x y => R x y /\ x <> y) l.
Proof.
  intros Hnd Hs. induction Hs as [|x l Hs IH Hx]; [constructor|].
  apply NoDup_cons_iff in Hnd. destruct Hnd as [Hn Hnd].
  constructor; [now apply IH|].
  rewrite Forall_forall in *. intros y Hy. split; [now apply Hx|].
  intros ->. contradiction.
Qed.

(** X25: since [create_slot] stores zero-padded text, the order of the
    text is the order of time: on every store reached by operations
    with calendar dates and times of day, [get_available_times] lists
    the slots by ascending time of day and [get_available_days] lists
    the days by strictly ascending date. *)
Theorem offers_are_chronological (s : db) (today d : date) :
  reachable_by typed_op s ->
  StronglySorted
    (fun a b => exists ta tb,
       strptime_HM (s_time a) = Some ta /\ strptime_HM (s_time b) = Some tb /\
       minute_of_day ta <= minute_of_day tb)
    (get_available_times d s) /\
  (forall days, get_available_days today s = Ok days ->
     StronglySorted
       (fun a b => exists da db,
          fromisoformat a = Some da /\ fromisoformat b = Some db /\
          toordinal da < toordinal db)
       days).
Proof.
  intros Hr. split.
  - apply (StronglySorted_weaken
             (fun a b => text_le (s_time a) (s_time b)));
      [|apply order_by_sorted].
    intros a b Ha Hb Hle.
    apply in_get_available_times in Ha, Hb.
    destruct (typed_slots s Hr a (proj1 Ha)) as (_ & ta & _ & Hta & _ & Ea).
    destruct (typed_slots s Hr b (proj1 Hb)) as (_ & tb & _ & Htb & _ & Eb).
    exists ta, tb. rewrite Ea, Eb in *.
    destruct (time_of_day_range ta Hta). destruct (time_of_day_range tb Htb).
    rewrite !strptime_HM_reads_back by assumption.
    split; [reflexivity|]. split; [reflexivity|].
    now apply (text_le_compare _ _ _ _ (strftime_HM_compare ta tb Hta Htb)).
  - intros days Hdays.
    pose proof (typed_slot_dates_valid s Hr) as Hs.
    assert (Hmax : toordinal today + 31 <= max_ordinal).
    { unfold get_available_days in Hdays.
      destruct (max_ordinal <? toordinal today + 31) eqn:E; [discriminate|].
      now apply Z.ltb_ge in E. }
    rewrite (get_available_days_ok today s Hs Hmax) in Hdays.
    injection Hdays as <-.
    apply (StronglySorted_weaken (fun a b => text_le a b /\ a <> b)).
    + intros a b Ha Hb [Hle Hne].
      apply (in_offered_days today s _ Hs) in Ha, Hb.
      destruct Ha as (da & _ & Hva & -> & _).
      destruct Hb as (db & _ & Hvb & -> & _).
      exists da, db. rewrite !fromisoformat_isoformat by assumption.
      split; [reflexivity|]. split; [reflexivity|].
      apply (text_le_compare _ _ _ _ (isoformat_compare da db Hva Hvb)) in Hle.
      assert (toordinal da <> toordinal db); [|lia].
      intros He. apply Hne. f_equal. now apply toordinal_inj.
    + apply StronglySorted_NoDup_strict.
      * apply NoDup_filter, available_dates_NoDup.
      * apply (sorted_by_filter (fun x => x)), order_by_sorted.
Qed.

Lemma offers_are_chronological_witness :
  StronglySorted
    (fun a b => exists ta tb,
       strptime_HM (s_time a) = Some ta /\ strptime_HM (s_time b) = Some tb /\
       minute_of_day ta <= minute_of_day tb)
    (get_available_times d0
       (apply_op (OpCreateSlot d0 t0) (apply_op (OpCreateSlot d0 t1) init))).
Proof.
  refine (proj1 (offers_are_chronological
                   (apply_op (OpCreateSlot d0 t0)
                      (apply_op (OpCreateSlot d0 t1) init))
                   d0 d0 _)).
  apply reach_step; [apply reach_step; [apply reach_init|]|]; reflexivity.
Defined.

(** ** Jobs and the reservations they belong to *)

Lemma reminder_job_id_not_empty (bid : Z) :
  String.eqb (reminder_job_id bid) EmptyString = false.
Proof. reflexivity. Qed.

Lemma NoDup_map_filter_string {A} (f : A -> string) (p : A -> bool) (l : list A) :
  NoDup (map f l) -> NoDup (map f (filter p l)).
Proof.
  induction l as [|x l IH]; cbn [map filter]; intros H; [constructor|].
  apply NoDup_cons_iff in H. destruct H as [Hn H].
  destruct (p x); [|now apply IH].
  cbn [map]. constructor; [|now apply IH].
  intros Hin. apply Hn. apply in_map_iff in Hin.
  destruct Hin as (y & Hy & Hin). apply filter_In in Hin.
  apply in_map_iff. exists y. tauto.
Qed.

Lemma jobs_ok_frame (w w' : world) :
  jobs_ok w -> w_jobs w' = w_jobs w ->
  reminders (w_db w') = reminders (w_db w) ->
  (forall b, In b (bookings (w_db w)) -> is_active b = true ->
     In b (bookings (w_db w'))) ->
  jobs_ok w'.
Proof.
  intros [K R O] Hj Hr Hb. constructor.
  - now rewrite Hj.
  - rewrite Hr. exact R.
  - rewrite Hj, Hr. intros j Hjin.
    destruct (O j Hjin) as (r & b & H1 & H2 & H3 & H4 & H5).
    exists r, b. auto.
Qed.

Lemma jobs_ok_schedule (w : world) (b : booking) (run tg : Z) (tm : string) :
  jobs_ok w -> In b (bookings (w_db w)) -> is_active b = true ->
  jobs_ok (mkWorld
             (save_reminder (b_id b) run (reminder_job_id (b_id b)) (w_db w))
             (add_job (mkJob (reminder_job_id (b_id b)) run tg tm) (w_jobs w))).
Proof.
  intros [K R O] Hb Hact. constructor; cbn [w_db w_jobs].
  - unfold add_job. rewrite map_app. cbn [map job_id].
    apply (Permutation_NoDup (Permutation_cons_append _ _)).
    constructor; [|now apply NoDup_map_filter_string].
    intros Hin. apply in_map_iff in Hin. destruct Hin as (j & Hid & Hin).
    apply filter_In in Hin. destruct Hin as [_ Hne].
    cbn [job_id] in Hne. rewrite Hid, String.eqb_refl in Hne. discriminate.
  - intros r Hr. unfold save_reminder in Hr. cbn [reminders set_reminders] in Hr.
    apply in_app_or in Hr. destruct Hr as [Hr|[<-|[]]]; [|reflexivity].
    apply filter_In in Hr. now apply R.
  - intros j Hj. unfold add_job in Hj. apply in_app_or in Hj.
    unfold save_reminder. cbn [reminders bookings set_reminders].
    destruct Hj as [Hj|[<-|[]]].
    + apply filter_In in Hj. destruct Hj as [Hj Hne]. cbn [job_id] in Hne.
      destruct (O j Hj) as (r & b' & H1 & H2 & H3 & H4 & H5 & H6).
      exists r, b'. repeat (split; [|assumption || auto]); auto.
      apply in_or_app. left. apply filter_In. split; [exact H1|].
      apply negb_true_iff, Z.eqb_neq. intros He.
      rewrite H5, He, String.eqb_refl in Hne. discriminate.
    + exists (mkReminder (reminders_seq (w_db w) + 1) (b_id b) run
                         (reminder_job_id (b_id b))), b.
      cbn. repeat split; auto. apply in_or_app. right. now left.
Qed.

Lemma jobs_ok_delete (w : world) (bid : Z) :
  jobs_ok w ->
  (forall j, In j (w_jobs w) -> job_id j <> reminder_job_id bid) ->
  jobs_ok (mkWorld (snd (delete_reminder bid (w_db w))) (w_jobs w)).
Proof.
  intros [K R O] Hno. constructor; cbn [w_db w_jobs].
  - exact K.
  - intros r Hr. apply R. now apply (ext_reminders _ _ (extends_delete_reminder bid _)).
  - intros j Hj. destruct (O j Hj) as (r & b & H1 & H2 & H3 & H4 & H5 & H6).
    exists r, b. destruct (delete_reminder_frame bid (w_db w)) as (_ & _ & ->).
    repeat (split; [|assumption || auto]); auto.
    unfold delete_reminder. destruct (find _ (reminders (w_db w))); [|exact H1].
    cbn [snd reminders set_reminders]. apply filter_In. split; [exact H1|].
    apply negb_true_iff, Z.eqb_neq. intros He.
    apply (Hno j Hj). now rewrite H5, He.
Qed.

Lemma jobs_ok_drop (w : world) (bid : Z) :
  jobs_ok w ->
  let jobs := drop_job (fst (delete_reminder bid (w_db w))) (w_jobs w) in
  jobs_ok (mkWorld (w_db w) jobs) /\
  (forall j, In j jobs -> job_id j <> reminder_job_id bid).
Proof.
  intros Hok jobs. pose proof Hok as [K R O].
  assert (Hsub : forall j, In j jobs -> In j (w_jobs w)).
  { intros j. unfold jobs, drop_job.
    destruct (fst (delete_reminder bid (w_db w))) as [id|]; [|auto].
    destruct (String.eqb id EmptyString); [auto|].
    unfold remove_job. intros H. now apply filter_In in H. }
  split.
  - constructor; cbn [w_db w_jobs].
    + unfold jobs, drop_job.
      destruct (fst (delete_reminder bid (w_db w))) as [id|]; [|exact K].
      destruct (String.eqb id EmptyString); [exact K|].
      now apply NoDup_map_filter_string.
    + exact R.
    + intros j Hj. now apply O, Hsub.
  - intros j Hj He.
    destruct (O j (Hsub j Hj)) as (r & b & H1 & _ & _ & _ & H5 & _).
    rewrite He in H5. apply reminder_job_id_inj in H5.
    revert Hj. unfold jobs, delete_reminder.
    destruct (find (fun x => r_booking_id x =? bid) (reminders (w_db w)))
      as [row|] eqn:E.
    + apply find_some in E. destruct E as [Hrow Hkey]. apply Z.eqb_eq in Hkey.
      cbn [fst drop_job]. rewrite (R row Hrow), Hkey, reminder_job_id_not_empty.
      unfold remove_job. intros Hj. apply filter_In in Hj.
      destruct Hj as [_ Hne]. rewrite He, String.eqb_refl in Hne. discriminate.
    + rewrite find_none_iff in E. specialize (E r H1).
      apply Z.eqb_neq in E. congruence.
Qed.

Lemma cancel_rows_keeps (bid : Z) (bs : list booking) (b : booking) :
  In b bs -> b_id b <> bid -> In b (cancel_rows bid bs).
Proof.
  intros Hin Hne. unfold cancel_rows. apply in_map_iff. exists b.
  split; [|exact Hin]. now apply Z.eqb_neq in Hne as ->.
Qed.

Lemma jobs_ok_cancel (w : world) (bid : Z) :
  jobs_ok w ->
  (forall j, In j (w_jobs w) -> job_id j <> reminder_job_id bid) ->
  jobs_ok (mkWorld (snd (cancel_booking bid (w_db w))) (w_jobs w)).
Proof.
  intros [K R O] Hno. constructor; cbn [w_db w_jobs].
  - exact K.
  - rewrite cancel_booking_reminders. exact R.
  - rewrite cancel_booking_reminders. intros j Hj.
    destruct (O j Hj) as (r & b & H1 & H2 & H3 & H4 & H5 & H6).
    exists r, b. repeat (split; [|assumption || auto]); auto.
    rewrite cancel_booking_unfold.
    destruct (find _ (bookings (w_db w))); [|exact H2].
    cbv zeta. cbn [snd]. unfold update_slot_available.
    cbn [bookings set_slots set_bookings].
    apply cancel_rows_keeps; [exact H2|].
    intros He. apply (Hno j Hj). now rewrite H5, <- H3, He.
Qed.

Lemma jobs_ok_user_cancel (w : world) (bid : Z) :
  jobs_ok w ->
  jobs_ok (snd (user_cancel_booking bid w)) /\
  jobs_for (w_jobs (snd (user_cancel_booking bid w))) bid = [].
Proof.
  intros Hok. rewrite user_cancel_booking_unfold. cbn [snd w_jobs].
  destruct (jobs_ok_drop w bid Hok) as [H1 Hno]. cbv zeta in H1, Hno.
  set (jobs := drop_job (fst (delete_reminder bid (w_db w))) (w_jobs w)) in *.
  pose proof (jobs_ok_delete (mkWorld (w_db w) jobs) bid H1 Hno) as H2.
  cbn [w_db w_jobs] in H2.
  pose proof (jobs_ok_cancel _ bid H2 Hno) as H3. cbn [w_db w_jobs] in H3.
  split; [exact H3|].
  unfold jobs_for. apply filter_nil_iff. intros j Hj.
  apply String.eqb_neq. now apply Hno.
Qed.

Lemma book_slot_reminders (tg sid now : Z) (s : db) :
  reminders (snd (book_slot tg sid now s)) = reminders s.
Proof.
  rewrite book_slot_unfold. cbv zeta.
  pose proof (get_or_create_user_frame tg s) as (_ & _ & _ & _ & Hr & _).
  destruct (active_bookings_of_tg s tg); [|reflexivity].
  destruct (slot_by_id _ sid) as [row|]; [|exact Hr].
  destruct (s_is_available row =? 0); exact Hr.
Qed.

Lemma jobs_ok_confirm (from_user : Z) (chosen : option Z) (name phone : string)
    (now_book now_sched : Z) (w : world) :
  jobs_ok w ->
  jobs_ok (snd (confirm_booking from_user chosen name phone now_book now_sched w)).
Proof.
  intros Hok. unfold confirm_booking. destruct chosen as [slot_id|]; [|exact Hok].
  set (d1 := update_user_info from_user name phone (w_db w)).
  assert (H1 : jobs_ok (mkWorld d1 (w_jobs w))).
  { apply (jobs_ok_frame w); [exact Hok|reflexivity|reflexivity|auto]. }
  assert (H2 : jobs_ok (mkWorld (snd (book_slot from_user slot_id now_book d1))
                                (w_jobs w))).
  { apply (jobs_ok_frame (mkWorld d1 (w_jobs w))); [exact H1|reflexivity| |];
      cbn [w_db].
    - apply book_slot_reminders.
    - intros b Hb _. now apply book_slot_grows. }
  destruct (fst (book_slot from_user slot_id now_book d1)) as [bid|] eqn:E.
  - destruct (book_slot_success _ _ _ _ _ E) as (_ & _ & _ & _ & _ & Hid).
    destruct (book_slot from_user slot_id now_book d1) as [res d2].
    cbn [fst snd] in *. subst res.
    destruct (get_slot slot_id d2) as [sl|]; [|exact H2].
    destruct (schedule_reminder _ _ _ _ _ _) as [w'|e] eqn:Hs; [|exact H2].
    cbn [snd]. apply schedule_reminder_ok in Hs.
    destruct Hs as [->|(T & _ & _ & ->)]; [exact H2|].
    destruct (active_booking_of d2 _ slot_id) as [b|] eqn:Hb; [|discriminate].
    cbn [option_map] in Hid. injection Hid as <-.
    apply find_some in Hb. destruct Hb as [Hb Hc].
    apply andb_true_iff in Hc. destruct Hc as [_ Hact].
    now apply (jobs_ok_schedule (mkWorld d2 (w_jobs w)) b).
  - destruct (book_slot from_user slot_id now_book d1) as [res d2].
    cbn [fst snd] in *. now subst res.
Qed.

Lemma jobs_ok_restore_loop (now : Z) (now_of : Z -> Z) (rows : list reminder_row)
    (s0 : db) :
  NoDup (map row_booking_id rows) ->
  (forall row, In row rows -> In row (get_all_reminders s0)) ->
  forall w,
    jobs_ok w -> bookings (w_db w) = bookings s0 ->
    (forall j row, In j (w_jobs w) -> In row rows ->
       job_id j <> reminder_job_id (row_booking_id row)) ->
    jobs_ok (snd (restore_loop now now_of rows w)).
Proof.
  induction rows as [|r rest IH]; intros Hnd Hrows w Hok Hb Hfresh;
    [exact Hok|].
  cbn [map] in Hnd. apply NoDup_cons_iff in Hnd. destruct Hnd as [Hn Hnd].
  assert (Hrest : forall row, In row rest -> In row (get_all_reminders s0))
    by (intros row H; apply Hrows; now right).
  cbn [restore_loop].
  destruct (negb (status_eqb (row_status r) active) || (row_run_at r <=? now))
    eqn:Ec.
  - apply IH; [exact Hnd|exact Hrest| | |]; cbn [w_db w_jobs].
    + apply jobs_ok_delete; [exact Hok|].
      intros j Hj. apply (Hfresh j r Hj). now left.
    + destruct (delete_reminder_frame (row_booking_id r) (w_db w)) as (_ & _ & ->).
      exact Hb.
    + intros j row Hj Hrow. apply Hfresh; [exact Hj|now right].
  - destruct (schedule_reminder _ _ _ _ _ w) as [w'|e] eqn:Hs; [|exact Hok].
    apply schedule_reminder_ok in Hs.
    destruct Hs as [->|(T & _ & _ & ->)].
    + apply IH; [exact Hnd|exact Hrest|exact Hok|exact Hb|].
      intros j row Hj Hrow. apply Hfresh; [exact Hj|now right].
    + apply orb_false_iff in Ec. destruct Ec as [Est _].
      apply negb_false_iff in Est.
      assert (Hin : In r (get_all_reminders s0)) by (apply Hrows; now left).
      apply in_get_all_reminders in Hin.
      destruct Hin as (rm & b & u & sl & _ & Hbin & Eb & _ & _ & _ & _ & ->).
      cbn [row_booking_id row_status row_tg_id row_time row_date] in *.
      rewrite <- Eb in *.
      apply IH; [exact Hnd|exact Hrest| | |]; cbn [w_db w_jobs].
      * apply jobs_ok_schedule; [exact Hok|now rewrite Hb|exact Est].
      * exact Hb.
      * intros j row Hj Hrow. unfold add_job in Hj. apply in_app_or in Hj.
        destruct Hj as [Hj|[<-|[]]].
        -- apply filter_In in Hj. apply Hfresh; [tauto|now right].
        -- cbn [job_id]. intros He. apply reminder_job_id_inj in He.
           apply Hn. rewrite He. cbn [row_booking_id].
           apply in_map. exact Hrow.
Qed.

Lemma jobs_ok_handle (e : event) (w : world) :
  wf (w_db w) -> jobs_ok w -> jobs_ok (handle e w).
Proof.
  intros Hwf Hok. destruct e; cbn [handle].
  - now apply jobs_ok_confirm.
  - now apply jobs_ok_user_cancel.
  - unfold admin_cancel_booking_do.
    destruct (get_booking_info booking_id (w_db w)); [|exact Hok].
    now apply jobs_ok_user_cancel.
  - apply (jobs_ok_frame w); [exact Hok|reflexivity| |]; cbn [w_db].
    + unfold admin_add_times.
      destruct (negb (from_user =? admin_id)); [reflexivity|].
      destruct admin_day as [dt|]; [|reflexivity].
      pose proof (add_times_spec dt (time_parts text) 0 (w_db w)) as H.
      destruct (add_times dt (time_parts text) 0 (w_db w)). cbn [snd] in *. tauto.
    + intros b Hb _. unfold admin_add_times.
      destruct (negb (from_user =? admin_id)); [exact Hb|].
      destruct admin_day as [dt|]; [|exact Hb].
      pose proof (add_times_spec dt (time_parts text) 0 (w_db w)) as H.
      destruct (add_times dt (time_parts text) 0 (w_db w)). cbn [snd] in *.
      destruct H as (_ & _ & _ & -> & _). exact Hb.
  - apply (jobs_ok_frame w); [exact Hok|reflexivity| |]; cbn [w_db].
    + unfold admin_close_day_finish. now destruct (negb (from_user =? admin_id)).
    + intros b Hb _. unfold admin_close_day_finish.
      now destruct (negb (from_user =? admin_id)).
  - unfold startup, restore_reminders.
    apply (jobs_ok_restore_loop now now_of _ (w_db w)); cbn [w_db w_jobs].
    + now apply get_all_reminders_keys.
    + auto.
    + destruct Hok as [K R O]. constructor; cbn [w_db w_jobs];
        [constructor|exact R|intros j []].
    + reflexivity.
    + intros j row [].
Qed.

Lemma jobs_ok_init : jobs_ok (mkWorld init []).
Proof. constructor; cbn; [constructor|intros r []|intros j []]. Qed.

Lemma live_jobs_ok (w : world) : live w -> jobs_ok w.
Proof.
  induction 1 as [|w e Hl IH]; [apply jobs_ok_init|].
  apply jobs_ok_handle; [|exact IH].
  apply coh_wf, live_coherent, Hl.
Qed.

(** X26: in every world reached by the handlers, each job in the
    scheduler has a stored reminder with the same fire time and job
    id, no two jobs share an id, and each job belongs to an active
    reservation: no job is left for a cancelled reservation.  In
    particular, after [user_cancel_booking] neither a job nor a record
    of that reservation remains. *)
Theorem live_jobs_belong_to_active_reservations (w : world) :
  live w ->
  jobs_ok w /\
  (forall bid,
     jobs_for (w_jobs (snd (user_cancel_booking bid w))) bid = [] /\
     reminders_for (w_db (snd (user_cancel_booking bid w))) bid = []) /\
  (forall j b, In j (w_jobs w) -> In b (bookings (w_db w)) ->
     job_id j = reminder_job_id (b_id b) -> is_active b = true).
Proof.
  intros Hl. pose proof (live_jobs_ok w Hl) as Hok.
  split; [exact Hok|]. split.
  - intros bid. split; [now apply jobs_ok_user_cancel|].
    rewrite user_cancel_booking_db. unfold reminders_for.
    rewrite cancel_booking_reminders. apply reminders_for_delete.
  - intros j b Hj Hb Hid.
    destruct (jobs_owner w Hok j Hj) as (r & b' & _ & Hb' & Eb & Hact & Hid' & _).
    rewrite Hid in Hid'. apply reminder_job_id_inj in Hid'.
    assert (b' = b); [|now subst].
    apply (NoDup_map_eq b_id (bookings (w_db w))); auto; [|congruence].
    apply wf_bookings_id, coh_wf, live_coherent, Hl.
Qed.

Lemma live_jobs_belong_to_active_reservations_witness :
  jobs_ok (play demo_events).
Proof.
  exact (proj1 (live_jobs_belong_to_active_reservations (play demo_events)
                  (live_play demo_events))).
Defined.

(** ** A reservation that is confirmed *)

Lemma schedule_reminder_at (bid tg : Z) (d t : string) (now T : Z) (w : world) :
  slot_datetime d t = Some T -> hours24 <= T ->
  schedule_reminder bid tg d t now w
  = Ok (if T - hours24 <=? now then w
        else mkWorld (save_reminder bid (T - hours24) (reminder_job_id bid) (w_db w))
                     (add_job (mkJob (reminder_job_id bid) (T - hours24) tg t)
                              (w_jobs w))).
Proof.
  unfold slot_datetime, schedule_reminder, datetime_sub. intros -> Hge.
  assert ((T - hours24 <? 0) = false) as -> by (apply Z.ltb_ge; lia).
  now destruct (T - hours24 <=? now).
Qed.

Lemma get_active_booking_by_tg_frame (tg : Z) (s s' : db) :
  users s' = users s -> slots s' = slots s -> bookings s' = bookings s ->
  get_active_booking_by_tg tg s' = get_active_booking_by_tg tg s.
Proof.
  intros Hu Hs Hb. unfold get_active_booking_by_tg.
  rewrite (active_bookings_of_tg_frame s s' tg Hu Hb).
  rewrite (flat_map_ext _ (fun b => match slot_by_id s (b_slot_id b) with
                                     | Some sl => [(b, s_date sl, s_time sl)]
                                     | None => []
                                     end)); [reflexivity|].
  intros b. now rewrite (slot_by_id_frame s s' _ Hs).
Qed.

(** X27: in a world reached by the handlers, when the client has no
    active reservation and the slot is available at the datetime T that
    its text reads as (T at least 24 hours after [datetime.min]),
    [confirm_booking] answers with the date and time
    of the slot, the reservation with the next id is the one the client
    is shown, the slot is no longer available, and the reminder of that
    reservation (record and job, at T - 24h) exists exactly when
    T - 24h is later than the clock. *)
Theorem confirm_booking_success (from_user sid : Z) (name phone : string)
    (now_book now_sched : Z) (w : world) (sl : slot) (T : Z) :
  live w ->
  active_bookings_of_tg (w_db w) from_user = [] ->
  slot_by_id (w_db w) sid = Some sl -> s_is_available sl = 1 ->
  slot_datetime (s_date sl) (s_time sl) = Some T -> hours24 <= T ->
  let res := confirm_booking from_user (Some sid) name phone now_book
               now_sched w in
  let bid := bookings_seq (w_db w) + 1 in
  fst res = Ok (BookingCreated (s_date sl) (s_time sl) name phone) /\
  (exists uid,
     get_active_booking_by_tg from_user (w_db (snd res))
     = Some (mkBooking bid uid sid active now_book, s_date sl, s_time sl)) /\
  slot_by_id (w_db (snd res)) sid = Some (set_available 0 sl) /\
  (T - hours24 <= now_sched ->
   reminders_for (w_db (snd res)) bid = [] /\
   jobs_for (w_jobs (snd res)) bid = []) /\
  (now_sched < T - hours24 ->
   reminders_for (w_db (snd res)) bid
   = [mkReminder (reminders_seq (w_db w) + 1) bid (T - hours24)
                 (reminder_job_id bid)] /\
   jobs_for (w_jobs (snd res)) bid
   = [mkJob (reminder_job_id bid) (T - hours24) from_user (s_time sl)]).
Proof.
  intros Hl Hfree Hsl Hav HT Hge res bid.
  pose proof (live_settled w Hl) as Hset.
  pose proof (live_jobs_ok w Hl) as Hjobs.
  pose proof (coh_wf _ (set_coherent _ Hset)) as Hwf.
  set (s := w_db w) in *.
  set (d1 := update_user_info from_user name phone s).
  assert (Hwf1 : wf d1) by now apply wf_update_user_info.
  assert (Hfree1 : active_bookings_of_tg d1 from_user = []).
  { rewrite (active_bookings_of_tg_same_users s d1); [exact Hfree|reflexivity|].
    apply update_user_info_keys. }
  assert (Hsl1 : slot_by_id d1 sid = Some sl)
    by (rewrite (slot_by_id_frame s d1); [exact Hsl|reflexivity]).
  assert (Hopen : s_is_available sl <> 0) by lia.
  destruct (book_slot_free from_user sid now_book d1 sl Hfree1 Hsl1 Hopen)
    as (bid' & Hok).
  destruct (book_slot_success_state _ _ _ _ _ Hwf1 Hok)
    as (uid & sl' & Hsl' & _ & Hbid & _ & Hone & Hslot2).
  assert (sl' = sl) by congruence. subst sl'.
  change (bookings_seq d1) with (bookings_seq s) in Hbid. fold bid in Hbid.
  subst bid'.
  assert (Hrem2 : reminders (snd (book_slot from_user sid now_book d1))
                  = reminders s) by (rewrite book_slot_reminders; reflexivity).
  assert (Hseq2 : reminders_seq (snd (book_slot from_user sid now_book d1))
                  = reminders_seq s).
  { destruct (book_slot_success _ _ _ _ _ Hok) as (_ & _ & _ & _ & -> & _).
    unfold insert_booking, update_slot_available.
    cbn [reminders_seq set_slots set_bookings].
    now destruct (get_or_create_user_frame from_user d1) as (_ & _ & _ & _ & _ & ->). }
  assert (Hres : res
            = (Ok (BookingCreated (s_date sl) (s_time sl) name phone),
               let w2 := mkWorld (snd (book_slot from_user sid now_book d1))
                                 (w_jobs w) in
               if T - hours24 <=? now_sched then w2
               else mkWorld (save_reminder bid (T - hours24)
                               (reminder_job_id bid) (w_db w2))
                            (add_job (mkJob (reminder_job_id bid) (T - hours24)
                                            from_user (s_time sl))
                                     (w_jobs w2)))).
  { unfold res, confirm_booking. fold s. fold d1.
    destruct (book_slot from_user sid now_book d1) as [r d2].
    cbn [fst snd] in *. subst r. unfold get_slot. rewrite Hslot2.
    cbn [s_date s_time set_available].
    now rewrite (schedule_reminder_at bid from_user _ _ now_sched T _ HT Hge). }
  rewrite Hres. cbn [fst snd]. cbv zeta.
  set (d2 := snd (book_slot from_user sid now_book d1)) in *.
  assert (Hno : reminders_for s bid = []).
  { unfold reminders_for. apply filter_nil_iff. intros r Hr.
    apply Z.eqb_neq. pose proof (set_bound _ Hset r Hr). unfold bid. lia. }
  split; [reflexivity|]. split; [|split; [|split]].
  - exists uid.
    assert (Hmy : get_active_booking_by_tg from_user d2
                  = Some (mkBooking bid uid sid active now_book,
                          s_date sl, s_time sl)).
    { unfold get_active_booking_by_tg. rewrite Hone.
      cbn [flat_map b_slot_id]. now rewrite Hslot2. }
    destruct (T - hours24 <=? now_sched); [exact Hmy|].
    cbn [w_db]. rewrite <- Hmy. now apply get_active_booking_by_tg_frame.
  - destruct (T - hours24 <=? now_sched); [exact Hslot2|].
    cbn [w_db]. rewrite <- Hslot2. now apply slot_by_id_frame.
  - intros Hle. apply Z.leb_le in Hle. rewrite Hle. cbn [w_db w_jobs].
    split.
    + unfold reminders_for. rewrite Hrem2. exact Hno.
    + unfold jobs_for. apply filter_nil_iff. intros j Hj.
      apply String.eqb_neq. intros Hid.
      destruct (jobs_owner w Hjobs j Hj) as (r & _ & Hr & _ & _ & _ & Hid' & _).
      rewrite Hid in Hid'. apply reminder_job_id_inj in Hid'.
      pose proof (set_bound _ Hset r Hr). unfold bid in Hid'. fold s in H. lia.
  - intros Hlt. assert ((T - hours24 <=? now_sched) = false) as ->
      by (apply Z.leb_gt; lia).
    cbn [w_db w_jobs]. split.
    + rewrite reminders_for_save. now rewrite Hseq2.
    + apply jobs_for_add.
Qed.

Lemma confirm_booking_success_witness :
  fst (confirm_booking 100 (Some 1) "Ann" "555"
         (datetime_of 2025 6 1 9 0) (datetime_of 2025 6 1 9 0)
         (play [EvAddTimes 7 7 (Some d0) "14:00"]))
  = Ok (BookingCreated "2025-06-10" "14:00" "Ann" "555").
Proof.
  refine (proj1 (confirm_booking_success 100 1 "Ann" "555"
                   (datetime_of 2025 6 1 9 0) (datetime_of 2025 6 1 9 0)
                   (play [EvAddTimes 7 7 (Some d0) "14:00"])
                   (mkSlot 1 "2025-06-10" "14:00" 1)
                   (datetime_of 2025 6 10 14 0) _ _ _ _ _ _)).
  - apply live_play.
  - reflexivity.
  - reflexivity.
  - reflexivity.
  - reflexivity.
  - vm_compute. discriminate.
Defined.

(** ** A day that is closed *)

Lemma slot_dates_valid_close_day (d : date) (s : db) :
  slot_dates_valid s -> slot_dates_valid (close_day d s).
Proof.
  intros Hs sl Hin. unfold close_day in Hin. cbn [slots set_slots] in Hin.
  apply in_map_iff in Hin. destruct Hin as (x & <- & Hx).
  destruct (Hs x Hx) as (d' & Hv & Hd). exists d'.
  now destruct (String.eqb _ _).
Qed.

(** X28: when every slot carries the [isoformat] of a calendar date and
    [get_available_days] returns before and after, after [close_day]
    the day is missing from [get_available_days], the other days are
    offered as before, and [choose_day] for the closed day (a calendar
    date) answers "no free time". *)
Theorem closed_day_is_not_offered (today d : date) (s : db)
    (days days' : list string) :
  slot_dates_valid s ->
  get_available_days today s = Ok days ->
  get_available_days today (close_day d s) = Ok days' ->
  ~ In (isoformat d) days' /\
  (forall day_str, day_str <> isoformat d ->
     (In day_str days' <-> In day_str days)) /\
  (valid d = true ->
   choose_day ("book_day:" ++ isoformat d) (close_day d s) = Ok NoFreeTime).
Proof.
  intros Hs Hdays Hdays'.
  pose proof (slot_dates_valid_close_day d s Hs) as Hs'.
  assert (Hmax : toordinal today + 31 <= max_ordinal).
  { unfold get_available_days in Hdays.
    destruct (max_ordinal <? toordinal today + 31) eqn:E; [discriminate|].
    now apply Z.ltb_ge in E. }
  rewrite (get_available_days_ok today s Hs Hmax) in Hdays.
  rewrite (get_available_days_ok today _ Hs' Hmax) in Hdays'.
  injection Hdays as <-. injection Hdays' as <-.
  assert (Hslot : forall x,
            (exists sl, In sl (slots (close_day d s)) /\ s_is_available sl = 1 /\
                        s_date sl = x) <->
            x <> isoformat d /\
            exists sl, In sl (slots s) /\ s_is_available sl = 1 /\ s_date sl = x).
  { intros x. unfold close_day. cbn [slots set_slots]. split.
    - intros (sl & Hin & Hav & Hd). apply in_map_iff in Hin.
      destruct Hin as (y & <- & Hy).
      destruct (String.eqb (s_date y) (isoformat d)) eqn:E.
      + cbn in Hav. discriminate.
      + apply String.eqb_neq in E. split; [congruence|]. now exists y.
    - intros (Hne & sl & Hin & Hav & Hd). exists sl.
      split; [|auto]. apply in_map_iff. exists sl. split; [|exact Hin].
      assert (String.eqb (s_date sl) (isoformat d) = false) as ->
        by (apply String.eqb_neq; congruence).
      reflexivity. }
  split; [|split].
  - intros Hin. apply filter_In in Hin. destruct Hin as [Hin _].
    apply in_available_dates, Hslot in Hin. now destruct Hin as [Hne _].
  - intros day_str Hne. rewrite !filter_In, !in_available_dates, Hslot. tauto.
  - intros Hv. unfold choose_day. rewrite split_once_book_day.
    rewrite (fromisoformat_isoformat d Hv). now rewrite close_day_empty.
Qed.

Lemma closed_day_is_not_offered_witness :
  ~ In (isoformat d0) [].
Proof.
  exact (proj1 (closed_day_is_not_offered monday d0 (create_slot d0 t0 init)
                  ["2025-06-10"] [] slot_dates_valid_demo eq_refl eq_refl)).
Defined.

(** ** Start-up *)

Lemma restore_loop_frame (now : Z) (now_of : Z -> Z) (rows : list reminder_row) :
  forall w,
    (forall j, In j (w_jobs w) ->
       exists bid, job_id j = reminder_job_id bid /\ now_of bid < job_run_date j) ->
    let w' := snd (restore_loop now now_of rows w) in
    users (w_db w') = users (w_db w) /\ slots (w_db w') = slots (w_db w) /\
    bookings (w_db w') = bookings (w_db w) /\
    bookings_seq (w_db w') = bookings_seq (w_db w) /\
    (forall j, In j (w_jobs w') ->
       exists bid, job_id j = reminder_job_id bid /\ now_of bid < job_run_date j).
Proof.
  induction rows as [|r rest IH]; intros w Hj; cbv zeta; [auto|].
  cbn [restore_loop].
  destruct (negb (status_eqb (row_status r) active) || (row_run_at r <=? now)).
  - specialize (IH (mkWorld (snd (delete_reminder (row_booking_id r) (w_db w)))
                            (w_jobs w)) Hj).
    cbv zeta in IH. cbn [w_db w_jobs] in IH.
    destruct IH as (H1 & H2 & H3 & H4 & H5).
    destruct (delete_reminder_frame (row_booking_id r) (w_db w)) as (F1 & F2 & F3).
    rewrite H1, H2, H3, H4, F1, F2, F3.
    repeat split; auto.
    unfold delete_reminder. now destruct (find _ (reminders (w_db w))).
  - unfold schedule_reminder.
    destruct (strptime_slot _) as [T|]; [|cbn [snd]; auto].
    destruct (datetime_sub T hours24) as [run_at|e]; [|cbn [snd]; auto].
    destruct (run_at <=? now_of (row_booking_id r)) eqn:E.
    + apply IH. exact Hj.
    + apply Z.leb_gt in E.
      match goal with
      | |- context [restore_loop now now_of rest ?w1] =>
          specialize (IH w1)
      end.
      cbv zeta in IH. cbn [w_db w_jobs] in IH.
      destruct IH as (H1 & H2 & H3 & H4 & H5).
      * intros j Hin. unfold add_job in Hin. apply in_app_or in Hin.
        destruct Hin as [Hin|[<-|[]]].
        -- apply filter_In in Hin. now apply Hj.
        -- exists (row_booking_id r). split; [reflexivity|exact E].
      * rewrite H1, H2, H3, H4. repeat split; auto.
Qed.

(** X29: start-up ([restore_reminders]) never changes clients, slots or
    reservations, whatever it does with the reminders, and every job it
    registers fires later than the clock reading taken for it. *)
Theorem startup_keeps_the_ledger (now : Z) (now_of : Z -> Z) (s : db) :
  let w := snd (startup now now_of s) in
  users (w_db w) = users s /\ slots (w_db w) = slots s /\
  bookings (w_db w) = bookings s /\ bookings_seq (w_db w) = bookings_seq s /\
  (forall j, In j (w_jobs w) ->
     exists bid, job_id j = reminder_job_id bid /\ now_of bid < job_run_date j).
Proof.
  cbv zeta. unfold startup, restore_reminders.
  apply (restore_loop_frame now now_of _ (mkWorld s [])).
  intros j [].
Qed.
